(** * A shallow embedding of the SurrealDB chat client

    The repository is a browser chat UI: [src/lib/surrealdb.ts] wraps the
    third-party SurrealDB driver in a singleton service, and
    [src/components/Chat.tsx] is the React component that uses it.

    The development has four parts:
    - [Js]: the JavaScript built-ins the code relies on (strings as sequences
      of UTF-16 code units, [trim], [includes], [Array.prototype.slice], the
      stable [Array.prototype.sort] on timestamps, thrown values);
    - [Driver]: the operational model of the external database client the
      service talks to (its replies are inputs of the model);
    - [SurrealDBService]: the class of [src/lib/surrealdb.ts];
    - [Chat]: the component of [src/components/Chat.tsx].
    The theorems follow the definitions. *)

From Stdlib Require Import List ZArith NArith Bool Lia String Ascii.
From Stdlib Require Import Sorting.Sorted Sorting.Permutation.
Import ListNotations.

Set Implicit Arguments.
Local Open Scope Z_scope.

(* ================================================================== *)
(** * JavaScript built-ins *)
(* ================================================================== *)
Module Js.

(** A JavaScript string is a sequence of UTF-16 code units. *)
Definition jsstring := list N.

(** String literals of the source (ASCII only). *)
Definition lit (s : string) : jsstring :=
  map N_of_ascii (list_ascii_of_string s).

Definition str_eqb (a b : jsstring) : bool :=
  if list_eq_dec N.eq_dec a b then true else false.

(** ECMAScript WhiteSpace and LineTerminator code points: TAB, LF, VT, FF,
    CR, SP, NBSP, the Zs category, LS, PS and ZWNBSP. *)
Definition white_space_code_units : list N :=
  [9; 10; 11; 12; 13; 32; 160; 5760;
   8192; 8193; 8194; 8195; 8196; 8197; 8198; 8199; 8200; 8201; 8202;
   8232; 8233; 8239; 8287; 12288; 65279]%N.

Definition is_white_space (c : N) : bool :=
  existsb (N.eqb c) white_space_code_units.

Fixpoint trimStart (s : jsstring) : jsstring :=
  match s with
  | [] => []
  | c :: r => if is_white_space c then trimStart r else s
  end.

(** [String.prototype.trim]. *)
Definition trim (s : jsstring) : jsstring :=
  rev (trimStart (rev (trimStart s))).

(** Truthiness of a string: only the empty string is falsy. *)
Definition truthy (s : jsstring) : bool :=
  match s with [] => false | _ :: _ => true end.

Fixpoint starts_with (sub s : jsstring) : bool :=
  match sub, s with
  | [], _ => true
  | _ :: _, [] => false
  | a :: sub', b :: s' => N.eqb a b && starts_with sub' s'
  end.

(** [String.prototype.includes]. *)
Fixpoint includes (s sub : jsstring) : bool :=
  starts_with sub s ||
  match s with
  | [] => false
  | _ :: s' => includes s' sub
  end.

(** [Array.prototype.slice(start)] with an integral [start]: a negative
    start counts from the end, and the start index is clamped to the array. *)
Definition slice {A : Type} (start : Z) (l : list A) : list A :=
  let len := Z.of_nat (List.length l) in
  let k := if start <? 0 then Z.max (len + start) 0 else Z.min start len in
  skipn (Z.to_nat k) l.

(** A thrown value: an [Error] object, or anything else, of which the code
    only ever takes [String(error)]. *)
Inductive exn : Type :=
| JsError (name message : jsstring)
| JsValue (shown : jsstring).

(** [new Error(message)]. *)
Definition new_Error (message : jsstring) : exn := JsError (lit "Error") message.

(** [error instanceof Error ? error.message : String(error)]. *)
Definition errorMessage (error : exn) : jsstring :=
  match error with
  | JsError _ message => message
  | JsValue shown => shown
  end.

(** The outcome of running a (possibly throwing) computation. *)
Inductive result (A : Type) : Type :=
| Ok (a : A)
| Throw (e : exn).
Arguments Ok {A} a.
Arguments Throw {A} e.

End Js.
Import Js.

(* ================================================================== *)
(** * Data model *)
(* ================================================================== *)

(** [interface ChatMessage] of [src/lib/surrealdb.ts].  The timestamp is the
    [getTime()] value of the date, in milliseconds; the record id is the one
    the database gave the record, if any. *)
Record ChatMessage : Type := mkChatMessage {
  id : option jsstring;
  username : jsstring;
  message : jsstring;
  timestamp : Z
}.

(** The comparator of [getMessages] is [a.timestamp - b.timestamp];
    [Array.prototype.sort] is stable, so the sorted array is the one a stable
    insertion sort produces. *)
Fixpoint insert_by_timestamp (m : ChatMessage) (l : list ChatMessage)
  : list ChatMessage :=
  match l with
  | [] => [m]
  | x :: r =>
      if timestamp m <=? timestamp x then m :: x :: r
      else x :: insert_by_timestamp m r
  end.

Fixpoint sort_by_timestamp (l : list ChatMessage) : list ChatMessage :=
  match l with
  | [] => []
  | m :: r => insert_by_timestamp m (sort_by_timestamp r)
  end.

(* ================================================================== *)
(** * The database client the service talks to *)
(* ================================================================== *)

(** The SurrealDB driver ([import { Surreal } from 'surrealdb']) and the
    server behind it are not part of the repository.  They are modelled
    operationally: the server holds the records of table [messages]; the
    client connection holds the live queries it registered.  Whether a call
    resolves or rejects, the id and scan position the server gives a new
    record, and the uuid of a new live query are chosen by the environment:
    they are arguments (replies) of the operations below. *)
Module Driver.

(** A live-query uuid, identified with its string form ([toString]). *)
Definition uuid := jsstring.

(** The action of a live notification. *)
Inductive action : Type := CREATE | UPDATE | DELETE | CLOSE.

(** The two query texts the service sends. *)
Inductive query : Type := INFO_DB | DEFINE_SCHEMA.

(** What the service asks of the driver, in the order it asks. *)
Inductive call : Type :=
| CNew
| CConnect (url : jsstring)
| CSignin
| CUse
| CQuery (q : query)
| CClose
| CCreate (data : ChatMessage)
| CSelect
| CLive
| CKill (u : uuid).

(** The value [create] resolves with: one record or an array of records,
    depending on the driver version. *)
Inductive created : Type :=
| OneRecord (m : ChatMessage)
| RecordArray (l : list ChatMessage).

(** The value [select] resolves with. *)
Inductive selected : Type :=
| Records (l : list ChatMessage)
| NotAnArray.

Inductive create_reply : Type :=
| CreateRejects (e : exn)
| CreateStores (rid : jsstring) (pos : nat) (as_array : bool).

Inductive select_reply : Type :=
| SelectRejects (e : exn)
| SelectResolves
| SelectResolvesOther.

Inductive live_reply : Type :=
| LiveRejects (e : exn)
| LiveResolves (u : uuid).

(** What the error console received ([console.error], and the one
    [console.warn] of the schema set-up).  Informational [console.log] lines
    are not modelled. *)
Inductive console_entry : Type :=
| ConnectionFailed (url type errorMessage : jsstring)
| ErrorName (name : jsstring)
| ErrorStack
| AllAttemptsFailed
| DetailedErrors (errors : list jsstring)
| PossibleCauses
| SchemaWarning (errorMessage : jsstring)
| FailedToSendMessage (errorMessage : jsstring)
| FailedToGetMessages (errorMessage : jsstring)
| FailedToSubscribe (errorMessage : jsstring)
| FailedToUnsubscribe (errorMessage : jsstring)
| ConnectionError (errorMessage : jsstring)
| FailedToJoinChat (errorMessage : jsstring).

Section World.

(** The state of the application that live-query callbacks act on. *)
Variable S : Type.

(** The listener given to [db.live]. *)
Definition listener : Type := action -> option ChatMessage -> S -> S.

Record World : Type := mkWorld {
  table : list ChatMessage;           (* server: table [messages], in scan order *)
  live : list (uuid * listener);      (* live queries of the current handle *)
  orphaned : list (uuid * listener);  (* live queries of handles replaced unclosed *)
  calls : list call;                  (* driver calls made so far *)
  connected : bool;                   (* [SurrealDBService.connected] *)
  console : list console_entry;       (* error console *)
  app : S                             (* application state *)
}.

Definition set_table (t : list ChatMessage) (w : World) : World :=
  mkWorld t (live w) (orphaned w) (calls w) (connected w) (console w) (app w).
Definition set_live (l : list (uuid * listener)) (w : World) : World :=
  mkWorld (table w) l (orphaned w) (calls w) (connected w) (console w) (app w).
Definition set_orphaned (l : list (uuid * listener)) (w : World) : World :=
  mkWorld (table w) (live w) l (calls w) (connected w) (console w) (app w).
Definition set_calls (c : list call) (w : World) : World :=
  mkWorld (table w) (live w) (orphaned w) c (connected w) (console w) (app w).
Definition set_connected (b : bool) (w : World) : World :=
  mkWorld (table w) (live w) (orphaned w) (calls w) b (console w) (app w).
Definition set_console (c : list console_entry) (w : World) : World :=
  mkWorld (table w) (live w) (orphaned w) (calls w) (connected w) c (app w).
Definition set_app (s : S) (w : World) : World :=
  mkWorld (table w) (live w) (orphaned w) (calls w) (connected w) (console w) s.

(** ** Computations: state passing with exceptions *)

(** State changes made before a throw persist, as in JavaScript. *)
Definition M (A : Type) : Type := World -> result A * World.

Definition ret {A} (a : A) : M A := fun w => (Ok a, w).

Definition throw {A} (e : exn) : M A := fun w => (Throw e, w).

Definition bind {A B} (m : M A) (k : A -> M B) : M B :=
  fun w =>
    match m w with
    | (Ok a, w') => k a w'
    | (Throw e, w') => (Throw e, w')
    end.

(** [try { m } catch (error) { handler error }]. *)
Definition try_catch {A} (m : M A) (handler : exn -> M A) : M A :=
  fun w =>
    match m w with
    | (Ok a, w') => (Ok a, w')
    | (Throw e, w') => handler e w'
    end.

(** [try { m } finally { f }], for a finaliser that does not throw. *)
Definition try_finally {A} (m : M A) (f : World -> World) : M A :=
  fun w => let (r, w') := m w in (r, f w').

Definition modify (f : World -> World) : M unit := fun w => (Ok tt, f w).

Definition gets {A} (f : World -> A) : M A := fun w => (Ok (f w), w).

Definition console_error (e : console_entry) : M unit :=
  modify (fun w => set_console (console w ++ [e]) w).

(** ** Live queries *)

Definition uuid_eqb (a b : uuid) : bool := str_eqb a b.

Fixpoint registry_set (u : uuid) (f : listener) (r : list (uuid * listener))
  : list (uuid * listener) :=
  match r with
  | [] => [(u, f)]
  | (u', f') :: r' =>
      if uuid_eqb u u' then (u, f) :: r' else (u', f') :: registry_set u f r'
  end.

Definition registry_remove (u : uuid) (r : list (uuid * listener))
  : list (uuid * listener) :=
  filter (fun e => negb (uuid_eqb u (fst e))) r.

(** Deliver one notification to every listener registered under [u]. *)
Definition deliver (u : uuid) (a : action) (payload : option ChatMessage)
           (r : list (uuid * listener)) (s : S) : S :=
  fold_left (fun s e => if uuid_eqb u (fst e) then snd e a payload s else s) r s.

(** Deliver one notification to every listener of the registry. *)
Definition broadcast (a : action) (payload : option ChatMessage)
           (r : list (uuid * listener)) (s : S) : S :=
  fold_left (fun s e => snd e a payload s) r s.

(** The server sends the notification [(a, payload)] of live query [u]. *)
Definition notify (u : uuid) (a : action) (payload : option ChatMessage)
           (w : World) : World :=
  set_app (deliver u a payload (live w) (deliver u a payload (orphaned w) (app w))) w.

(** ** The server's table *)

Definition insert_at {A} (pos : nat) (x : A) (l : list A) : list A :=
  firstn pos l ++ x :: skipn pos l.

(** A record enters table [messages] at scan position [pos]; every live
    query on the table is notified with action [CREATE]. *)
Definition server_create (pos : nat) (m : ChatMessage) (w : World) : World :=
  let w1 := set_table (insert_at pos m (table w)) w in
  set_app (broadcast CREATE (Some m) (live w1)
             (broadcast CREATE (Some m) (orphaned w1) (app w1))) w1.

(** ** Driver calls *)

Definition called (c : call) : M unit :=
  modify (fun w => set_calls (calls w ++ [c]) w).

(** An awaited call that resolves with nothing, or rejects. *)
Definition settle (r : option exn) : M unit :=
  match r with
  | None => ret tt
  | Some e => throw e
  end.

(** [new Surreal()]: the previous handle is dropped without being closed. *)
Definition db_new : M unit :=
  bind (called CNew)
       (fun _ => modify (fun w => set_live [] (set_orphaned (orphaned w ++ live w) w))).

Definition db_connect (r : option exn) (url : jsstring) : M unit :=
  bind (called (CConnect url)) (fun _ => settle r).

Definition db_signin (r : option exn) : M unit :=
  bind (called CSignin) (fun _ => settle r).

Definition db_use (r : option exn) : M unit :=
  bind (called CUse) (fun _ => settle r).

Definition db_query (r : option exn) (q : query) : M unit :=
  bind (called (CQuery q)) (fun _ => settle r).

(** [close]: the connection goes, and its live queries with it. *)
Definition db_close (r : option exn) : M unit :=
  bind (called CClose)
       (fun _ => match r with
                 | None => modify (set_live [])
                 | Some e => throw e
                 end).

Definition db_create (r : create_reply) (data : ChatMessage) : M created :=
  bind (called (CCreate data))
       (fun _ => match r with
                 | CreateRejects e => throw e
                 | CreateStores rid pos as_array =>
                     let stored :=
                       mkChatMessage (Some rid) (username data) (message data)
                                     (timestamp data) in
                     bind (modify (server_create pos stored))
                          (fun _ => ret (if as_array then RecordArray [stored]
                                         else OneRecord stored))
                 end).

Definition db_select (r : select_reply) : M selected :=
  bind (called CSelect)
       (fun _ => match r with
                 | SelectRejects e => throw e
                 | SelectResolves => gets (fun w => Records (table w))
                 | SelectResolvesOther => ret NotAnArray
                 end).

Definition db_live (r : live_reply) (f : listener) : M uuid :=
  bind (called CLive)
       (fun _ => match r with
                 | LiveRejects e => throw e
                 | LiveResolves u =>
                     bind (modify (fun w => set_live (registry_set u f (live w)) w))
                          (fun _ => ret u)
                 end).

Definition db_kill (r : option exn) (u : uuid) : M unit :=
  bind (called (CKill u))
       (fun _ => match r with
                 | None => modify (fun w => set_live (registry_remove u (live w)) w)
                 | Some e => throw e
                 end).

End World.

Arguments ret {S A} a _.
Arguments throw {S A} e _.
Arguments modify {S} f _.
Arguments gets {S A} f _.
Arguments settle {S} r _.
Arguments db_new {S} _.
Arguments called {S} c _.
Arguments console_error {S} e _.

End Driver.
Import Driver.

Declare Scope js_scope.
Delimit Scope js_scope with js.
Notation "x <- m ;; k" := (bind m (fun x => k))
  (at level 61, m at next level, right associativity) : js_scope.
Notation "m ;; k" := (bind m (fun _ => k))
  (at level 61, right associativity) : js_scope.
Local Open Scope js_scope.

(* ================================================================== *)
(** * [class SurrealDBService] of [src/lib/surrealdb.ts] *)
(* ================================================================== *)
Module SurrealDBService.

Record config : Type := mkConfig { url : jsstring; type : jsstring }.

Definition connectionConfigs : list config :=
  [ mkConfig (lit "ws://localhost:8000/rpc") (lit "WebSocket");
    mkConfig (lit "http://localhost:8000/rpc") (lit "HTTP");
    mkConfig (lit "ws://127.0.0.1:8000/rpc") (lit "WebSocket");
    mkConfig (lit "http://127.0.0.1:8000/rpc") (lit "HTTP");
    mkConfig (lit "ws://localhost:8000") (lit "WebSocket-Basic");
    mkConfig (lit "http://localhost:8000") (lit "HTTP-Basic") ].

(** The awaited driver calls of one connection attempt. *)
Inductive stage : Type :=
| AtConnect | AtSignin | AtUse | AtInfo | AtSchema | AtClose.

(** The driver's replies during one attempt: [None] when the call of that
    stage resolves, [Some e] when it rejects with [e]. *)
Definition replies : Type := stage -> option exn.

(** The replies of every attempt, by position in [connectionConfigs]. *)
Definition oracle : Type := nat -> replies.

Definition all_failed_prefix : jsstring :=
  lit "All connection attempts failed. Server is running, but client connection failed. Check browser console for detailed errors. Last error: ".

(** [errors[errors.length - 1] || 'Unknown']. *)
Definition last_error (errors : list jsstring) : jsstring :=
  match nth_error errors (List.length errors - 1) with
  | Some e => if truthy e then e else lit "Unknown"
  | None => lit "Unknown"
  end.

(** The entry pushed on [errors]: [`${config.url} (${config.type}): ${errorMessage}`]. *)
Definition error_line (c : config) (errorMessage : jsstring) : jsstring :=
  (url c ++ lit " (" ++ type c ++ lit "): " ++ errorMessage)%list.

Section Service.

Variable St : Type.

Definition initializeSchema (r : option exn) : M St unit :=
  db_query r DEFINE_SCHEMA.

(** The body of the [try] block of one loop iteration. *)
Definition attempt (r : replies) (c : config) : M St unit :=
  db_new ;;
  db_connect (r AtConnect) (url c) ;;
  db_signin (r AtSignin) ;;
  db_use (r AtUse) ;;
  modify (set_connected true) ;;
  db_query (r AtInfo) INFO_DB ;;
  initializeSchema (r AtSchema).

(** The [catch] block of one loop iteration, up to [continue]. *)
Definition attempt_failed (r : replies) (c : config) (error : exn) : M St unit :=
  console_error (ConnectionFailed (url c) (type c) (errorMessage error)) ;;
  match error with
  | JsError name _ => console_error (ErrorName name) ;; console_error ErrorStack
  | JsValue _ => ret tt
  end ;;
  try_catch (db_close (r AtClose)) (fun closeError => ret tt).

(** The code after the loop. *)
Definition all_attempts_failed (errors : list jsstring) : M St unit :=
  console_error AllAttemptsFailed ;;
  console_error (DetailedErrors errors) ;;
  console_error PossibleCauses ;;
  throw (new_Error (all_failed_prefix ++ last_error errors)%list).

(** The [for (const config of connectionConfigs)] loop from position [i],
    with the [errors] collected so far. *)
Fixpoint connect_from (o : oracle) (i : nat) (configs : list config)
         (errors : list jsstring) : M St unit :=
  match configs with
  | [] => all_attempts_failed errors
  | c :: rest =>
      fun w =>
        match attempt (o i) c w with
        | (Ok _, w') => (Ok tt, w')
        | (Throw error, w') =>
            (attempt_failed (o i) c error ;;
             connect_from o (S i) rest
               (errors ++ [error_line c (errorMessage error)])) w'
        end
  end.

Definition connect (o : oracle) : M St unit :=
  connect_from o 0 connectionConfigs [].

Definition not_connected : exn := new_Error (lit "Database not connected").

Definition sendMessage (r : create_reply) (now : Z) (username message : jsstring)
  : M St (list ChatMessage) :=
  c <- gets (@connected St) ;;
  if negb c then throw not_connected
  else
    try_catch
      (result <- db_create r (mkChatMessage None username message now) ;;
       ret (match result with
            | RecordArray l => l
            | OneRecord m => [m]
            end))
      (fun error =>
         console_error (FailedToSendMessage (errorMessage error)) ;;
         throw error).

(** The default value of the parameter of [getMessages]. *)
Definition default_limit : Z := 50.

Definition getMessages (r : select_reply) (limit : Z) : M St (list ChatMessage) :=
  c <- gets (@connected St) ;;
  if negb c then throw not_connected
  else
    try_catch
      (result <- db_select r ;;
       match result with
       | Records messages => ret (slice (- limit) (sort_by_timestamp messages))
       | NotAnArray => ret []
       end)
      (fun error =>
         console_error (FailedToGetMessages (errorMessage error)) ;;
         ret []).

(** The listener [subscribeToMessages] hands to [db.live]. *)
Definition live_listener (callback : ChatMessage -> St -> St) : listener St :=
  fun action result =>
    match action, result with
    | CREATE, Some m => callback m
    | _, _ => fun s => s
    end.

Definition subscribeToMessages (r : live_reply) (callback : ChatMessage -> St -> St)
  : M St uuid :=
  c <- gets (@connected St) ;;
  if negb c then throw not_connected
  else
    try_catch
      (db_live r (live_listener callback))
      (fun error =>
         console_error (FailedToSubscribe (errorMessage error)) ;;
         throw error).

Definition unsubscribe (r : option exn) (queryUuid : uuid) : M St unit :=
  try_catch
    (db_kill r queryUuid)
    (fun error => console_error (FailedToUnsubscribe (errorMessage error))).

Definition disconnect (r : option exn) : M St unit :=
  c <- gets (@connected St) ;;
  if c then db_close r ;; modify (set_connected false)
  else ret tt.

Definition isConnected : M St bool := gets (@connected St).

End Service.

(** ** The methods on either side of their [await] *)

(** [sendMessage], [getMessages], [subscribeToMessages], [unsubscribe] and
    [disconnect] each run up to their one driver call and go on when the
    driver has answered; other things can happen in between.  The definitions below are the two sides
    of that [await]: the method up to the call, and the method from the
    answer on.  Run one after the other they are the method itself. *)
Section Awaited.

Variable St : Type.

(** Up to the call: the check of [this.connected], then the call. *)
Definition call_when_connected (c : call) : M St unit :=
  k <- gets (@connected St) ;;
  if negb k then throw not_connected else called c.

(** What the driver's answer to [create] does and gives. *)
Definition create_answered (r : create_reply) (data : ChatMessage) : M St created :=
  match r with
  | CreateRejects e => throw e
  | CreateStores rid pos as_array =>
      let stored :=
        mkChatMessage (Some rid) (username data) (message data) (timestamp data) in
      modify (server_create pos stored) ;;
      ret (if as_array then RecordArray [stored] else OneRecord stored)
  end.

(** What the driver's answer to [select] gives. *)
Definition select_answered (r : select_reply) : M St selected :=
  match r with
  | SelectRejects e => throw e
  | SelectResolves => gets (fun w => Records (table w))
  | SelectResolvesOther => ret NotAnArray
  end.

(** What the driver's answer to [live] does and gives. *)
Definition live_answered (r : live_reply) (f : listener St) : M St uuid :=
  match r with
  | LiveRejects e => throw e
  | LiveResolves u =>
      modify (fun w => set_live (registry_set u f (live w)) w) ;; ret u
  end.

Definition sendMessage_call (now : Z) (username message : jsstring) : M St unit :=
  call_when_connected (CCreate (mkChatMessage None username message now)).

Definition sendMessage_resume (r : create_reply) (now : Z)
           (username message : jsstring) : M St (list ChatMessage) :=
  try_catch
    (result <- create_answered r (mkChatMessage None username message now) ;;
     ret (match result with
          | RecordArray l => l
          | OneRecord m => [m]
          end))
    (fun error =>
       console_error (FailedToSendMessage (errorMessage error)) ;;
       throw error).

Definition getMessages_call : M St unit := call_when_connected CSelect.

Definition getMessages_resume (r : select_reply) (limit : Z)
  : M St (list ChatMessage) :=
  try_catch
    (result <- select_answered r ;;
     match result with
     | Records messages => ret (slice (- limit) (sort_by_timestamp messages))
     | NotAnArray => ret []
     end)
    (fun error =>
       console_error (FailedToGetMessages (errorMessage error)) ;;
       ret []).

Definition subscribeToMessages_call : M St unit := call_when_connected CLive.

Definition subscribeToMessages_resume (r : live_reply)
           (callback : ChatMessage -> St -> St) : M St uuid :=
  try_catch
    (live_answered r (live_listener callback))
    (fun error =>
       console_error (FailedToSubscribe (errorMessage error)) ;;
       throw error).

(** [unsubscribe] makes its call inside the [try], whatever the flag. *)
Definition unsubscribe_call (queryUuid : uuid) : M St unit :=
  called (CKill queryUuid).

(** What the driver's answer to [kill] does. *)
Definition kill_answered (r : option exn) (u : uuid) : M St unit :=
  match r with
  | None => modify (fun w => set_live (registry_remove u (live w)) w)
  | Some e => throw e
  end.

Definition unsubscribe_resume (r : option exn) (queryUuid : uuid) : M St unit :=
  try_catch
    (kill_answered r queryUuid)
    (fun error => console_error (FailedToUnsubscribe (errorMessage error))).

(** [disconnect] up to its [close]; it tells whether the call was made. *)
Definition disconnect_call : M St bool :=
  c <- gets (@connected St) ;;
  if c then called CClose ;; ret true else ret false.

(** What the driver's answer to [close] does. *)
Definition close_answered (r : option exn) : M St unit :=
  match r with
  | None => modify (set_live [])
  | Some e => throw e
  end.

Definition disconnect_resume (r : option exn) : M St unit :=
  close_answered r ;; modify (set_connected false).

End Awaited.

(** ** The other copy of the file ([src/unnamed/part_001]) *)

(** It differs in [connect], which sends no [INFO DB] test query, and in
    [initializeSchema], which catches every error. *)
Module Part001.
Section Service.

Variable St : Type.

Definition initializeSchema (r : option exn) : M St unit :=
  try_catch
    (db_query r DEFINE_SCHEMA)
    (fun error =>
       let errorMessage := errorMessage error in
       if includes errorMessage (lit "already exists")
          || includes errorMessage (lit "Table already exists")
       then ret tt
       else console_error (SchemaWarning errorMessage)).

Definition attempt (r : replies) (c : config) : M St unit :=
  db_new ;;
  db_connect (r AtConnect) (url c) ;;
  db_signin (r AtSignin) ;;
  db_use (r AtUse) ;;
  modify (set_connected true) ;;
  initializeSchema (r AtSchema).

Fixpoint connect_from (o : oracle) (i : nat) (configs : list config)
         (errors : list jsstring) : M St unit :=
  match configs with
  | [] => @all_attempts_failed St errors
  | c :: rest =>
      fun w =>
        match attempt (o i) c w with
        | (Ok _, w') => (Ok tt, w')
        | (Throw error, w') =>
            (@attempt_failed St (o i) c error ;;
             connect_from o (S i) rest
               (errors ++ [error_line c (errorMessage error)])) w'
        end
  end.

Definition connect (o : oracle) : M St unit :=
  connect_from o 0 connectionConfigs [].

End Service.
End Part001.

End SurrealDBService.

(* ================================================================== *)
(** * [function Chat()] of [src/components/Chat.tsx] *)
(* ================================================================== *)
Module Chat.

Import SurrealDBService.

(** The component's [useState] cells and its [subscriptionRef]. *)
Record State : Type := mkState {
  messages : list ChatMessage;
  newMessage : jsstring;
  username : jsstring;
  isConnected : bool;
  isJoined : bool;
  loading : bool;
  subscriptionRef : option jsstring
}.

(** The initial values of the hooks. *)
Definition initial : State :=
  mkState [] [] [] false false false None.

Definition setMessages (f : list ChatMessage -> list ChatMessage) (s : State) : State :=
  mkState (f (messages s)) (newMessage s) (username s) (isConnected s)
          (isJoined s) (loading s) (subscriptionRef s).
Definition setNewMessage (v : jsstring) (s : State) : State :=
  mkState (messages s) v (username s) (isConnected s)
          (isJoined s) (loading s) (subscriptionRef s).
Definition setUsername (v : jsstring) (s : State) : State :=
  mkState (messages s) (newMessage s) v (isConnected s)
          (isJoined s) (loading s) (subscriptionRef s).
Definition setIsConnected (v : bool) (s : State) : State :=
  mkState (messages s) (newMessage s) (username s) v
          (isJoined s) (loading s) (subscriptionRef s).
Definition setIsJoined (v : bool) (s : State) : State :=
  mkState (messages s) (newMessage s) (username s) (isConnected s)
          v (loading s) (subscriptionRef s).
Definition setLoading (v : bool) (s : State) : State :=
  mkState (messages s) (newMessage s) (username s) (isConnected s)
          (isJoined s) v (subscriptionRef s).
Definition setSubscriptionRef (v : option jsstring) (s : State) : State :=
  mkState (messages s) (newMessage s) (username s) (isConnected s)
          (isJoined s) (loading s) v.

(** A state update made by the component. *)
Definition update (f : State -> State) : M State unit :=
  modify (fun w => set_app (f (app w)) w).

(** The callback of [joinChat]: [setMessages(prev => [...prev, message])]. *)
Definition onMessage (message : ChatMessage) : State -> State :=
  setMessages (fun prev => prev ++ [message]).

(** [initConnection], run by the mount effect. *)
Definition initConnection (o : oracle) (sel : select_reply) : M State unit :=
  try_finally
    (try_catch
       (update (setLoading true) ;;
        connect o ;;
        update (setIsConnected true) ;;
        existingMessages <- getMessages sel default_limit ;;
        update (setMessages (fun _ => existingMessages)))
       (fun error =>
          console_error (ConnectionError (errorMessage error)) ;;
          update (setIsConnected false)))
    (fun w => set_app (setLoading false (app w)) w).




Definition joinChat (r : live_reply) : M State unit :=
  s <- gets (@app State) ;;
  if negb (truthy (trim (username s))) || negb (isConnected s) then ret tt
  else
    try_catch
      (subscription <- subscribeToMessages r onMessage ;;
       update (setSubscriptionRef (Some subscription)) ;;
       update (setIsJoined true))
      (fun error => console_error (FailedToJoinChat (errorMessage error))).

Definition sendMessage (r : create_reply) (now : Z) : M State unit :=
  s <- gets (@app State) ;;
  if negb (truthy (trim (newMessage s))) || negb (isJoined s)
     || negb (isConnected s)
  then ret tt
  else
    try_catch
      (SurrealDBService.sendMessage r now (username s) (trim (newMessage s)) ;;
       update (setNewMessage []))
      (fun error => console_error (FailedToSendMessage (errorMessage error))).

(** ** The component in its environment *)

(** What the component renders, by the order of its [return] statements. *)
Inductive screen : Type := Spinner | ConnectionErrorScreen | JoinForm | ChatScreen.

Definition render (s : State) : screen :=
  if loading s then Spinner
  else if negb (isConnected s) then ConnectionErrorScreen
  else if negb (isJoined s) then JoinForm
  else ChatScreen.

Definition World : Type := Driver.World State.

Definition exec (m : M State unit) (w : World) : World := snd (m w).

(** A page load: the server holds [t], nothing is connected yet. *)
Definition fresh (t : list ChatMessage) : World :=
  mkWorld t [] [] [] false [] initial.

(** ** The handlers on either side of their [await] *)

(** A driver call the component is waiting for, with what the code after
    the [await] has captured. *)
Inductive awaited : Type :=
| AwaitSelect
| AwaitLive
| AwaitCreate (now : Z) (author body : jsstring).

(** [initConnection] up to the [select] of [getMessages].  The attempts of
    [connect] are run in one go: while they run the spinner is on screen, no
    live query exists on a page just loaded, and [connect] does not read the
    table, so nothing that happens in between could tell. *)
Definition initConnection_begin (o : oracle) : M State (option awaited) :=
  update (setLoading true) ;;
  waiting <- try_catch
               (connect o ;;
                update (setIsConnected true) ;;
                @getMessages_call State ;;
                ret (Some AwaitSelect))
               (fun error =>
                  console_error (ConnectionError (errorMessage error)) ;;
                  update (setIsConnected false) ;;
                  ret None) ;;
  match waiting with
  | Some _ => ret waiting
  | None => update (setLoading false) ;; ret None
  end.

(** [initConnection] from the answer to [select] on. *)
Definition initConnection_resume (sel : select_reply) : M State unit :=
  try_finally
    (try_catch
       (existingMessages <- @getMessages_resume State sel default_limit ;;
        update (setMessages (fun _ => existingMessages)))
       (fun error =>
          console_error (ConnectionError (errorMessage error)) ;;
          update (setIsConnected false)))
    (fun w => set_app (setLoading false (app w)) w).

(** [joinChat] up to the [live] of [subscribeToMessages]. *)
Definition joinChat_begin : M State (option awaited) :=
  s <- gets (@app State) ;;
  if negb (truthy (trim (username s))) || negb (isConnected s) then ret None
  else
    try_catch
      (@subscribeToMessages_call State ;; ret (Some AwaitLive))
      (fun error =>
         console_error (FailedToJoinChat (errorMessage error)) ;; ret None).

(** [joinChat] from the answer to [live] on. *)
Definition joinChat_resume (r : live_reply) : M State unit :=
  try_catch
    (subscription <- subscribeToMessages_resume r onMessage ;;
     update (setSubscriptionRef (Some subscription)) ;;
     update (setIsJoined true))
    (fun error => console_error (FailedToJoinChat (errorMessage error))).

(** [sendMessage] up to the [create] of the service's [sendMessage]. *)
Definition sendMessage_begin (now : Z) : M State (option awaited) :=
  s <- gets (@app State) ;;
  if negb (truthy (trim (newMessage s))) || negb (isJoined s)
     || negb (isConnected s)
  then ret None
  else
    try_catch
      (@sendMessage_call State now (username s) (trim (newMessage s)) ;;
       ret (Some (AwaitCreate now (username s) (trim (newMessage s)))))
      (fun error =>
         console_error (FailedToSendMessage (errorMessage error)) ;; ret None).

(** [sendMessage] from the answer to [create] on. *)
Definition sendMessage_resume (r : create_reply) (now : Z)
           (author body : jsstring) : M State unit :=
  try_catch
    (SurrealDBService.sendMessage_resume r now author body ;;
     update (setNewMessage []))
    (fun error => console_error (FailedToSendMessage (errorMessage error))).

(** ** The page *)

(** A loaded page: the world, whether the mount effect has run (its
    dependency list is empty, so it runs once for a mounted component), and
    the driver calls the component is waiting for, oldest first. *)
Record Page : Type := mkPage {
  world : World;
  mounted : bool;
  awaiting : list awaited
}.

Definition load (t : list ChatMessage) : Page := mkPage (fresh t) false [].

(** What can happen on the page: the mount effect; input in the form on
    screen and the submission of that form; the answer of the driver to a
    call the component is waiting for (any of them, in any order); and, from
    outside, a record created by another client or a live notification sent
    by the server.  As everywhere in the driver model, what a call does on
    the server (the table read, the live query registered, the record stored
    and its notifications sent) takes place when its answer arrives. *)
Inductive event : Type :=
| Mount (o : oracle)
| HistorySettles (i : nat) (sel : select_reply)
| TypeUsername (v : jsstring)
| SubmitJoin
| LiveSettles (i : nat) (r : live_reply)
| TypeMessage (v : jsstring)
| SubmitSend (now : Z)
| CreateSettles (i : nat) (r : create_reply)
| RemoteCreate (pos : nat) (m : ChatMessage)
| Notification (u : uuid) (a : action) (payload : option ChatMessage).

(** A handler runs up to its driver call, which the component then waits for. *)
Definition begin (m : M State (option awaited)) (p : Page) : Page :=
  let (r, w) := m (world p) in
  mkPage w (mounted p)
    (awaiting p ++ match r with Ok (Some a) => [a] | _ => [] end).

(** The call at position [i] is answered and its handler goes on. *)
Definition resume (i : nat) (m : M State unit) (p : Page) : Page :=
  mkPage (exec m (world p)) (mounted p)
    (firstn i (awaiting p) ++ skipn (S i) (awaiting p)).

Definition on_world (f : World -> World) (p : Page) : Page :=
  mkPage (f (world p)) (mounted p) (awaiting p).

Definition step (e : event) (p : Page) : Page :=
  match e with
  | Mount o =>
      if mounted p then p
      else begin (initConnection_begin o)
             (mkPage (world p) true (awaiting p))
  | HistorySettles i sel =>
      match nth_error (awaiting p) i with
      | Some AwaitSelect => resume i (initConnection_resume sel) p
      | _ => p
      end
  | TypeUsername v =>
      match render (app (world p)) with
      | JoinForm => on_world (exec (update (setUsername v))) p
      | _ => p
      end
  | SubmitJoin =>
      match render (app (world p)) with
      | JoinForm => begin joinChat_begin p
      | _ => p
      end
  | LiveSettles i r =>
      match nth_error (awaiting p) i with
      | Some AwaitLive => resume i (joinChat_resume r) p
      | _ => p
      end
  | TypeMessage v =>
      match render (app (world p)) with
      | ChatScreen => on_world (exec (update (setNewMessage v))) p
      | _ => p
      end
  | SubmitSend now =>
      match render (app (world p)) with
      | ChatScreen => begin (sendMessage_begin now) p
      | _ => p
      end
  | CreateSettles i r =>
      match nth_error (awaiting p) i with
      | Some (AwaitCreate now author body) =>
          resume i (sendMessage_resume r now author body) p
      | _ => p
      end
  | RemoteCreate pos m => on_world (server_create pos m) p
  | Notification u a payload => on_world (notify u a payload) p
  end.

Definition run (es : list event) (p : Page) : Page :=
  fold_left (fun p e => step e p) es p.

End Chat.

(* ================================================================== *)
(** * Notions used by the statements *)
(* ================================================================== *)

(** Oldest first. *)
Definition by_timestamp (a b : ChatMessage) : Prop := timestamp a <= timestamp b.

(** The arguments the consumer's callback is invoked with, in order, when
    the listener of [subscribeToMessages] receives [(action, result)]. *)
Definition invocations (a : action) (payload : option ChatMessage)
  : list ChatMessage :=
  SurrealDBService.live_listener (fun m seen => seen ++ [m]) a payload [].

Section ConnectNotions.
Import SurrealDBService.

(** The error an attempt fails with: the rejection of the first call, in
    program order, that rejects; [None] when the attempt succeeds. *)
Definition cause (r : replies) : option exn :=
  match r AtConnect with
  | Some e => Some e
  | None =>
  match r AtSignin with
  | Some e => Some e
  | None =>
  match r AtUse with
  | Some e => Some e
  | None =>
  match r AtInfo with
  | Some e => Some e
  | None => r AtSchema
  end end end end.

(** The driver calls of an attempt that runs to the end. *)
Definition full_attempt (c : config) : list call :=
  [CNew; CConnect (url c); CSignin; CUse; CQuery INFO_DB; CQuery DEFINE_SCHEMA].

(** The driver calls of one attempt, up to the call that rejects. *)
Definition attempt_calls (r : replies) (c : config) : list call :=
  CNew :: CConnect (url c) ::
  match r AtConnect with
  | Some _ => []
  | None => CSignin ::
  match r AtSignin with
  | Some _ => []
  | None => CUse ::
  match r AtUse with
  | Some _ => []
  | None => CQuery INFO_DB ::
  match r AtInfo with
  | Some _ => []
  | None => [CQuery DEFINE_SCHEMA]
  end end end end.

(** The endpoints a sequence of driver calls tried to connect to. *)
Definition urls_tried (cs : list call) : list jsstring :=
  flat_map (fun c => match c with CConnect u => [u] | _ => [] end) cs.

(** The calls of the failed attempts at positions [i, i + n), each followed
    by the [close] of its handle. *)
Fixpoint failed_attempts (o : oracle) (i : nat) (configs : list config)
  : list call :=
  match configs with
  | [] => []
  | c :: rest =>
      (attempt_calls (o i) c ++ [CClose] ++ failed_attempts o (S i) rest)%list
  end.

(** The lines pushed on [errors] by the failed attempts at positions from [i]. *)
Fixpoint error_lines (causes : nat -> exn) (i : nat) (configs : list config)
  : list jsstring :=
  match configs with
  | [] => []
  | c :: rest =>
      error_line c (errorMessage (causes i)) :: error_lines causes (S i) rest
  end.

End ConnectNotions.

(** ** The read operation as the specification words it *)

(** [read(sinceSeq, limit)]: the messages with sequence number greater than
    [sinceSeq], oldest first, capped at [limit].  Sequence numbers run
    from 1 in append order, so in a log kept in append order these are the
    first [limit] entries after position [sinceSeq]. *)
Definition spec_read (sinceSeq limit : nat) (log : list ChatMessage)
  : list ChatMessage :=
  firstn limit (skipn sinceSeq log).

(* ================================================================== *)
(** * Concrete inputs *)
(* ================================================================== *)
Module Examples.

Import SurrealDBService.

Definition alice_hi : ChatMessage :=
  mkChatMessage (Some (lit "messages:a1")) (lit "alice") (lit "hi") 1000.
Definition bob_yo : ChatMessage :=
  mkChatMessage (Some (lit "messages:b2")) (lit "bob") (lit "yo") 2000.
Definition carol_hey : ChatMessage :=
  mkChatMessage (Some (lit "messages:c3")) (lit "carol") (lit "hey") 3000.

Definition q1 : uuid := lit "0191f0c2-live-query-1".

Definition boom : exn := JsError (lit "Error") (lit "boom").

(** Every driver call resolves. *)
Definition all_resolve : oracle := fun _ _ => None.

(** A connected service over a server holding [t], with no application. *)
Definition service (t : list ChatMessage) : Driver.World unit :=
  mkWorld t [] [] [] true [] tt.

(** The same, not connected. *)
Definition service_down (t : list ChatMessage) : Driver.World unit :=
  mkWorld t [] [] [] false [] tt.

(** The component on its join form, connected, with [name] typed in. *)
Definition at_join_form (name : jsstring) : Chat.World :=
  mkWorld [] [] [] [] true []
    (Chat.mkState [] [] name true false false None).

(** The component on its join form with [body] in the message cell. *)
Definition before_join (name body : jsstring) : Chat.World :=
  mkWorld [] [] [] [] true []
    (Chat.mkState [] body name true false false None).

(** The component joined as [name] under live query [q1], with [body] typed. *)
Definition joined (name body : jsstring) : Chat.World :=
  mkWorld [] [(q1, live_listener Chat.onMessage)] [] [] true []
    (Chat.mkState [] body name true true false (Some q1)).

End Examples.

Module ConnectExamples.

Import SurrealDBService.

(** Every attempt is refused at [db.connect], attempt [i] with message
    [msgs i]. *)
Definition refused (msgs : nat -> jsstring) : oracle :=
  fun i st =>
    match st with
    | AtConnect => Some (JsError (lit "Error") (msgs i))
    | _ => None
    end.

Definition refused_then_timeout : oracle :=
  refused (fun i => if Nat.eqb i 5 then lit "timeout" else lit "connection refused").

Definition blocked_then_timeout : oracle :=
  refused (fun i => if Nat.eqb i 5 then lit "timeout" else lit "blocked by CORS").

(** The first two endpoints fail (at connect, at signin), the third works. *)
Definition third_works : oracle :=
  fun i st =>
    match i, st with
    | 0%nat, AtConnect => Some (JsError (lit "Error") (lit "connection refused"))
    | 1%nat, AtSignin => Some (JsValue (lit "auth failed"))
    | _, _ => None
    end.

End ConnectExamples.

(** ** Traces of the page *)

(** Another client creates record [snd p] at scan position [fst p]. *)
Definition remote (p : nat * ChatMessage) : Chat.event :=
  Chat.RemoteCreate (fst p) (snd p).

(** The table after the records [ps] entered it, one after the other. *)
Definition inserted (ps : list (nat * ChatMessage)) (t : list ChatMessage)
  : list ChatMessage :=
  fold_left (fun t p => insert_at (fst p) (snd p) t) ps t.

(** A record created while the component is joined: by another client, or
    by the user, who types [body] and submits it, the database accepting the
    create before anything else happens. *)
Inductive creation : Type :=
| ByOther (pos : nat) (m : ChatMessage)
| ByMe (body rid : jsstring) (pos : nat) (as_array : bool) (now : Z).

Definition events_of (c : creation) : list Chat.event :=
  match c with
  | ByOther pos m => [Chat.RemoteCreate pos m]
  | ByMe body rid pos as_array now =>
      [Chat.TypeMessage body; Chat.SubmitSend now;
       Chat.CreateSettles 0 (CreateStores rid pos as_array)]
  end.

(** The record a creation puts in the table, with its scan position; a
    submission of a blank body creates none. *)
Definition placed (name : jsstring) (c : creation) : list (nat * ChatMessage) :=
  match c with
  | ByOther pos m => [(pos, m)]
  | ByMe body rid pos _ now =>
      if truthy (trim body)
      then [(pos, mkChatMessage (Some rid) name (trim body) now)]
      else []
  end.

(** A session in which the join form is submitted once: the page loads and
    connects and reads the history; the user types a name while other clients
    create the records [pre]; the user submits the join form; other clients
    create the records [during] while the live query is awaited; the driver
    answers with live query [u]; and then the records of [post] are
    created. *)
Definition session (o : SurrealDBService.oracle) (name : jsstring)
           (pre during : list (nat * ChatMessage)) (u : uuid)
           (post : list creation) : list Chat.event :=
  (Chat.Mount o :: Chat.HistorySettles 0 SelectResolves
     :: Chat.TypeUsername name :: map remote pre
     ++ Chat.SubmitJoin :: map remote during
     ++ Chat.LiveSettles 0 (LiveResolves u) :: flat_map events_of post)%list.

(** The number of live queries through which the component is told of a
    created record. *)
Definition subscriptions (w : Chat.World) : nat :=
  List.length (orphaned w) + List.length (live w).

(** The number of live queries registered under uuid [u]. *)
Definition subscriptions_under (u : uuid) (w : Chat.World) : nat :=
  List.length (filter (fun e => uuid_eqb u (fst e)) (orphaned w))
  + List.length (filter (fun e => uuid_eqb u (fst e)) (live w)).

(* ================================================================== *)
(** * Notions used by the further statements *)
(* ================================================================== *)

(** A string without white space at either end. *)
Definition trimmed (s : jsstring) : Prop :=
  match s with
  | [] => True
  | c :: _ => is_white_space c = false /\ is_white_space (last s c) = false
  end.

(** The identifiers under which a registry holds listeners. *)
Definition registered {St : Type} (r : list (uuid * listener St)) : list uuid :=
  map fst r.

(** The listener is the one the component subscribes with. *)
Definition ours (e : uuid * listener Chat.State) : Prop :=
  snd e = SurrealDBService.live_listener Chat.onMessage.

(** The component's state apart from the displayed messages and the
    message being typed. *)
Definition identity_of (s : Chat.State)
  : jsstring * bool * bool * bool * option jsstring :=
  (Chat.username s, Chat.isConnected s, Chat.isJoined s, Chat.loading s,
   Chat.subscriptionRef s).

Section FurtherConnectNotions.
Import SurrealDBService.

(** An attempt gets as far as raising [this.connected]: connect, signin and
    use all resolve. *)
Definition raises_flag (r : replies) : bool :=
  match r AtConnect, r AtSignin, r AtUse with
  | None, None, None => true
  | _, _, _ => false
  end.

(** The replies agree on every call but [close]. *)
Definition same_but_close (o o' : oracle) : Prop :=
  forall i st, st <> AtClose -> o i st = o' i st.

(** In the other copy of the file, the error an attempt fails with: only
    connect, signin and use can fail it. *)
Definition cause001 (r : replies) : option exn :=
  match r AtConnect with
  | Some e => Some e
  | None =>
  match r AtSignin with
  | Some e => Some e
  | None => r AtUse
  end end.

(** The driver calls of one attempt of the other copy, up to the call that
    rejects. *)
Definition attempt_calls001 (r : replies) (c : config) : list call :=
  CNew :: CConnect (url c) ::
  match r AtConnect with
  | Some _ => []
  | None => CSignin ::
  match r AtSignin with
  | Some _ => []
  | None => CUse ::
  match r AtUse with
  | Some _ => []
  | None => [CQuery DEFINE_SCHEMA]
  end end end.

Fixpoint failed_attempts001 (o : oracle) (i : nat) (configs : list config)
  : list call :=
  match configs with
  | [] => []
  | c :: rest =>
      (attempt_calls001 (o i) c ++ [CClose] ++ failed_attempts001 o (S i) rest)%list
  end.

End FurtherConnectNotions.

Module FurtherExamples.

Import SurrealDBService.

(** A callback that records what it is called with. *)
Definition record_message (m : ChatMessage) (seen : list ChatMessage)
  : list ChatMessage := (seen ++ [m])%list.

(** A connected service over a server holding [t], whose application state
    is the list of messages its callback has seen. *)
Definition recording_service (t : list ChatMessage)
  : Driver.World (list ChatMessage) :=
  mkWorld t [] [] [] true [] [].

(** Endpoint 0 gets past [use] and fails at the schema; the others are
    refused at [connect]. *)
Definition schema_fails_then_refused : oracle :=
  fun i st =>
    match i, st with
    | 0%nat, AtSchema => Some Examples.boom
    | 0%nat, _ => None
    | _, AtConnect => Some Examples.boom
    | _, _ => None
    end.

(** Endpoint 0 is refused; endpoint 1 connects, and its schema query is
    answered with an error. *)
Definition second_works_schema_exists : oracle :=
  fun i st =>
    match i, st with
    | 0%nat, AtConnect => Some Examples.boom
    | _, AtSchema => Some (JsValue (lit "The table 'messages' already exists"))
    | _, _ => None
    end.

(** [third_works], with every [close] rejected as well. *)
Definition third_works_close_fails : oracle :=
  fun i st =>
    match st with
    | AtClose => Some Examples.boom
    | _ => ConnectExamples.third_works i st
    end.

End FurtherExamples.

(** The history the mount effect displays, by the answer to its [select]
    and the table at that time. *)
Definition history_read (sel : select_reply) (t : list ChatMessage)
  : list ChatMessage :=
  match sel with
  | SelectResolves => slice (- 50) (sort_by_timestamp t)
  | _ => []
  end.

(** What holds of every state of the page: the live queries registered are
    the component's own, all on the connection the mount effect opened; the
    component is joined exactly when it holds a subscription handle, and
    while it is not joined no live query is registered; before the mount
    effect has run the component is neither joined nor connected and waits
    for nothing; the history is awaited only under the spinner, and under
    the spinner nobody has joined and nothing else is awaited. *)
Definition well_formed (p : Chat.Page) : Prop :=
  let w := Chat.world p in
  Forall ours (live w)
  /\ orphaned w = []
  /\ (Chat.isJoined (app w) = true <-> Chat.subscriptionRef (app w) <> None)
  /\ (Chat.isJoined (app w) = false -> live w = [])
  /\ (Chat.mounted p = false ->
      Chat.isJoined (app w) = false /\ Chat.isConnected (app w) = false
      /\ Chat.awaiting p = [])
  /\ (In Chat.AwaitSelect (Chat.awaiting p) -> Chat.loading (app w) = true)
  /\ (Chat.loading (app w) = true ->
      Chat.isJoined (app w) = false /\ Chat.awaiting p = [Chat.AwaitSelect]).
(* ================================================================== *)
(** * Facts about the built-ins *)
(* ================================================================== *)

Lemma trim_empty : trim [] = [].
Proof. reflexivity. Qed.

Lemma truthy_false_iff (s : jsstring) : truthy s = false <-> s = [].
Proof. destruct s; simpl; split; congruence. Qed.

Lemma slice_neg_length {A : Type} (limit : Z) (l : list A) :
  1 <= limit ->
  List.length (slice (- limit) l) = Nat.min (Z.to_nat limit) (List.length l).
Proof.
  intros Hl. unfold slice.
  assert (E : (- limit <? 0) = true) by (apply Z.ltb_lt; lia).
  rewrite E, length_skipn. lia.
Qed.

Lemma slice_neg_suffix {A : Type} (limit : Z) (l : list A) :
  exists dropped, l = (dropped ++ slice (- limit) l)%list.
Proof.
  unfold slice.
  match goal with |- context [skipn ?k l] => exists (firstn k l) end.
  symmetry. apply firstn_skipn.
Qed.

Lemma slice_neg_all {A : Type} (limit : Z) (l : list A) :
  Z.of_nat (List.length l) <= limit -> slice (- limit) l = l.
Proof.
  intros Hl. unfold slice.
  destruct (- limit <? 0) eqn:E.
  - replace (Z.to_nat (Z.max (Z.of_nat (List.length l) + - limit) 0)) with 0%nat by lia.
    reflexivity.
  - apply Z.ltb_ge in E.
    replace (Z.to_nat (Z.min (- limit) (Z.of_nat (List.length l)))) with 0%nat by lia.
    reflexivity.
Qed.

(** ** The sort *)


Lemma insert_by_timestamp_perm (m : ChatMessage) (l : list ChatMessage) :
  Permutation (m :: l) (insert_by_timestamp m l).
Proof.
  induction l as [|x r IH]; simpl.
  - apply Permutation_refl.
  - destruct (timestamp m <=? timestamp x).
    + apply Permutation_refl.
    + eapply perm_trans; [apply perm_swap|]. now apply perm_skip.
Qed.

Lemma sort_by_timestamp_perm (l : list ChatMessage) :
  Permutation l (sort_by_timestamp l).
Proof.
  induction l as [|m r IH]; simpl.
  - constructor.
  - eapply perm_trans; [apply perm_skip, IH | apply insert_by_timestamp_perm].
Qed.

Lemma sort_by_timestamp_length (l : list ChatMessage) :
  List.length (sort_by_timestamp l) = List.length l.
Proof. symmetry. apply Permutation_length, sort_by_timestamp_perm. Qed.

Lemma insert_by_timestamp_sorted (m : ChatMessage) (l : list ChatMessage) :
  StronglySorted by_timestamp l ->
  StronglySorted by_timestamp (insert_by_timestamp m l).
Proof.
  induction 1 as [|x r Hr IH Hx]; simpl.
  - repeat constructor.
  - destruct (timestamp m <=? timestamp x) eqn:E.
    + apply Z.leb_le in E. constructor.
      * now constructor.
      * constructor; [exact E|].
        eapply Forall_impl; [|exact Hx].
        unfold by_timestamp. intros; lia.
    + apply Z.leb_gt in E. constructor; [exact IH|].
      eapply Permutation_Forall; [apply insert_by_timestamp_perm|].
      constructor; [unfold by_timestamp; lia | exact Hx].
Qed.

Lemma sort_by_timestamp_sorted (l : list ChatMessage) :
  StronglySorted by_timestamp (sort_by_timestamp l).
Proof.
  induction l as [|m r IH]; simpl.
  - constructor.
  - now apply insert_by_timestamp_sorted.
Qed.

(** Stability: records with the same timestamp keep their relative order. *)
Lemma insert_by_timestamp_filter (k : Z) (m : ChatMessage) (l : list ChatMessage) :
  StronglySorted by_timestamp l ->
  filter (fun x => timestamp x =? k) (insert_by_timestamp m l) =
  filter (fun x => timestamp x =? k) (m :: l).
Proof.
  induction 1 as [|x r Hr IH Hx]; [reflexivity|].
  cbn [insert_by_timestamp].
  destruct (timestamp m <=? timestamp x) eqn:E; [reflexivity|].
  apply Z.leb_gt in E.
  cbn [filter]. rewrite IH. cbn [filter].
  destruct (timestamp m =? k) eqn:Em, (timestamp x =? k) eqn:Ex; try reflexivity.
  apply Z.eqb_eq in Em, Ex. lia.
Qed.

Lemma sort_by_timestamp_stable (k : Z) (l : list ChatMessage) :
  filter (fun x => timestamp x =? k) (sort_by_timestamp l) =
  filter (fun x => timestamp x =? k) l.
Proof.
  induction l as [|m r IH]; [reflexivity|].
  cbn [sort_by_timestamp].
  rewrite insert_by_timestamp_filter by apply sort_by_timestamp_sorted.
  cbn [filter]. now rewrite IH.
Qed.

Lemma sort_by_timestamp_sorted_id (l : list ChatMessage) :
  StronglySorted by_timestamp l -> sort_by_timestamp l = l.
Proof.
  induction 1 as [|x r Hr IH Hx]; [reflexivity|].
  cbn [sort_by_timestamp]. rewrite IH.
  destruct r as [|y r']; [reflexivity|].
  cbn [insert_by_timestamp].
  inversion Hx; subst.
  destruct (timestamp x <=? timestamp y) eqn:E; [reflexivity|].
  apply Z.leb_gt in E. unfold by_timestamp in *. lia.
Qed.

(* ================================================================== *)
(** * Further facts about the built-ins and the registry *)
(* ================================================================== *)

Lemma trimStart_head (s : jsstring) (c : N) (r : jsstring) :
  trimStart s = c :: r -> is_white_space c = false.
Proof.
  induction s as [|x s IH]; cbn [trimStart]; [discriminate|].
  destruct (is_white_space x) eqn:E; [exact IH|].
  intros H. injection H as <- _. exact E.
Qed.

Lemma trimStart_suffix (s : jsstring) :
  exists dropped, s = (dropped ++ trimStart s)%list.
Proof.
  induction s as [|x s [d IH]]; cbn [trimStart]; [exists []; reflexivity|].
  destruct (is_white_space x).
  - exists (x :: d). change ((x :: d) ++ trimStart s)%list
      with (x :: (d ++ trimStart s))%list. f_equal. exact IH.
  - exists []. reflexivity.
Qed.

Lemma trimStart_fixed (s : jsstring) :
  match s with [] => True | c :: _ => is_white_space c = false end ->
  trimStart s = s.
Proof.
  destruct s as [|c r]; cbn [trimStart]; [reflexivity|]. now intros ->.
Qed.

Lemma last_rev_cons {A : Type} (l : list A) (x d : A) :
  last (rev (x :: l)) d = x.
Proof. cbn [rev]. apply last_last. Qed.

(** [trim] leaves no white space at either end. *)
Lemma trim_trimmed (s : jsstring) : trimmed (trim s).
Proof.
  unfold trim, trimmed.
  destruct (trimStart (rev (trimStart s))) as [|c t] eqn:Et; [exact I|].
  pose proof (trimStart_head _ Et) as Hc.
  destruct (rev (c :: t)) as [|h u] eqn:Er.
  { apply (f_equal (@List.length _)) in Er. rewrite length_rev in Er.
    discriminate. }
  split.
  - (* the head of the result is the head of [trimStart s] *)
    destruct (trimStart_suffix (rev (trimStart s))) as [d Hd].
    rewrite Et in Hd.
    apply (f_equal (@rev _)) in Hd.
    rewrite rev_involutive, rev_app_distr, Er in Hd.
    destruct (trimStart s) as [|h' u'] eqn:Es; [discriminate|].
    cbn in Hd. injection Hd as -> _.
    exact (trimStart_head _ Es).
  - rewrite <- Er. rewrite last_rev_cons. exact Hc.
Qed.

Lemma trimmed_last_rev (c : N) (r : jsstring) :
  is_white_space (last (c :: r) c) = false ->
  match rev (c :: r) with [] => True | x :: _ => is_white_space x = false end.
Proof.
  intros H.
  destruct (rev (c :: r)) as [|x t] eqn:E; [exact I|].
  apply (f_equal (@rev _)) in E. rewrite rev_involutive in E.
  rewrite E in H. rewrite last_rev_cons in H. exact H.
Qed.

(** A string without outer white space is left as it is. *)
Lemma trim_fixed (s : jsstring) : trimmed s -> trim s = s.
Proof.
  unfold trimmed, trim. destruct s as [|c r]; [reflexivity|].
  intros [Hc Hl].
  rewrite (trimStart_fixed (c :: r)) by exact Hc.
  rewrite trimStart_fixed by (apply trimmed_last_rev; exact Hl).
  apply rev_involutive.
Qed.

Lemma trim_idempotent (s : jsstring) : trim (trim s) = trim s.
Proof. apply trim_fixed, trim_trimmed. Qed.

Lemma truthy_true_iff (s : jsstring) : truthy s = true <-> s <> [].
Proof. destruct s; cbn; split; congruence. Qed.

(** ** Substrings *)

Lemma starts_with_includes (a b s : jsstring) :
  starts_with (a ++ b) s = true -> includes s b = true.
Proof.
  revert s. induction a as [|x a IH]; intros s H.
  - cbn in H. destruct s; cbn; rewrite H; reflexivity.
  - destruct s as [|y s]; [discriminate|].
    cbn in H. apply andb_true_iff in H as [_ H].
    cbn [includes]. rewrite (IH s H). apply orb_true_r.
Qed.

Lemma includes_suffix (a b s : jsstring) :
  includes s (a ++ b) = true -> includes s b = true.
Proof.
  induction s as [|y s IH]; intros H; cbn [includes] in H.
  - rewrite orb_false_r in H. now apply (starts_with_includes a).
  - apply orb_true_iff in H as [H | H].
    + now apply (starts_with_includes a).
    + cbn [includes]. rewrite (IH H). apply orb_true_r.
Qed.

(** ** The registry of live queries *)

Section Registry.
Variable St : Type.
Implicit Types (r : list (uuid * listener St)) (u : uuid) (f : listener St).

Lemma uuid_eqb_refl u : uuid_eqb u u = true.
Proof.
  unfold uuid_eqb, str_eqb. destruct (list_eq_dec N.eq_dec u u); congruence.
Qed.

Lemma uuid_eqb_eq u v : uuid_eqb u v = true <-> u = v.
Proof.
  unfold uuid_eqb, str_eqb. destruct (list_eq_dec N.eq_dec u v); split; congruence.
Qed.

Lemma uuid_eqb_neq u v : uuid_eqb u v = false <-> u <> v.
Proof.
  unfold uuid_eqb, str_eqb. destruct (list_eq_dec N.eq_dec u v); split; congruence.
Qed.

Lemma deliver_unregistered u a payload r (s : St) :
  ~ In u (registered r) -> deliver u a payload r s = s.
Proof.
  unfold deliver, registered. revert s.
  induction r as [|[u' f] r IH]; intros s H; cbn; [reflexivity|].
  cbn in H.
  destruct (uuid_eqb u u') eqn:E.
  - apply uuid_eqb_eq in E. subst. exfalso. apply H. now left.
  - apply IH. intros Hin. apply H. now right.
Qed.

Lemma deliver_registry_set u a payload f r (s : St) :
  ~ In u (registered r) ->
  deliver u a payload (registry_set u f r) s = f a payload s.
Proof.
  unfold deliver, registered. revert s.
  induction r as [|[u' f'] r IH]; intros s H; cbn.
  - now rewrite uuid_eqb_refl.
  - cbn in H.
    destruct (uuid_eqb u u') eqn:E.
    + apply uuid_eqb_eq in E. subst. exfalso. apply H. now left.
    + cbn. rewrite E. apply IH. intros Hin. apply H. now right.
Qed.

Lemma registry_remove_unregistered u r :
  ~ In u (registered r) -> registry_remove u r = r.
Proof.
  unfold registry_remove, registered.
  induction r as [|[u' f'] r IH]; intros H; cbn; [reflexivity|].
  cbn in H.
  destruct (uuid_eqb u u') eqn:E.
  - apply uuid_eqb_eq in E. subst. exfalso. apply H. now left.
  - cbn. f_equal. apply IH. intros Hin. apply H. now right.
Qed.

Lemma registry_remove_set u f r :
  ~ In u (registered r) -> registry_remove u (registry_set u f r) = r.
Proof.
  unfold registered.
  induction r as [|[u' f'] r IH]; intros H; cbn.
  - unfold registry_remove. cbn. now rewrite uuid_eqb_refl.
  - cbn in H.
    destruct (uuid_eqb u u') eqn:E.
    + apply uuid_eqb_eq in E. subst. exfalso. apply H. now left.
    + unfold registry_remove in *. cbn. rewrite E. cbn. f_equal.
      apply IH. intros Hin. apply H. now right.
Qed.

End Registry.

(* ================================================================== *)
(** * The service and the component, call by call *)
(* ================================================================== *)

Ltac run_m :=
  unfold SurrealDBService.sendMessage, SurrealDBService.getMessages,
    SurrealDBService.subscribeToMessages, SurrealDBService.unsubscribe,
    SurrealDBService.disconnect, Chat.joinChat, Chat.sendMessage, Chat.update,
    db_create, db_select, db_live, db_kill, db_close, called, console_error,
    settle, bind, try_catch, try_finally, gets, modify, ret, throw;
  cbn.

(** ** The live listener *)

(** C10.  The listener that [subscribeToMessages] registers invokes the
    consumer's callback exactly when the event's action is [CREATE] and its
    payload is not null, once, with that payload; on any other event it does
    nothing.  Whatever the callback is, its effect is that of these
    invocations: for the listener taken alone, for the component's displayed
    messages, and for any subscription made with [subscribeToMessages] when
    an event for its live query arrives.  A subscription the driver rejects
    registers nothing, so no event reaches its callback. *)
Theorem live_listener_forwards_creates_only :
  forall (a : action) (payload : option ChatMessage),
    (forall m, invocations a payload = [m] <-> a = CREATE /\ payload = Some m)
    /\ (invocations a payload = [] <-> ~ (a = CREATE /\ payload <> None))
    /\ (forall (St : Type) (callback : ChatMessage -> St -> St) (s : St),
           SurrealDBService.live_listener callback a payload s
           = fold_left (fun s m => callback m s) (invocations a payload) s)
    /\ (forall t cs c con (s : Chat.State) (u : uuid),
           Chat.messages
             (app (notify u a payload
                     (mkWorld t [(u, SurrealDBService.live_listener Chat.onMessage)]
                              [] cs c con s)))
           = (Chat.messages s ++ invocations a payload)%list)
    /\ (forall (St : Type) (u : uuid) (callback : ChatMessage -> St -> St)
               (w : Driver.World St),
           connected w = true ->
           ~ In u (registered (live w)) ->
           ~ In u (registered (orphaned w)) ->
           let out := SurrealDBService.subscribeToMessages (LiveResolves u)
                        callback w in
           fst out = Ok u
           /\ app (snd out) = app w
           /\ app (notify u a payload (snd out))
              = fold_left (fun s m => callback m s) (invocations a payload)
                  (app w))
    /\ (forall (St : Type) (u : uuid) (e : exn)
               (callback : ChatMessage -> St -> St) (w : Driver.World St),
           connected w = true ->
           let out := SurrealDBService.subscribeToMessages (LiveRejects e)
                        callback w in
           fst out = Throw e
           /\ app (notify u a payload (snd out)) = app (notify u a payload w)).
Proof.
  intros a payload. unfold invocations.
  split; [|split; [|split; [|split; [|split]]]].
  - intros m. destruct a, payload as [m'|]; cbn; split;
      try discriminate; try (intros [? ?]; discriminate).
    + intros H. split; congruence.
    + intros [_ H]. congruence.
  - destruct a, payload as [m'|]; cbn; split;
      try discriminate; try reflexivity;
      try (intros _ [? ?]; discriminate); try (intros _ [_ ?]; congruence).
    intros H. exfalso. apply H. split; congruence.
  - intros St callback s. destruct a, payload; reflexivity.
  - intros t cs c con s u. unfold notify, deliver. cbn.
    unfold uuid_eqb, str_eqb.
    destruct (list_eq_dec N.eq_dec u u) as [_|n]; [|congruence].
    destruct a, payload; cbn; now rewrite ?app_nil_r.
  - intros St u callback w Hw Hl Ho. cbn zeta.
    unfold SurrealDBService.subscribeToMessages, bind, gets, try_catch,
      db_live, called, modify, ret, notify.
    cbn -[deliver registry_set]. rewrite Hw. cbn -[deliver registry_set].
    rewrite (@deliver_unregistered St u _ _ (orphaned w) _ Ho).
    rewrite deliver_registry_set by exact Hl.
    split; [reflexivity|]. split; [reflexivity|].
    destruct a, payload; reflexivity.
  - intros St u e callback w Hw. cbn zeta.
    unfold SurrealDBService.subscribeToMessages, bind, gets, try_catch,
      db_live, called, modify, ret, throw, console_error, notify.
    cbn -[deliver]. rewrite Hw. cbn -[deliver]. split; reflexivity.
Qed.

Lemma live_listener_forwards_creates_only_witness :
  app (notify Examples.q1 UPDATE (Some Examples.alice_hi)
         (snd (SurrealDBService.subscribeToMessages (LiveResolves Examples.q1)
                 FurtherExamples.record_message
                 (FurtherExamples.recording_service []))))
  = []
  /\ app (notify Examples.q1 CREATE (Some Examples.alice_hi)
            (snd (SurrealDBService.subscribeToMessages
                    (LiveResolves Examples.q1)
                    FurtherExamples.record_message
                    (FurtherExamples.recording_service []))))
     = [Examples.alice_hi].
Proof.
  split.
  - destruct (live_listener_forwards_creates_only UPDATE
                (Some Examples.alice_hi)) as (_ & _ & _ & _ & H & _).
    destruct (H (list ChatMessage) Examples.q1 FurtherExamples.record_message
                (FurtherExamples.recording_service []) eq_refl
                (fun x => x) (fun x => x)) as (_ & _ & H').
    exact H'.
  - destruct (live_listener_forwards_creates_only CREATE
                (Some Examples.alice_hi)) as (_ & _ & _ & _ & H & _).
    destruct (H (list ChatMessage) Examples.q1 FurtherExamples.record_message
                (FurtherExamples.recording_service []) eq_refl
                (fun x => x) (fun x => x)) as (_ & _ & H').
    exact H'.
Defined.

(** ** Joining *)

(** C5, as stated, fails: joining with the empty display name raises
    nothing; [joinChat] returns normally. *)
Lemma joinChat_empty_name_returns_normally :
  let w := Examples.at_join_form [] in
  Chat.username (app w) = []
  /\ Chat.joinChat (LiveResolves Examples.q1) w = (Ok tt, w)
  /\ ~ (exists e, fst (Chat.joinChat (LiveResolves Examples.q1) w) = Throw e).
Proof.
  cbn. repeat split. intros [e H]. discriminate.
Qed.

(** C5, amended.  A join whose display name is empty after trimming returns
    without an error and changes nothing: the session is not joined, no live
    query is registered and the driver is not called. *)
Theorem joinChat_blank_name_is_ignored :
  forall (r : live_reply) (w : Chat.World),
    trim (Chat.username (app w)) = [] ->
    Chat.joinChat r w = (Ok tt, w).
Proof.
  intros r w H. run_m. rewrite H. reflexivity.
Qed.

Lemma joinChat_blank_name_is_ignored_witness :
  Chat.joinChat (LiveRejects Examples.boom) (Examples.at_join_form (lit "  "))
  = (Ok tt, Examples.at_join_form (lit "  ")).
Proof.
  apply joinChat_blank_name_is_ignored. reflexivity.
Defined.

(** ** Sending *)

(** C4, as stated, fails.  The service knows no session and no join: once
    connected it stores whatever [sendMessage] is given, although nobody has
    subscribed, and raises nothing.  Where it does refuse, before it is
    connected, the error is a plain [Error], not an [InvalidStateError]. *)
Lemma service_sendMessage_needs_no_join :
  let v := snd (SurrealDBService.connect Examples.all_resolve
                  (Examples.service_down [])) in
  let stored := mkChatMessage (Some (lit "messages:d4")) (lit "dave")
                  (lit "hello") 4000 in
  let out := SurrealDBService.sendMessage
               (CreateStores (lit "messages:d4") 0 false) 4000
               (lit "dave") (lit "hello") v in
  let early := SurrealDBService.sendMessage
                 (CreateStores (lit "messages:d4") 0 false) 4000
                 (lit "dave") (lit "hello") (Examples.service_down []) in
  live v = [] /\ orphaned v = []
  /\ fst out = Ok [stored]
  /\ table (snd out) = [stored]
  /\ fst early = Throw (JsError (lit "Error") (lit "Database not connected"))
  /\ lit "Error" <> lit "InvalidStateError".
Proof.
  vm_compute. repeat split. discriminate.
Qed.

(** C4, amended.  The component offers the send form only while it is
    joined and connected: in any other state of the page a submission or an
    input of the send form does nothing, and the handler itself, were it
    called, returns without an error and changes nothing (nothing is
    appended, the driver is not called).  The service knows no join: once
    connected, its [sendMessage] stores the message whoever has or has not
    subscribed; it refuses only when the service is not connected, with a
    plain [Error] saying so, and appends nothing. *)
Theorem sendMessage_outside_session_appends_nothing :
  forall (St : Type) (r : create_reply) (now : Z) (w : Chat.World)
         (author body : jsstring) (v : Driver.World St),
    Chat.isJoined (app w) = false \/ Chat.isConnected (app w) = false ->
    connected v = false ->
    Chat.sendMessage r now w = (Ok tt, w)
    /\ SurrealDBService.sendMessage r now author body v
       = (Throw (new_Error (lit "Database not connected")), v)
    /\ (forall (mt : bool) (aw : list Chat.awaited) (typed : jsstring),
           Chat.step (Chat.SubmitSend now) (Chat.mkPage w mt aw)
           = Chat.mkPage w mt aw
           /\ Chat.step (Chat.TypeMessage typed) (Chat.mkPage w mt aw)
              = Chat.mkPage w mt aw)
    /\ (forall (rid : jsstring) (pos : nat) (as_array : bool)
               (v' : Driver.World St),
           connected v' = true ->
           let stored := mkChatMessage (Some rid) author body now in
           let out := SurrealDBService.sendMessage
                        (CreateStores rid pos as_array) now author body v' in
           fst out = Ok [stored]
           /\ table (snd out) = insert_at pos stored (table v')
           /\ live (snd out) = live v').
Proof.
  intros St r now w author body v Hw Hv. split; [|split; [|split]].
  - run_m. destruct Hw as [-> | ->]; cbn;
      rewrite ?orb_true_r; reflexivity.
  - run_m. rewrite Hv. reflexivity.
  - intros mt aw typed. unfold Chat.step, Chat.render.
    cbn [Chat.world].
    destruct (Chat.loading (app w)); [split; reflexivity|].
    destruct Hw as [-> | ->]; cbn.
    + destruct (Chat.isConnected (app w)); split; reflexivity.
    + split; reflexivity.
  - intros rid pos as_array v' Hv'. cbn zeta.
    run_m. rewrite Hv'. cbn. destruct as_array; repeat split.
Qed.

Lemma sendMessage_outside_session_appends_nothing_witness :
  Chat.sendMessage (CreateRejects Examples.boom) 4000
    (Examples.before_join (lit "dave") (lit "hello"))
  = (Ok tt, Examples.before_join (lit "dave") (lit "hello"))
  /\ SurrealDBService.sendMessage (CreateRejects Examples.boom) 4000
       (lit "dave") (lit "hello") (Examples.service_down [])
     = (Throw (new_Error (lit "Database not connected")), Examples.service_down []).
Proof.
  destruct (@sendMessage_outside_session_appends_nothing unit
              (CreateRejects Examples.boom) 4000
              (Examples.before_join (lit "dave") (lit "hello"))
              (lit "dave") (lit "hello") (Examples.service_down []))
    as (H1 & H2 & _).
  - left. reflexivity.
  - reflexivity.
  - split; [exact H1 | exact H2].
Defined.

(** C3, as stated, fails: the service stores a message whose author and
    body are both empty and returns it; no error is raised. *)
Lemma sendMessage_stores_empty_author_and_body :
  let stored := mkChatMessage (Some (lit "messages:e5")) [] [] 5000 in
  let out := SurrealDBService.sendMessage
               (CreateStores (lit "messages:e5") 0 false) 5000 [] []
               (Examples.service []) in
  fst out = Ok [stored] /\ table (snd out) = [stored].
Proof.
  cbn. split; reflexivity.
Qed.

(** C3, amended.  The service's [sendMessage] validates nothing: on a
    connected service, when the database accepts the create, the record made
    of the given author, the given body and the current time is stored under
    the id the database assigns, whatever the author and the body are, and is
    returned in an array; when the database rejects the create the error is
    rethrown and nothing is stored.  Only the component checks the body: a
    send whose body is empty after trimming returns without an error and
    changes nothing. *)
Theorem sendMessage_stores_without_validation :
  forall (St : Type) (v : Driver.World St) (rid : jsstring) (pos : nat)
         (as_array : bool) (e : exn) (now : Z) (author body : jsstring)
         (r : create_reply) (w : Chat.World),
    connected v = true ->
    trim (Chat.newMessage (app w)) = [] ->
    let stored := mkChatMessage (Some rid) author body now in
    let out := SurrealDBService.sendMessage (CreateStores rid pos as_array)
                 now author body v in
    let rejected := SurrealDBService.sendMessage (CreateRejects e)
                      now author body v in
    fst out = Ok [stored]
    /\ table (snd out) = insert_at pos stored (table v)
    /\ fst rejected = Throw e
    /\ table (snd rejected) = table v
    /\ Chat.sendMessage r now w = (Ok tt, w).
Proof.
  intros St v rid pos as_array e now author body r w Hv Hw.
  cbn zeta. repeat split.
  - run_m. rewrite Hv. cbn. destruct as_array; reflexivity.
  - run_m. rewrite Hv. cbn. reflexivity.
  - run_m. rewrite Hv. reflexivity.
  - run_m. rewrite Hv. reflexivity.
  - run_m. rewrite Hw. reflexivity.
Qed.

Lemma sendMessage_stores_without_validation_witness :
  fst (SurrealDBService.sendMessage (CreateStores (lit "messages:e5") 0 true)
         5000 [] (lit "x") (Examples.service []))
  = Ok [mkChatMessage (Some (lit "messages:e5")) [] (lit "x") 5000].
Proof.
  apply (@sendMessage_stores_without_validation unit (Examples.service [])
           (lit "messages:e5") 0%nat true Examples.boom 5000 [] (lit "x")
           (CreateRejects Examples.boom) (Examples.joined (lit "dave") (lit " "))).
  - reflexivity.
  - reflexivity.
Defined.

(** ** Reading the history *)

Lemma getMessages_resolved (St : Type) (limit : Z) (w : Driver.World St) :
  connected w = true ->
  fst (SurrealDBService.getMessages SelectResolves limit w)
  = Ok (slice (- limit) (sort_by_timestamp (table w))).
Proof.
  intros Hw. run_m. rewrite Hw. reflexivity.
Qed.


Lemma getMessages_keeps_state (St : Type) (r : select_reply) (limit : Z)
      (w : Driver.World St) :
  let w' := snd (SurrealDBService.getMessages r limit w) in
  table w' = table w /\ live w' = live w /\ orphaned w' = orphaned w
  /\ connected w' = connected w /\ app w' = app w.
Proof.
  run_m. destruct (connected w) eqn:Hc; cbn; [|repeat split; exact Hc].
  destruct r; cbn; repeat split; exact Hc.
Qed.

Lemma StronglySorted_skipn {A : Type} (R : A -> A -> Prop) (n : nat) (l : list A) :
  StronglySorted R l -> StronglySorted R (skipn n l).
Proof.
  revert l. induction n as [|n IH]; intros l H; [exact H|].
  destruct l as [|x r]; [constructor|].
  cbn. apply IH. now inversion H.
Qed.

Lemma slice_sorted (start : Z) (l : list ChatMessage) :
  StronglySorted by_timestamp l -> StronglySorted by_timestamp (slice start l).
Proof. intros H. unfold slice. now apply StronglySorted_skipn. Qed.




(** C8, as stated, fails.  [getMessages] has no cursor and caps from the
    other end: with [alice; bob; carol] appended in that order, the read of
    the specification from the start with limit 2 is [alice; bob], but the
    code returns [bob; carol]; and whatever is read after sequence number 1
    of the log [alice; bob], the code also returns message 1. *)
Lemma getMessages_is_not_a_cursor_read :
  let log3 := [Examples.alice_hi; Examples.bob_yo; Examples.carol_hey] in
  let log2 := [Examples.alice_hi; Examples.bob_yo] in
  spec_read 0 2 log3 = [Examples.alice_hi; Examples.bob_yo]
  /\ fst (SurrealDBService.getMessages SelectResolves 2 (Examples.service log3))
     = Ok [Examples.bob_yo; Examples.carol_hey]
  /\ spec_read 1 10 log2 = [Examples.bob_yo]
  /\ fst (SurrealDBService.getMessages SelectResolves 10 (Examples.service log2))
     = Ok [Examples.alice_hi; Examples.bob_yo].
Proof.
  cbn. repeat split.
Qed.

(** With limit 0 the cap does nothing: [slice(-0)] is [slice(0)]. *)
Lemma getMessages_limit_zero_returns_everything :
  fst (SurrealDBService.getMessages SelectResolves 0
         (Examples.service [Examples.alice_hi; Examples.bob_yo]))
  = Ok [Examples.alice_hi; Examples.bob_yo].
Proof. reflexivity. Qed.

(** The order of a read is that of the timestamps, which the senders'
    clocks give: a message sent later by a clock that is behind comes first. *)
Lemma getMessages_orders_by_sender_clock :
  let w0 := Examples.service [] in
  let w1 := snd (SurrealDBService.sendMessage
                   (CreateStores (lit "messages:a1") 0 false) 2000
                   (lit "alice") (lit "hi") w0) in
  let w2 := snd (SurrealDBService.sendMessage
                   (CreateStores (lit "messages:b2") 1 false) 1000
                   (lit "bob") (lit "yo") w1) in
  fst (SurrealDBService.getMessages SelectResolves 50 w2)
  = Ok [mkChatMessage (Some (lit "messages:b2")) (lit "bob") (lit "yo") 1000;
        mkChatMessage (Some (lit "messages:a1")) (lit "alice") (lit "hi") 2000].
Proof. reflexivity. Qed.

Lemma sendMessage_stored (St : Type) (rid : jsstring) (pos : nat) (as_array : bool)
      (now : Z) (author body : jsstring) (w : Driver.World St) :
  connected w = true ->
  let w' := snd (SurrealDBService.sendMessage (CreateStores rid pos as_array)
                   now author body w) in
  table w' = insert_at pos (mkChatMessage (Some rid) author body now) (table w)
  /\ connected w' = true.
Proof.
  intros Hw. run_m. rewrite Hw. cbn. split; [reflexivity|exact Hw].
Qed.

Lemma insert_at_nil {A : Type} (pos : nat) (x : A) : insert_at pos x [] = [x].
Proof. unfold insert_at. now rewrite firstn_nil, skipn_nil. Qed.

Lemma insert_at_singleton {A : Type} (pos : nat) (x y : A) :
  insert_at pos x [y] = [x; y] \/ insert_at pos x [y] = [y; x].
Proof.
  destruct pos as [|pos]; [left; reflexivity|right].
  unfold insert_at. cbn. now rewrite firstn_nil, skipn_nil.
Qed.

(** C8, amended.  [getMessages] takes a limit and no cursor.  For every
    limit of at least 1, on a connected service whose select resolves, it
    returns the newest stored messages, as many as the limit allows, ordered
    oldest first by timestamp (a stable sort of what select returned), so the
    length of the result never exceeds the limit.  In particular, after
    ("alice","hi") is appended at one time and ("bob","yo") at a later time
    to an empty table, a read returns those two messages in that order. *)
Theorem getMessages_newest_oldest_first :
  forall (St : Type) (limit : Z) (w v : Driver.World St)
         (rid1 rid2 : jsstring) (pos1 pos2 : nat) (arr1 arr2 : bool) (t1 t2 : Z),
    connected w = true ->
    1 <= limit ->
    connected v = true ->
    table v = [] ->
    t1 < t2 ->
    (exists older l,
        fst (SurrealDBService.getMessages SelectResolves limit w) = Ok l
        /\ sort_by_timestamp (table w) = (older ++ l)%list
        /\ StronglySorted by_timestamp l
        /\ Z.of_nat (List.length l) <= limit
        /\ List.length l = Nat.min (Z.to_nat limit) (List.length (table w)))
    /\ Permutation (table w) (sort_by_timestamp (table w))
    /\ (forall k, filter (fun m => timestamp m =? k) (sort_by_timestamp (table w))
                  = filter (fun m => timestamp m =? k) (table w))
    /\ let v1 := snd (SurrealDBService.sendMessage (CreateStores rid1 pos1 arr1)
                        t1 (lit "alice") (lit "hi") v) in
       let v2 := snd (SurrealDBService.sendMessage (CreateStores rid2 pos2 arr2)
                        t2 (lit "bob") (lit "yo") v1) in
       fst (SurrealDBService.getMessages SelectResolves
              SurrealDBService.default_limit v2)
       = Ok [mkChatMessage (Some rid1) (lit "alice") (lit "hi") t1;
             mkChatMessage (Some rid2) (lit "bob") (lit "yo") t2].
Proof.
  intros St limit w v rid1 rid2 pos1 pos2 arr1 arr2 t1 t2 Hw Hl Hv Ht Hlt.
  split; [|split; [|split]].
  - destruct (slice_neg_suffix limit (sort_by_timestamp (table w))) as [older Ho].
    exists older, (slice (- limit) (sort_by_timestamp (table w))).
    assert (Hn : List.length (slice (- limit) (sort_by_timestamp (table w)))
                 = Nat.min (Z.to_nat limit) (List.length (table w))).
    { now rewrite slice_neg_length, sort_by_timestamp_length by lia. }
    split; [now apply getMessages_resolved|].
    split; [exact Ho|].
    split; [apply slice_sorted, sort_by_timestamp_sorted|].
    split; [rewrite Hn; lia | exact Hn].
  - apply sort_by_timestamp_perm.
  - intros k. apply sort_by_timestamp_stable.
  - cbn zeta.
    destruct (sendMessage_stored rid1 pos1 arr1 t1 (lit "alice") (lit "hi") v Hv)
      as [T1 C1].
    set (v1 := snd (SurrealDBService.sendMessage (CreateStores rid1 pos1 arr1)
                      t1 (lit "alice") (lit "hi") v)) in *.
    destruct (sendMessage_stored rid2 pos2 arr2 t2 (lit "bob") (lit "yo") v1 C1)
      as [T2 C2].
    set (v2 := snd (SurrealDBService.sendMessage (CreateStores rid2 pos2 arr2)
                      t2 (lit "bob") (lit "yo") v1)) in *.
    rewrite getMessages_resolved by exact C2.
    rewrite T2, T1, Ht, insert_at_nil.
    assert (E1 : (t1 <=? t2) = true) by (apply Z.leb_le; lia).
    assert (E2 : (t2 <=? t1) = false) by (apply Z.leb_gt; lia).
    destruct (insert_at_singleton pos2
                (mkChatMessage (Some rid2) (lit "bob") (lit "yo") t2)
                (mkChatMessage (Some rid1) (lit "alice") (lit "hi") t1))
      as [-> | ->]; cbn; rewrite ?E1, ?E2; reflexivity.
Qed.

Lemma getMessages_newest_oldest_first_witness :
  exists older l,
    fst (SurrealDBService.getMessages SelectResolves 2
           (Examples.service
              [Examples.carol_hey; Examples.alice_hi; Examples.bob_yo])) = Ok l
    /\ sort_by_timestamp [Examples.carol_hey; Examples.alice_hi; Examples.bob_yo]
       = (older ++ l)%list
    /\ StronglySorted by_timestamp l
    /\ Z.of_nat (List.length l) <= 2
    /\ List.length l = 2%nat.
Proof.
  apply (@getMessages_newest_oldest_first unit 2
           (Examples.service
              [Examples.carol_hey; Examples.alice_hi; Examples.bob_yo])
           (Examples.service [])
           (lit "messages:a1") (lit "messages:b2") 0%nat 0%nat false true
           1000 2000).
  - reflexivity.
  - lia.
  - reflexivity.
  - reflexivity.
  - lia.
Defined.

(** ** Unsubscribing *)




(** A live query made on an earlier connection is out of the reach of
    [unsubscribe]: the service connects again, which replaces its driver
    object, and the [kill] sent through the new one resolves, yet a record
    created afterwards still reaches the callback. *)
Lemma unsubscribe_misses_queries_of_an_earlier_connection :
  let w0 := FurtherExamples.recording_service [] in
  let w1 := snd (SurrealDBService.subscribeToMessages
                   (LiveResolves Examples.q1) FurtherExamples.record_message
                   w0) in
  let w2 := snd (SurrealDBService.connect Examples.all_resolve w1) in
  let out := SurrealDBService.unsubscribe None Examples.q1 w2 in
  fst out = Ok tt
  /\ app (server_create 0 Examples.alice_hi (snd out)) = [Examples.alice_hi]
  /\ app (notify Examples.q1 CREATE (Some Examples.alice_hi) (snd out))
     = [Examples.alice_hi].
Proof. vm_compute. repeat split. Qed.


(* ================================================================== *)
(** * [connect] *)
(* ================================================================== *)

Section Connect.
Import SurrealDBService.

Variable St : Type.
Implicit Types (w : Driver.World St) (r : replies) (c : config) (o : oracle).

Ltac run_attempt :=
  unfold attempt, attempt_failed, all_attempts_failed, initializeSchema,
    db_new, db_connect, db_signin, db_use, db_query, db_close, called,
    console_error, settle, bind, try_catch, gets, modify, ret, throw, cause,
    attempt_calls;
  cbn.

(** One attempt: its outcome, its driver calls, and what it leaves alone. *)
Lemma attempt_outcome r c w :
  fst (attempt r c w)
  = match cause r with None => Ok tt | Some e => Throw e end.
Proof.
  run_attempt.
  destruct (r AtConnect); cbn; [reflexivity|].
  destruct (r AtSignin); cbn; [reflexivity|].
  destruct (r AtUse); cbn; [reflexivity|].
  destruct (r AtInfo); cbn; [reflexivity|].
  destruct (r AtSchema); reflexivity.
Qed.

Lemma attempt_world r c w :
  let w' := snd (attempt r c w) in
  calls w' = (calls w ++ attempt_calls r c)%list
  /\ table w' = table w
  /\ app w' = app w
  /\ console w' = console w
  /\ live w' = []
  /\ orphaned w' = (orphaned w ++ live w)%list
  /\ (cause r = None -> connected w' = true).
Proof.
  run_attempt.
  destruct (r AtConnect); cbn;
    [rewrite <- !app_assoc; repeat split; discriminate|].
  destruct (r AtSignin); cbn;
    [rewrite <- !app_assoc; repeat split; discriminate|].
  destruct (r AtUse); cbn;
    [rewrite <- !app_assoc; repeat split; discriminate|].
  destruct (r AtInfo); cbn;
    [rewrite <- !app_assoc; repeat split; discriminate|].
  destruct (r AtSchema); cbn;
    rewrite <- !app_assoc; repeat split; discriminate.
Qed.

(** The [catch] block never throws; it closes the handle. *)
Lemma attempt_failed_world r c (error : exn) w :
  let out := attempt_failed r c error w in
  fst out = Ok tt
  /\ calls (snd out) = (calls w ++ [CClose])%list
  /\ table (snd out) = table w
  /\ app (snd out) = app w
  /\ orphaned (snd out) = orphaned w
  /\ (live w = [] -> live (snd out) = [])
  /\ exists logged, console (snd out) = (console w ++ logged)%list.
Proof.
  run_attempt.
  destruct error as [name msg|shown]; cbn;
    destruct (r AtClose); cbn; repeat split; try (intros H; exact H);
    eexists; rewrite <- ?app_assoc; reflexivity.
Qed.


Lemma connect_from_step_ok o i c rest errors w :
  cause (o i) = None ->
  connect_from o i (c :: rest) errors w = (Ok tt, snd (attempt (o i) c w)).
Proof.
  intros H. cbn [connect_from].
  pose proof (attempt_outcome (o i) c w) as Ho. rewrite H in Ho.
  destruct (attempt (o i) c w) as [[[]|e] w']; cbn in *; congruence.
Qed.

Lemma connect_from_step_fail o i c rest errors w (e : exn) :
  cause (o i) = Some e ->
  connect_from o i (c :: rest) errors w
  = connect_from o (S i) rest (errors ++ [error_line c (errorMessage e)])
      (snd (attempt_failed (o i) c e (snd (attempt (o i) c w)))).
Proof.
  intros H. cbn [connect_from].
  pose proof (attempt_outcome (o i) c w) as Ho. rewrite H in Ho.
  destruct (attempt (o i) c w) as [[[]|e'] w'] eqn:E; cbn in Ho; [discriminate|].
  injection Ho as ->. cbn [snd].
  unfold bind at 1.
  pose proof (attempt_failed_world (o i) c e w') as [Hok _].
  destruct (attempt_failed (o i) c e w') as [[[]|e''] w'']; cbn in *;
    [reflexivity | discriminate].
Qed.

(** Whatever happens, [connect] leaves the table and the application alone,
    and it registers no live query. *)
Lemma connect_from_frame o configs :
  forall i errors w,
    let w' := snd (connect_from o i configs errors w) in
    table w' = table w /\ app w' = app w
    /\ (live w = [] -> orphaned w = [] -> live w' = [] /\ orphaned w' = []).
Proof.
  induction configs as [|c rest IH]; intros i errors w; cbn zeta.
  - cbn. repeat split; assumption.
  - pose proof (attempt_world (o i) c w) as (_ & Ht & Ha & _ & Hl & Hor & _).
    destruct (cause (o i)) as [e|] eqn:Hc.
    + rewrite (@connect_from_step_fail o i _ rest errors w _ Hc).
      pose proof (attempt_failed_world (o i) c e (snd (attempt (o i) c w)))
        as (_ & _ & Ht' & Ha' & Hor' & Hl' & _).
      specialize (IH (S i) (errors ++ [error_line c (errorMessage e)])%list
                     (snd (attempt_failed (o i) c e (snd (attempt (o i) c w))))).
      cbn zeta in IH. destruct IH as (IHt & IHa & IHl).
      split; [congruence|]. split; [congruence|].
      intros L O. apply IHl.
      * apply Hl'. exact Hl.
      * rewrite Hor', Hor, L, O. reflexivity.
    + rewrite (@connect_from_step_ok o i _ rest errors w Hc). cbn [snd].
      split; [exact Ht|]. split; [exact Ha|].
      intros L O. split; [exact Hl|]. rewrite Hor, L, O. reflexivity.
Qed.

(** The first attempt that succeeds ends the loop. *)
Lemma connect_from_first_success o configs :
  forall i errors w k c,
    nth_error configs k = Some c ->
    (forall j, (j < k)%nat -> cause (o (i + j)%nat) <> None) ->
    cause (o (i + k)%nat) = None ->
    let out := connect_from o i configs errors w in
    fst out = Ok tt
    /\ connected (snd out) = true
    /\ calls (snd out)
       = (calls w ++ failed_attempts o i (firstn k configs) ++ full_attempt c)%list.
Proof.
  induction configs as [|c0 rest IH]; intros i errors w k c Hk Hfail Hok;
    [destruct k; discriminate|].
  destruct k as [|k]; cbn zeta.
  - cbn in Hk. injection Hk as ->. rewrite Nat.add_0_r in Hok.
    rewrite (@connect_from_step_ok o i _ rest errors w Hok). cbn [fst snd].
    pose proof (attempt_world (o i) c w) as (Hcalls & _ & _ & _ & _ & _ & Hcon).
    split; [reflexivity|]. split; [now apply Hcon|].
    rewrite Hcalls. cbn [firstn failed_attempts app].
    f_equal. unfold attempt_calls, full_attempt.
    unfold cause in Hok.
    destruct (o i AtConnect); [discriminate|].
    destruct (o i AtSignin); [discriminate|].
    destruct (o i AtUse); [discriminate|].
    destruct (o i AtInfo); [discriminate|]. reflexivity.
  - cbn in Hk.
    destruct (cause (o i)) as [e|] eqn:Hc.
    2:{ exfalso. apply (Hfail 0%nat); [lia|]. now rewrite Nat.add_0_r. }
    rewrite (@connect_from_step_fail o i _ rest errors w _ Hc).
    specialize (IH (S i) (errors ++ [error_line c0 (errorMessage e)])%list
                   (snd (attempt_failed (o i) c0 e (snd (attempt (o i) c0 w))))
                   k c Hk).
    cbn zeta in IH. destruct IH as (IH1 & IH2 & IH3).
    + intros j Hj. replace (S i + j)%nat with (i + S j)%nat by lia.
      apply Hfail. lia.
    + replace (S i + k)%nat with (i + S k)%nat by lia. exact Hok.
    + split; [exact IH1|]. split; [exact IH2|].
      rewrite IH3.
      pose proof (attempt_failed_world (o i) c0 e (snd (attempt (o i) c0 w)))
        as (_ & Hcl & _).
      pose proof (attempt_world (o i) c0 w) as (Hcalls & _).
      rewrite Hcl, Hcalls. cbn [firstn failed_attempts].
      rewrite <- !app_assoc. reflexivity.
Qed.

(** When every attempt fails, the loop runs to the end and the code after it
    throws. *)
Lemma connect_from_all_fail o (causes : nat -> exn) configs :
  forall i errors w,
    (forall j, (j < List.length configs)%nat ->
               cause (o (i + j)%nat) = Some (causes (i + j)%nat)) ->
    let out := connect_from o i configs errors w in
    let all := (errors ++ error_lines causes i configs)%list in
    fst out = Throw (new_Error (all_failed_prefix ++ last_error all)%list)
    /\ calls (snd out) = (calls w ++ failed_attempts o i configs)%list
    /\ exists logged,
         console (snd out)
         = (console w ++ logged
              ++ [AllAttemptsFailed; DetailedErrors all; PossibleCauses])%list.
Proof.
  induction configs as [|c0 rest IH]; intros i errors w Hfail; cbn zeta.
  - cbn. rewrite !app_nil_r. split; [reflexivity|]. split; [reflexivity|].
    exists []. cbn. rewrite <- !app_assoc. reflexivity.
  - assert (Hc : cause (o i) = Some (causes i)).
    { specialize (Hfail 0%nat). rewrite Nat.add_0_r in Hfail.
      apply Hfail. cbn. lia. }
    rewrite (@connect_from_step_fail o i _ rest errors w _ Hc).
    specialize (IH (S i) (errors ++ [error_line c0 (errorMessage (causes i))])%list
                   (snd (attempt_failed (o i) c0 (causes i)
                           (snd (attempt (o i) c0 w))))).
    cbn zeta in IH. destruct IH as (IH1 & IH2 & logged & IH3).
    + intros j Hj. replace (S i + j)%nat with (i + S j)%nat by lia.
      apply Hfail. cbn. lia.
    + cbn [error_lines].
      replace (errors ++ error_line c0 (errorMessage (causes i))
                 :: error_lines causes (S i) rest)%list
        with ((errors ++ [error_line c0 (errorMessage (causes i))])
                ++ error_lines causes (S i) rest)%list
        by (rewrite <- app_assoc; reflexivity).
      split; [exact IH1|].
      pose proof (attempt_failed_world (o i) c0 (causes i)
                    (snd (attempt (o i) c0 w)))
        as (_ & Hcl & _ & _ & _ & _ & logged' & Hlog).
      pose proof (attempt_world (o i) c0 w) as (Hcalls & _ & _ & Hcon & _).
      split.
      * rewrite IH2, Hcl, Hcalls. cbn [failed_attempts].
        rewrite <- !app_assoc. reflexivity.
      * exists (logged' ++ logged)%list.
        rewrite IH3, Hlog, Hcon. rewrite <- !app_assoc. reflexivity.
Qed.

End Connect.

Section ConnectTheorems.
Import SurrealDBService.

Lemma urls_tried_app (a b : list call) :
  urls_tried (a ++ b) = (urls_tried a ++ urls_tried b)%list.
Proof. unfold urls_tried. apply flat_map_app. Qed.

Lemma urls_tried_attempt_calls (r : replies) (c : config) :
  urls_tried (attempt_calls r c) = [url c].
Proof.
  unfold attempt_calls.
  destruct (r AtConnect); [reflexivity|].
  destruct (r AtSignin); [reflexivity|].
  destruct (r AtUse); [reflexivity|].
  destruct (r AtInfo); reflexivity.
Qed.

Lemma urls_tried_failed_attempts (o : oracle) (configs : list config) :
  forall i, urls_tried (failed_attempts o i configs) = map url configs.
Proof.
  induction configs as [|c rest IH]; intros i; [reflexivity|].
  cbn [failed_attempts map].
  rewrite !urls_tried_app, urls_tried_attempt_calls, IH. reflexivity.
Qed.

Lemma firstn_succ_nth {A : Type} (l : list A) :
  forall k x, nth_error l k = Some x -> firstn (S k) l = (firstn k l ++ [x])%list.
Proof.
  induction l as [|y l IH]; intros [|k] x H; try discriminate.
  - cbn in H. injection H as ->. reflexivity.
  - cbn in H. cbn [firstn]. rewrite (IH k x H) at 1. reflexivity.
Qed.

(** C7.  [connect] is a linear retry loop over the fixed list of six
    configurations.  If the entry at position [k] is the first whose attempt
    succeeds, [connect] returns normally with the service connected; the
    driver calls it made are those of the failed attempts on the entries
    before [k], in list order, each followed by the [close] of its handle,
    and then the full sequence (new handle, connect, signin, use, test query,
    schema) on entry [k]; the endpoints tried are exactly the first [k + 1]
    of the list, so no later entry is attempted. *)
Theorem connect_is_a_linear_retry :
  forall (St : Type) (o : oracle) (w : Driver.World St) (k : nat) (c : config),
    nth_error connectionConfigs k = Some c ->
    (forall j, (j < k)%nat -> cause (o j) <> None) ->
    cause (o k) = None ->
    let out := connect o w in
    let made := (failed_attempts o 0 (firstn k connectionConfigs)
                   ++ full_attempt c)%list in
    List.length connectionConfigs = 6%nat
    /\ fst out = Ok tt
    /\ connected (snd out) = true
    /\ calls (snd out) = (calls w ++ made)%list
    /\ urls_tried made = map url (firstn (S k) connectionConfigs).
Proof.
  intros St o w k c Hk Hfail Hok. cbn zeta.
  destruct (@connect_from_first_success St o connectionConfigs 0 [] w k c Hk)
    as (H1 & H2 & H3); [exact Hfail | exact Hok |].
  split; [reflexivity|]. split; [exact H1|]. split; [exact H2|].
  split; [exact H3|].
  rewrite urls_tried_app, urls_tried_failed_attempts.
  rewrite (firstn_succ_nth _ _ Hk), map_app. reflexivity.
Qed.

Lemma connect_is_a_linear_retry_witness :
  let out := connect ConnectExamples.third_works (Examples.service_down []) in
  fst out = Ok tt
  /\ connected (snd out) = true
  /\ calls (snd out)
     = [CNew; CConnect (lit "ws://localhost:8000/rpc"); CClose;
        CNew; CConnect (lit "http://localhost:8000/rpc"); CSignin; CClose;
        CNew; CConnect (lit "ws://127.0.0.1:8000/rpc"); CSignin; CUse;
        CQuery INFO_DB; CQuery DEFINE_SCHEMA].
Proof.
  pose proof (@connect_is_a_linear_retry unit ConnectExamples.third_works
                (Examples.service_down []) 2%nat
                (mkConfig (lit "ws://127.0.0.1:8000/rpc") (lit "WebSocket"))
                eq_refl) as H.
  cbn zeta in H.
  destruct H as (_ & H1 & H2 & H3 & _).
  - intros j Hj.
    destruct j as [|[|j]]; [discriminate | discriminate | lia].
  - reflexivity.
  - split; [exact H1|]. split; [exact H2|]. exact H3.
Defined.

(** C6, as stated, fails: the error [connect] throws carries the last cause
    only.  Two runs in which the first five endpoints fail for different
    reasons throw the very same error. *)
Lemma connect_throws_last_cause_only :
  let w := Examples.service_down [] in
  fst (connect ConnectExamples.refused_then_timeout w)
  = Throw (new_Error
             (all_failed_prefix ++ lit "http://localhost:8000 (HTTP-Basic): timeout")%list)
  /\ fst (connect ConnectExamples.blocked_then_timeout w)
     = fst (connect ConnectExamples.refused_then_timeout w)
  /\ cause (ConnectExamples.refused_then_timeout 0%nat)
     <> cause (ConnectExamples.blocked_then_timeout 0%nat).
Proof.
  cbn zeta. split; [vm_compute; reflexivity|].
  split; [vm_compute; reflexivity|].
  vm_compute. discriminate.
Qed.

(** C6, amended.  When every entry of the list fails, [connect] throws one
    [Error] whose message names the last failure only (the last endpoint,
    its transport and the message of its cause).  The list of the individual
    failures, one line per endpoint in list order, is written to the error
    console just before. *)
Theorem connect_reports_all_causes_on_console :
  forall (St : Type) (o : oracle) (causes : nat -> exn) (w : Driver.World St),
    (forall j, (j < 6)%nat -> cause (o j) = Some (causes j)) ->
    let out := connect o w in
    let lines := error_lines causes 0 connectionConfigs in
    fst out
    = Throw (new_Error
               (all_failed_prefix
                  ++ error_line (mkConfig (lit "http://localhost:8000") (lit "HTTP-Basic"))
                                (errorMessage (causes 5%nat)))%list)
    /\ (exists logged,
           console (snd out)
           = (console w ++ logged
                ++ [AllAttemptsFailed; DetailedErrors lines; PossibleCauses])%list)
    /\ lines = map (fun ic => error_line (snd ic) (errorMessage (causes (fst ic))))
                   (combine (seq 0 6) connectionConfigs)
    /\ calls (snd out) = (calls w ++ failed_attempts o 0 connectionConfigs)%list.
Proof.
  intros St o causes w Hfail. cbn zeta.
  destruct (@connect_from_all_fail St o causes connectionConfigs 0 [] w)
    as (H1 & H2 & logged & H3); [exact Hfail|].
  split; [exact H1|].
  split; [exists logged; exact H3|].
  split; [reflexivity | exact H2].
Qed.

Lemma connect_reports_all_causes_on_console_witness :
  exists logged,
    console (snd (connect ConnectExamples.refused_then_timeout
                    (Examples.service_down [])))
    = (logged
         ++ [AllAttemptsFailed;
             DetailedErrors
               [lit "ws://localhost:8000/rpc (WebSocket): connection refused";
                lit "http://localhost:8000/rpc (HTTP): connection refused";
                lit "ws://127.0.0.1:8000/rpc (WebSocket): connection refused";
                lit "http://127.0.0.1:8000/rpc (HTTP): connection refused";
                lit "ws://localhost:8000 (WebSocket-Basic): connection refused";
                lit "http://localhost:8000 (HTTP-Basic): timeout"];
             PossibleCauses])%list.
Proof.
  pose proof (@connect_reports_all_causes_on_console unit
                ConnectExamples.refused_then_timeout
                (fun i => JsError (lit "Error")
                            (if Nat.eqb i 5 then lit "timeout"
                             else lit "connection refused"))
                (Examples.service_down [])) as H.
  cbn zeta in H.
  destruct H as (_ & H & _).
  - intros j Hj. reflexivity.
  - exact H.
Defined.

End ConnectTheorems.

(* ================================================================== *)
(** * The two sides of an [await] *)
(* ================================================================== *)

Section Halves.
Import SurrealDBService.

(** ** Run one after the other, the halves are the method *)

Lemma sendMessage_in_halves (St : Type) (r : create_reply) (now : Z)
      (author body : jsstring) (w : Driver.World St) :
  sendMessage r now author body w
  = (sendMessage_call now author body ;;
     sendMessage_resume r now author body) w.
Proof.
  unfold sendMessage, sendMessage_call, sendMessage_resume, call_when_connected,
    create_answered, db_create, bind, gets, try_catch, called, modify, ret, throw.
  cbn. destruct (connected w); cbn; [|reflexivity].
  destruct r; reflexivity.
Qed.

Lemma getMessages_in_halves (St : Type) (r : select_reply) (limit : Z)
      (w : Driver.World St) :
  getMessages r limit w
  = (@getMessages_call St ;; getMessages_resume r limit) w.
Proof.
  unfold getMessages, getMessages_call, getMessages_resume, call_when_connected,
    select_answered, db_select, bind, gets, try_catch, called, modify, ret, throw.
  cbn. destruct (connected w); cbn; [|reflexivity].
  destruct r; reflexivity.
Qed.

Lemma subscribeToMessages_in_halves (St : Type) (r : live_reply)
      (callback : ChatMessage -> St -> St) (w : Driver.World St) :
  subscribeToMessages r callback w
  = (@subscribeToMessages_call St ;; subscribeToMessages_resume r callback) w.
Proof.
  unfold subscribeToMessages, subscribeToMessages_call,
    subscribeToMessages_resume, call_when_connected, live_answered, db_live,
    bind, gets, try_catch, called, modify, ret, throw.
  cbn. destruct (connected w); cbn; [|reflexivity].
  destruct r; reflexivity.
Qed.

Lemma unsubscribe_in_halves (St : Type) (r : option exn) (u : uuid)
      (w : Driver.World St) :
  unsubscribe r u w = (@unsubscribe_call St u ;; unsubscribe_resume r u) w.
Proof.
  unfold unsubscribe, unsubscribe_call, unsubscribe_resume, kill_answered,
    db_kill, bind, try_catch, called, console_error, modify, ret, throw.
  destruct r; reflexivity.
Qed.

Lemma disconnect_in_halves (St : Type) (r : option exn) (w : Driver.World St) :
  disconnect r w
  = (closing <- @disconnect_call St ;;
     if closing then disconnect_resume r else ret tt) w.
Proof.
  unfold disconnect, disconnect_call, disconnect_resume, close_answered,
    db_close, bind, gets, called, modify, ret, throw.
  cbn. destruct (connected w); cbn; [|reflexivity].
  destruct r; reflexivity.
Qed.

Lemma joinChat_in_halves (r : live_reply) (w : Chat.World) :
  Chat.joinChat r w
  = (waiting <- Chat.joinChat_begin ;;
     match waiting with
     | Some _ => Chat.joinChat_resume r
     | None => ret tt
     end) w.
Proof.
  unfold Chat.joinChat, Chat.joinChat_begin, Chat.joinChat_resume,
    subscribeToMessages, subscribeToMessages_call, subscribeToMessages_resume,
    call_when_connected, live_answered, db_live, Chat.update,
    bind, gets, try_catch, called, console_error, modify, ret, throw.
  cbn -[trim truthy registry_set].
  destruct (negb (truthy (trim (Chat.username (app w))))
            || negb (Chat.isConnected (app w))); [reflexivity|].
  destruct (connected w); cbn -[trim truthy registry_set]; [|reflexivity].
  destruct r; reflexivity.
Qed.

Lemma chat_sendMessage_in_halves (r : create_reply) (now : Z) (w : Chat.World) :
  Chat.sendMessage r now w
  = (waiting <- Chat.sendMessage_begin now ;;
     match waiting with
     | Some (Chat.AwaitCreate n author body) =>
         Chat.sendMessage_resume r n author body
     | _ => ret tt
     end) w.
Proof.
  unfold Chat.sendMessage, Chat.sendMessage_begin, Chat.sendMessage_resume,
    sendMessage, sendMessage_call, sendMessage_resume,
    call_when_connected, create_answered, db_create, Chat.update,
    bind, gets, try_catch, called, console_error, modify, ret, throw.
  cbn -[trim truthy insert_at broadcast].
  destruct (negb (truthy (trim (Chat.newMessage (app w))))
            || negb (Chat.isJoined (app w))
            || negb (Chat.isConnected (app w))); [reflexivity|].
  destruct (connected w); cbn -[trim truthy insert_at broadcast]; [|reflexivity].
  destruct r; reflexivity.
Qed.

Lemma initConnection_in_halves (o : oracle) (sel : select_reply) (w : Chat.World) :
  Chat.initConnection o sel w
  = (waiting <- Chat.initConnection_begin o ;;
     match waiting with
     | Some _ => Chat.initConnection_resume sel
     | None => ret tt
     end) w.
Proof.
  unfold Chat.initConnection, Chat.initConnection_begin,
    Chat.initConnection_resume, try_finally, try_catch, Chat.update,
    bind, modify.
  cbn -[connect getMessages getMessages_call getMessages_resume].
  match goal with
  | |- context [connect o ?w1] => destruct (connect o w1) as [[[]|e] w2]
  end.
  - cbn -[getMessages getMessages_call getMessages_resume].
    rewrite getMessages_in_halves.
    unfold getMessages_call, getMessages_resume, call_when_connected,
      select_answered, bind, gets, try_catch, called, console_error, modify,
      ret, throw.
    cbn. destruct (connected w2); cbn; [|reflexivity].
    destruct sel; reflexivity.
  - reflexivity.
Qed.

End Halves.

(* ================================================================== *)
(** * The page, event by event *)
(* ================================================================== *)

Section PageSteps.
Import SurrealDBService.

(** ** What the component's listeners do *)

Lemma listener_effect (a : action) (payload : option ChatMessage)
      (s : Chat.State) :
  identity_of (live_listener Chat.onMessage a payload s) = identity_of s
  /\ Chat.newMessage (live_listener Chat.onMessage a payload s)
     = Chat.newMessage s
  /\ Chat.messages (live_listener Chat.onMessage a payload s)
     = (Chat.messages s ++ invocations a payload)%list.
Proof.
  destruct a, payload; cbn; rewrite ?app_nil_r; repeat split.
Qed.

Lemma invocations_repeat (a : action) (payload : option ChatMessage) (n : nat) :
  (invocations a payload
     ++ match a, payload with
        | CREATE, Some m => repeat m n
        | _, _ => []
        end)%list
  = match a, payload with
    | CREATE, Some m => repeat m (S n)
    | _, _ => []
    end.
Proof. destruct a, payload; reflexivity. Qed.

Lemma broadcast_effect (a : action) (payload : option ChatMessage)
      (r : list (uuid * listener Chat.State)) :
  Forall ours r ->
  forall s,
    identity_of (broadcast a payload r s) = identity_of s
    /\ Chat.newMessage (broadcast a payload r s) = Chat.newMessage s
    /\ Chat.messages (broadcast a payload r s)
       = (Chat.messages s
            ++ match a, payload with
               | CREATE, Some m => repeat m (List.length r)
               | _, _ => []
               end)%list.
Proof.
  unfold broadcast.
  induction 1 as [|[u f] r Hf _ IH]; intros s; cbn [fold_left List.length snd].
  - split; [reflexivity|]. split; [reflexivity|].
    destruct a, payload; cbn; now rewrite app_nil_r.
  - unfold ours in Hf. cbn in Hf. subst f.
    destruct (IH (live_listener Chat.onMessage a payload s)) as (I1 & I2 & I3).
    destruct (listener_effect a payload s) as (L1 & L2 & L3).
    split; [congruence|]. split; [congruence|].
    rewrite I3, L3, <- app_assoc. f_equal. apply invocations_repeat.
Qed.

Lemma deliver_effect (u : uuid) (a : action) (payload : option ChatMessage)
      (r : list (uuid * listener Chat.State)) :
  Forall ours r ->
  forall s,
    identity_of (deliver u a payload r s) = identity_of s
    /\ Chat.newMessage (deliver u a payload r s) = Chat.newMessage s
    /\ Chat.messages (deliver u a payload r s)
       = (Chat.messages s
            ++ match a, payload with
               | CREATE, Some m =>
                   repeat m (List.length (filter (fun e => uuid_eqb u (fst e)) r))
               | _, _ => []
               end)%list.
Proof.
  unfold deliver.
  induction 1 as [|[u' f] r Hf _ IH]; intros s;
    cbn [fold_left filter List.length snd fst].
  - split; [reflexivity|]. split; [reflexivity|].
    destruct a, payload; cbn; now rewrite app_nil_r.
  - unfold ours in Hf. cbn in Hf. subst f.
    destruct (uuid_eqb u u'); [|apply IH].
    destruct (IH (live_listener Chat.onMessage a payload s)) as (I1 & I2 & I3).
    destruct (listener_effect a payload s) as (L1 & L2 & L3).
    split; [congruence|]. split; [congruence|].
    rewrite I3, L3, <- app_assoc. f_equal. cbn [List.length].
    apply invocations_repeat.
Qed.

Lemma deliver_silent (u : uuid) (a : action) (payload : option ChatMessage)
      (r : list (uuid * listener Chat.State)) :
  Forall ours r ->
  a <> CREATE \/ payload = None ->
  forall s, deliver u a payload r s = s.
Proof.
  unfold deliver. intros Hr Hq.
  induction Hr as [|[u' f] r Hf _ IH]; intros s; cbn; [reflexivity|].
  unfold ours in Hf. cbn in Hf. subst f.
  destruct (uuid_eqb u u'); [|apply IH].
  replace (live_listener Chat.onMessage a payload s) with s; [apply IH|].
  destruct Hq as [Hq | ->]; destruct a; try reflexivity;
    try congruence; destruct payload; reflexivity.
Qed.

Lemma Forall_registry_set {St : Type} (P : uuid * listener St -> Prop)
      (u : uuid) (f : listener St) (r : list (uuid * listener St)) :
  P (u, f) -> Forall P r -> Forall P (registry_set u f r).
Proof.
  intros Hp. induction 1 as [|[u' f'] r Hf Hr IH]; cbn.
  - repeat constructor. exact Hp.
  - destruct (uuid_eqb u u'); constructor; assumption.
Qed.

Lemma identity_of_fields (s s' : Chat.State) :
  identity_of s' = identity_of s ->
  Chat.username s' = Chat.username s
  /\ Chat.isConnected s' = Chat.isConnected s
  /\ Chat.isJoined s' = Chat.isJoined s
  /\ Chat.loading s' = Chat.loading s
  /\ Chat.subscriptionRef s' = Chat.subscriptionRef s.
Proof.
  unfold identity_of. intros H. injection H as -> -> -> -> ->.
  repeat split.
Qed.

Lemma set_app_same {St : Type} (w : Driver.World St) : set_app (app w) w = w.
Proof. destruct w; reflexivity. Qed.

(** ** What each half of a handler does *)

Lemma initConnection_begin_effect (o : oracle) (w : Chat.World) :
  live w = [] -> orphaned w = [] ->
  let out := Chat.initConnection_begin o w in
  ((fst out = Ok None /\ Chat.loading (app (snd out)) = false)
   \/ (fst out = Ok (Some Chat.AwaitSelect)
       /\ Chat.loading (app (snd out)) = true))
  /\ live (snd out) = [] /\ orphaned (snd out) = []
  /\ table (snd out) = table w
  /\ Chat.messages (app (snd out)) = Chat.messages (app w)
  /\ Chat.newMessage (app (snd out)) = Chat.newMessage (app w)
  /\ Chat.username (app (snd out)) = Chat.username (app w)
  /\ Chat.isJoined (app (snd out)) = Chat.isJoined (app w)
  /\ Chat.subscriptionRef (app (snd out)) = Chat.subscriptionRef (app w).
Proof.
  intros Hl Ho. cbn zeta.
  unfold Chat.initConnection_begin, try_catch, Chat.update, bind, modify.
  cbn -[connect getMessages_call].
  match goal with
  | |- context [connect o ?w1] =>
      destruct (@connect_from_frame Chat.State o connectionConfigs 0 [] w1)
        as (Ht & Ha & Hr);
      fold (@connect Chat.State o) in Ht, Ha, Hr;
      destruct (connect o w1) as [res w2]
  end.
  cbn [fst snd] in *.
  destruct w as [t l orp cs con co s].
  destruct s as [ms nm un ic ij ld sr].
  destruct w2 as [t2 l2 or2 cs2 con2 co2 s2].
  cbn in Ht, Ha, Hr, Hl, Ho. subst.
  destruct (Hr eq_refl eq_refl) as [-> ->].
  destruct res as [[]|e].
  - unfold getMessages_call, call_when_connected, bind, gets, called, modify,
      ret, throw, console_error.
    cbn. destruct con2; cbn;
      (split; [(left; split; reflexivity) || (right; split; reflexivity)
              | repeat split]).
  - unfold bind, console_error, modify, ret. cbn.
    split; [left; split; reflexivity | repeat split].
Qed.

Lemma initConnection_begin_connected (o : oracle) (k : nat) (c : config)
      (w : Chat.World) :
  nth_error connectionConfigs k = Some c ->
  (forall j, (j < k)%nat -> cause (o j) <> None) ->
  cause (o k) = None ->
  live w = [] -> orphaned w = [] ->
  let out := Chat.initConnection_begin o w in
  fst out = Ok (Some Chat.AwaitSelect)
  /\ live (snd out) = [] /\ orphaned (snd out) = []
  /\ table (snd out) = table w
  /\ connected (snd out) = true
  /\ app (snd out) = Chat.setIsConnected true (Chat.setLoading true (app w)).
Proof.
  intros Hk Hfail Hok Hl Ho. cbn zeta.
  unfold Chat.initConnection_begin, try_catch, Chat.update, bind, modify.
  cbn -[connect getMessages_call].
  match goal with
  | |- context [connect o ?w1] =>
      destruct (@connect_from_first_success Chat.State o connectionConfigs
                  0 [] w1 k c Hk Hfail Hok) as (H1 & H2 & _);
      destruct (@connect_from_frame Chat.State o connectionConfigs 0 [] w1)
        as (Ht & Ha & Hr);
      fold (@connect Chat.State o) in H1, H2, Ht, Ha, Hr;
      destruct (connect o w1) as [res w2]
  end.
  cbn [fst snd] in *. subst res.
  destruct w as [t l orp cs con co s].
  destruct s as [ms nm un ic ij ld sr].
  destruct w2 as [t2 l2 or2 cs2 con2 co2 s2].
  cbn in Ht, Ha, Hr, H2, Hl, Ho. subst.
  destruct (Hr eq_refl eq_refl) as [-> ->].
  unfold getMessages_call, call_when_connected, bind, gets, called, modify,
    ret, throw.
  cbn. repeat split.
Qed.

Lemma initConnection_resume_effect (sel : select_reply) (w : Chat.World) :
  let w' := Chat.exec (Chat.initConnection_resume sel) w in
  live w' = live w /\ orphaned w' = orphaned w /\ table w' = table w
  /\ connected w' = connected w
  /\ app w'
     = Chat.setLoading false
         (Chat.setMessages (fun _ => history_read sel (table w)) (app w)).
Proof.
  cbn zeta.
  unfold Chat.exec, Chat.initConnection_resume, getMessages_resume,
    select_answered, try_finally, try_catch, Chat.update, bind, gets,
    console_error, modify, ret, throw, history_read.
  destruct sel; cbn -[slice sort_by_timestamp]; repeat split.
Qed.

Lemma joinChat_begin_effect (w : Chat.World) :
  let out := Chat.joinChat_begin w in
  (fst out = Ok None \/ fst out = Ok (Some Chat.AwaitLive))
  /\ live (snd out) = live w /\ orphaned (snd out) = orphaned w
  /\ table (snd out) = table w /\ connected (snd out) = connected w
  /\ app (snd out) = app w.
Proof.
  cbn zeta.
  unfold Chat.joinChat_begin, subscribeToMessages_call, call_when_connected,
    try_catch, bind, gets, called, console_error, modify, ret, throw.
  cbn -[trim truthy].
  destruct (negb (truthy (trim (Chat.username (app w))))
            || negb (Chat.isConnected (app w))); [repeat split; auto|].
  destruct (connected w) eqn:Hc; cbn; repeat split; auto.
Qed.

Lemma joinChat_resume_effect (r : live_reply) (w : Chat.World) :
  let w' := Chat.exec (Chat.joinChat_resume r) w in
  orphaned w' = orphaned w /\ table w' = table w /\ connected w' = connected w
  /\ match r with
     | LiveRejects _ => live w' = live w /\ app w' = app w
     | LiveResolves u =>
         live w' = registry_set u (live_listener Chat.onMessage) (live w)
         /\ app w' = Chat.setIsJoined true
                       (Chat.setSubscriptionRef (Some u) (app w))
     end.
Proof.
  cbn zeta.
  unfold Chat.exec, Chat.joinChat_resume, subscribeToMessages_resume,
    live_answered, try_catch, Chat.update, bind, gets, console_error, modify,
    ret, throw.
  destruct r; cbn -[registry_set]; repeat split.
Qed.

Lemma sendMessage_begin_effect (now : Z) (w : Chat.World) :
  let out := Chat.sendMessage_begin now w in
  (fst out = Ok None
   \/ fst out = Ok (Some (Chat.AwaitCreate now (Chat.username (app w))
                            (trim (Chat.newMessage (app w))))))
  /\ live (snd out) = live w /\ orphaned (snd out) = orphaned w
  /\ table (snd out) = table w /\ connected (snd out) = connected w
  /\ app (snd out) = app w.
Proof.
  cbn zeta.
  unfold Chat.sendMessage_begin, sendMessage_call, call_when_connected,
    try_catch, bind, gets, called, console_error, modify, ret, throw.
  cbn -[trim truthy].
  destruct (negb (truthy (trim (Chat.newMessage (app w))))
            || negb (Chat.isJoined (app w))
            || negb (Chat.isConnected (app w))); [repeat split; auto|].
  destruct (connected w) eqn:Hc; cbn -[trim]; repeat split; auto.
Qed.

Lemma sendMessage_resume_effect (r : create_reply) (now : Z)
      (author body : jsstring) (w : Chat.World) :
  let w' := Chat.exec (Chat.sendMessage_resume r now author body) w in
  live w' = live w /\ orphaned w' = orphaned w /\ connected w' = connected w
  /\ match r with
     | CreateRejects _ => table w' = table w /\ app w' = app w
     | CreateStores rid pos _ =>
         let stored := mkChatMessage (Some rid) author body now in
         table w' = insert_at pos stored (table w)
         /\ app w'
            = Chat.setNewMessage []
                (broadcast CREATE (Some stored) (live w)
                   (broadcast CREATE (Some stored) (orphaned w) (app w)))
     end.
Proof.
  cbn zeta.
  unfold Chat.exec, Chat.sendMessage_resume, sendMessage_resume,
    create_answered, try_catch, Chat.update, bind, gets, console_error, modify,
    ret, throw.
  destruct r; cbn -[insert_at broadcast]; repeat split.
Qed.

(** ** Pages *)

Lemma world_begin (m : M Chat.State (option Chat.awaited)) (p : Chat.Page) :
  Chat.world (Chat.begin m p) = snd (m (Chat.world p))
  /\ Chat.mounted (Chat.begin m p) = Chat.mounted p
  /\ Chat.awaiting (Chat.begin m p)
     = (Chat.awaiting p
          ++ match fst (m (Chat.world p)) with
             | Ok (Some a) => [a]
             | _ => []
             end)%list.
Proof.
  unfold Chat.begin. destruct (m (Chat.world p)) as [r w]. repeat split.
Qed.

Lemma run_app (es1 es2 : list Chat.event) (p : Chat.Page) :
  Chat.run (es1 ++ es2) p = Chat.run es2 (Chat.run es1 p).
Proof. unfold Chat.run. apply fold_left_app. Qed.

Lemma render_join_form (s : Chat.State) :
  Chat.render s = Chat.JoinForm ->
  Chat.isJoined s = false /\ Chat.isConnected s = true.
Proof.
  unfold Chat.render.
  destruct (Chat.loading s); [discriminate|].
  destruct (Chat.isConnected s); cbn; [|discriminate].
  destruct (Chat.isJoined s); [discriminate | split; reflexivity].
Qed.

Lemma render_chat_screen (s : Chat.State) :
  Chat.render s = Chat.ChatScreen ->
  Chat.isJoined s = true /\ Chat.isConnected s = true.
Proof.
  unfold Chat.render.
  destruct (Chat.loading s); [discriminate|].
  destruct (Chat.isConnected s); cbn; [|discriminate].
  destruct (Chat.isJoined s); [split; reflexivity | discriminate].
Qed.

End PageSteps.

(* ================================================================== *)
(** * What holds of every state of the page *)
(* ================================================================== *)

Section PageInvariant.
Import SurrealDBService.

Lemma load_well_formed (t : list ChatMessage) : well_formed (Chat.load t).
Proof.
  unfold well_formed. cbn.
  repeat split; try constructor; try discriminate; try tauto.
Qed.

Lemma nth_error_drop {A : Type} (x : A) (l : list A) (i : nat) :
  In x (firstn i l ++ skipn (S i) l) -> In x l.
Proof.
  intros H. apply in_app_or in H. destruct H as [H | H].
  - rewrite <- (firstn_skipn i l). apply in_or_app. now left.
  - rewrite <- (firstn_skipn (S i) l). apply in_or_app. now right.
Qed.

Lemma step_well_formed (e : Chat.event) (p : Chat.Page) :
  well_formed p -> well_formed (Chat.step e p).
Proof.
  intros W. pose proof W as (W1 & W2 & W3 & W4 & W5 & W6 & W7).
  destruct p as [w mt aw]. cbn [Chat.world Chat.mounted Chat.awaiting] in *.
  destruct e; cbn [Chat.step Chat.world Chat.mounted Chat.awaiting].
  - (* Mount *)
    destruct mt; [exact W|].
    destruct (W5 eq_refl) as (J & C & A). subst aw.
    destruct (world_begin (Chat.initConnection_begin o) (Chat.mkPage w true []))
      as (B1 & B2 & B3).
    cbn [Chat.world Chat.mounted Chat.awaiting] in B1, B2, B3.
    destruct (initConnection_begin_effect o w (W4 J) W2)
      as (R & L & O & _ & _ & _ & _ & IJ & SR).
    unfold well_formed. rewrite B1, B2, B3. cbn zeta. rewrite L, O, IJ, SR.
    split; [constructor|]. split; [reflexivity|]. split; [exact W3|].
    split; [reflexivity|]. split; [discriminate|].
    destruct R as [[R1 R2] | [R1 R2]]; rewrite R1, R2; cbn.
    + split; [intros []|discriminate].
    + split; [reflexivity | intros _; split; [exact J | reflexivity]].
  - (* HistorySettles *)
    destruct (nth_error aw i) as [[| |]|] eqn:Hn; try exact W.
    assert (Hin : In Chat.AwaitSelect aw) by (eapply nth_error_In; eassumption).
    destruct (W7 (W6 Hin)) as (J & A). subst aw.
    destruct i as [|i]; [|destruct i; discriminate].
    destruct (initConnection_resume_effect sel w) as (L & O & _ & _ & Ap).
    unfold well_formed, Chat.resume.
    cbn [Chat.world Chat.mounted Chat.awaiting firstn skipn app].
    cbn zeta. rewrite L, O, Ap. cbn.
    repeat split; try assumption; try apply W3; try apply W5;
      try discriminate; try tauto.
  - (* TypeUsername *)
    destruct (Chat.render (app w)) eqn:Hr; exact W.
  - (* SubmitJoin *)
    destruct (Chat.render (app w)) eqn:Hr; try exact W.
    destruct (world_begin Chat.joinChat_begin (Chat.mkPage w mt aw))
      as (B1 & B2 & B3).
    cbn [Chat.world Chat.mounted Chat.awaiting] in B1, B2, B3.
    destruct (joinChat_begin_effect w) as (R & L & O & _ & _ & Ap).
    unfold Chat.render in Hr.
    destruct (Chat.loading (app w)) eqn:Hl; [discriminate|].
    destruct (Chat.isConnected (app w)) eqn:Hc; [|discriminate].
    unfold well_formed. rewrite B1, B2, B3. cbn zeta. rewrite L, O, Ap, Hl, Hc.
    split; [exact W1|]. split; [exact W2|]. split; [exact W3|].
    split; [exact W4|].
    split; [intros Hm; destruct (W5 Hm) as (_ & ? & _); discriminate|].
    split; [|discriminate].
    intros Hin. apply in_app_or in Hin. destruct Hin as [Hin | Hin].
    + now apply W6.
    + destruct R as [R | R]; rewrite R in Hin; cbn in Hin;
        [destruct Hin | destruct Hin as [? | []]; discriminate].
  - (* LiveSettles *)
    destruct (nth_error aw i) as [[| |]|] eqn:Hn; try exact W.
    assert (Hl : Chat.loading (app w) = false).
    { destruct (Chat.loading (app w)) eqn:Hl; [|reflexivity].
      destruct (W7 eq_refl) as (_ & A). subst aw.
      destruct i as [|i]; [discriminate | destruct i; discriminate]. }
    assert (Hm : mt = true).
    { destruct mt; [reflexivity|]. destruct (W5 eq_refl) as (_ & _ & A).
      subst aw. destruct i; discriminate. }
    destruct (joinChat_resume_effect r w) as (O & _ & _ & R).
    unfold well_formed, Chat.resume.
    cbn [Chat.world Chat.mounted Chat.awaiting]. cbn zeta. rewrite O.
    destruct r as [e | u].
    + destruct R as (L & Ap). rewrite L, Ap, Hl.
      split; [exact W1|]. split; [exact W2|]. split; [exact W3|].
      split; [exact W4|]. split; [subst mt; discriminate|].
      split; [|discriminate].
      intros Hin. apply nth_error_drop in Hin. rewrite <- Hl. now apply W6.
    + destruct R as (L & Ap). rewrite L, Ap. cbn. rewrite Hl.
      split; [apply Forall_registry_set; [reflexivity | exact W1]|].
      split; [exact W2|].
      split; [split; [discriminate | reflexivity]|].
      split; [discriminate|]. split; [subst mt; discriminate|].
      split; [|discriminate].
      intros Hin. apply nth_error_drop in Hin. rewrite <- Hl. now apply W6.
  - (* TypeMessage *)
    destruct (Chat.render (app w)) eqn:Hr; exact W.
  - (* SubmitSend *)
    destruct (Chat.render (app w)) eqn:Hr; try exact W.
    destruct (world_begin (Chat.sendMessage_begin now) (Chat.mkPage w mt aw))
      as (B1 & B2 & B3).
    cbn [Chat.world Chat.mounted Chat.awaiting] in B1, B2, B3.
    destruct (sendMessage_begin_effect now w) as (R & L & O & _ & _ & Ap).
    unfold Chat.render in Hr.
    destruct (Chat.loading (app w)) eqn:Hl; [discriminate|].
    destruct (Chat.isConnected (app w)) eqn:Hc; [|discriminate].
    unfold well_formed. rewrite B1, B2, B3. cbn zeta. rewrite L, O, Ap, Hl, Hc.
    split; [exact W1|]. split; [exact W2|]. split; [exact W3|].
    split; [exact W4|].
    split; [intros Hm; destruct (W5 Hm) as (_ & ? & _); discriminate|].
    split; [|discriminate].
    intros Hin. apply in_app_or in Hin. destruct Hin as [Hin | Hin].
    + now apply W6.
    + destruct R as [R | R]; rewrite R in Hin; cbn in Hin;
        [destruct Hin | destruct Hin as [? | []]; discriminate].
  - (* CreateSettles *)
    destruct (nth_error aw i) as [[| |now author body]|] eqn:Hn; try exact W.
    assert (Hl : Chat.loading (app w) = false).
    { destruct (Chat.loading (app w)) eqn:Hl; [|reflexivity].
      destruct (W7 eq_refl) as (_ & A). subst aw.
      destruct i as [|i]; [discriminate | destruct i; discriminate]. }
    assert (Hm : mt = true).
    { destruct mt; [reflexivity|]. destruct (W5 eq_refl) as (_ & _ & A).
      subst aw. destruct i; discriminate. }
    destruct (sendMessage_resume_effect r now author body w) as (L & O & _ & R).
    unfold well_formed, Chat.resume.
    cbn [Chat.world Chat.mounted Chat.awaiting]. cbn zeta. rewrite L, O.
    assert (Hid : identity_of
                    (app (Chat.exec (Chat.sendMessage_resume r now author body) w))
                  = identity_of (app w)).
    { destruct r as [e | rid pos arr].
      - destruct R as (_ & ->). reflexivity.
      - destruct R as (_ & ->). cbn zeta.
        rewrite W2.
        destruct (broadcast_effect CREATE
                    (Some (mkChatMessage (Some rid) author body now)) W1
                    (broadcast CREATE
                       (Some (mkChatMessage (Some rid) author body now)) []
                       (app w))) as (I & _ & _).
        unfold identity_of in *. cbn in *. exact I. }
    apply identity_of_fields in Hid. destruct Hid as (_ & _ & -> & -> & ->).
    rewrite Hl.
    split; [exact W1|]. split; [exact W2|]. split; [exact W3|].
    split; [exact W4|]. split; [subst mt; discriminate|].
    split; [|discriminate].
    intros Hin. apply nth_error_drop in Hin. rewrite <- Hl. now apply W6.
  - (* RemoteCreate *)
    destruct w as [t l orp cs con co s].
    cbn [live orphaned app] in W1, W2, W3, W4, W5, W6, W7. subst orp.
    unfold well_formed, Chat.on_world, server_create.
    cbn -[broadcast insert_at].
    destruct (broadcast_effect CREATE (Some m) W1 s) as (I & _ & _).
    apply identity_of_fields in I. destruct I as (_ & I2 & I3 & I4 & I5).
    change (broadcast CREATE (Some m) [] s) with s.
    rewrite I2, I3, I4, I5.
    exact W.
  - (* Notification *)
    destruct w as [t l orp cs con co s].
    cbn [live orphaned app] in W1, W2, W3, W4, W5, W6, W7. subst orp.
    unfold well_formed, Chat.on_world, notify.
    cbn -[deliver].
    destruct (deliver_effect u a payload W1 s) as (I & _ & _).
    apply identity_of_fields in I. destruct I as (_ & I2 & I3 & I4 & I5).
    change (deliver u a payload [] s) with s.
    rewrite I2, I3, I4, I5.
    exact W.
Qed.

Lemma run_snoc (es : list Chat.event) (e : Chat.event) (p : Chat.Page) :
  Chat.run (es ++ [e]) p = Chat.step e (Chat.run es p).
Proof. unfold Chat.run. now rewrite fold_left_app. Qed.

Lemma run_well_formed (es : list Chat.event) (p : Chat.Page) :
  well_formed p -> well_formed (Chat.run es p).
Proof.
  revert p. induction es as [|e es IH]; intros p W; [exact W|].
  cbn. apply IH. now apply step_well_formed.
Qed.

End PageInvariant.

(* ================================================================== *)
(** * What the page displays *)
(* ================================================================== *)

Section Session.
Import SurrealDBService.

Lemma registry_set_length {St : Type} (u : uuid) (f : listener St)
      (r : list (uuid * listener St)) :
  List.length (registry_set u f r)
  = if existsb (uuid_eqb u) (registered r) then List.length r
    else S (List.length r).
Proof.
  unfold registered.
  induction r as [|[u' f'] r IH]; cbn; [reflexivity|].
  destruct (uuid_eqb u u'); cbn; [reflexivity|].
  rewrite IH. now destruct (existsb (uuid_eqb u) (map fst r)).
Qed.

(** The displayed messages after one more event, in every state of the
    page that satisfies [well_formed]. *)
Lemma step_display (e : Chat.event) (p : Chat.Page) :
  well_formed p ->
  let w := Chat.world p in
  let shown := Chat.messages (app w) in
  Chat.messages (app (Chat.world (Chat.step e p)))
  = match e with
    | Chat.HistorySettles i sel =>
        match nth_error (Chat.awaiting p) i with
        | Some Chat.AwaitSelect => history_read sel (table w)
        | _ => shown
        end
    | Chat.CreateSettles i (CreateStores rid _ _) =>
        match nth_error (Chat.awaiting p) i with
        | Some (Chat.AwaitCreate now author body) =>
            (shown ++ repeat (mkChatMessage (Some rid) author body now)
                        (subscriptions w))%list
        | _ => shown
        end
    | Chat.RemoteCreate _ m => (shown ++ repeat m (subscriptions w))%list
    | Chat.Notification u CREATE (Some m) =>
        (shown ++ repeat m (subscriptions_under u w))%list
    | _ => shown
    end.
Proof.
  intros (W1 & W2 & W3 & W4 & W5 & W6 & W7).
  destruct p as [w mt aw]. cbn [Chat.world Chat.mounted Chat.awaiting] in *.
  cbn zeta.
  destruct e; cbn [Chat.step Chat.world Chat.mounted Chat.awaiting].
  - destruct mt; [reflexivity|].
    destruct (W5 eq_refl) as (J & _ & _).
    destruct (world_begin (Chat.initConnection_begin o)
                (Chat.mkPage w true aw)) as (B1 & _).
    rewrite B1. cbn [Chat.world].
    now destruct (initConnection_begin_effect o w (W4 J) W2)
      as (_ & _ & _ & _ & M & _).
  - destruct (nth_error aw i) as [[| |]|]; try reflexivity.
    destruct (initConnection_resume_effect sel w) as (_ & _ & _ & _ & Ap).
    unfold Chat.resume. cbn [Chat.world]. now rewrite Ap.
  - now destruct (Chat.render (app w)).
  - destruct (Chat.render (app w)); try reflexivity.
    destruct (world_begin Chat.joinChat_begin (Chat.mkPage w mt aw))
      as (B1 & _).
    rewrite B1. cbn [Chat.world].
    destruct (joinChat_begin_effect w) as (_ & _ & _ & _ & _ & Ap).
    now rewrite Ap.
  - destruct (nth_error aw i) as [[| |]|]; try reflexivity.
    destruct (joinChat_resume_effect r w) as (_ & _ & _ & R).
    unfold Chat.resume. cbn [Chat.world].
    destruct r; destruct R as (_ & ->); reflexivity.
  - now destruct (Chat.render (app w)).
  - destruct (Chat.render (app w)); try reflexivity.
    destruct (world_begin (Chat.sendMessage_begin now) (Chat.mkPage w mt aw))
      as (B1 & _).
    rewrite B1. cbn [Chat.world].
    destruct (sendMessage_begin_effect now w) as (_ & _ & _ & _ & _ & Ap).
    now rewrite Ap.
  - destruct (nth_error aw i) as [[| |now author body]|];
      try (destruct r; reflexivity).
    destruct (sendMessage_resume_effect r now author body w) as (_ & _ & _ & R).
    unfold Chat.resume. cbn [Chat.world].
    destruct r as [e | rid pos arr].
    + now destruct R as (_ & ->).
    + destruct R as (_ & ->). cbn zeta. rewrite W2.
      change (broadcast CREATE
                (Some (mkChatMessage (Some rid) author body now)) [] (app w))
        with (app w).
      destruct (broadcast_effect CREATE
                  (Some (mkChatMessage (Some rid) author body now)) W1 (app w))
        as (_ & _ & M).
      unfold subscriptions. rewrite W2. cbn [List.length Nat.add].
      exact M.
  - unfold Chat.on_world, server_create, subscriptions.
    destruct w as [t l orp cs con co s].
    cbn [live orphaned app] in W1, W2. subst orp.
    cbn -[broadcast insert_at].
    change (broadcast CREATE (Some m) [] s) with s.
    now destruct (broadcast_effect CREATE (Some m) W1 s) as (_ & _ & M).
  - unfold Chat.on_world, notify, subscriptions_under.
    destruct w as [t l orp cs con co s].
    cbn [live orphaned app] in W1, W2. subst orp.
    cbn -[deliver uuid_eqb].
    change (deliver u a payload [] s) with s.
    destruct (deliver_effect u a payload W1 s) as (_ & _ & M).
    rewrite M. destruct a, payload; cbn; rewrite ?app_nil_r; reflexivity.
Qed.

(** The number of live queries after one more event. *)
Lemma step_subscriptions (e : Chat.event) (p : Chat.Page) :
  well_formed p ->
  let w := Chat.world p in
  subscriptions (Chat.world (Chat.step e p))
  = match e with
    | Chat.LiveSettles i (LiveResolves u) =>
        match nth_error (Chat.awaiting p) i with
        | Some Chat.AwaitLive =>
            if existsb (uuid_eqb u) (registered (live w))
            then subscriptions w
            else S (subscriptions w)
        | _ => subscriptions w
        end
    | _ => subscriptions w
    end.
Proof.
  intros (W1 & W2 & W3 & W4 & W5 & W6 & W7).
  destruct p as [w mt aw]. cbn [Chat.world Chat.mounted Chat.awaiting] in *.
  cbn zeta. unfold subscriptions.
  destruct e; cbn [Chat.step Chat.world Chat.mounted Chat.awaiting].
  - destruct mt; [reflexivity|].
    destruct (W5 eq_refl) as (J & _ & _).
    destruct (world_begin (Chat.initConnection_begin o)
                (Chat.mkPage w true aw)) as (B1 & _).
    rewrite B1. cbn [Chat.world].
    destruct (initConnection_begin_effect o w (W4 J) W2)
      as (_ & L & O & _).
    now rewrite L, O, (W4 J), W2.
  - destruct (nth_error aw i) as [[| |]|]; try reflexivity.
    destruct (initConnection_resume_effect sel w) as (L & O & _).
    unfold Chat.resume. cbn [Chat.world]. now rewrite L, O.
  - now destruct (Chat.render (app w)).
  - destruct (Chat.render (app w)); try reflexivity.
    destruct (world_begin Chat.joinChat_begin (Chat.mkPage w mt aw))
      as (B1 & _).
    rewrite B1. cbn [Chat.world].
    destruct (joinChat_begin_effect w) as (_ & L & O & _).
    now rewrite L, O.
  - destruct (nth_error aw i) as [[| |]|]; try (destruct r; reflexivity).
    destruct (joinChat_resume_effect r w) as (O & _ & _ & R).
    unfold Chat.resume. cbn [Chat.world]. rewrite O.
    destruct r as [e | u]; destruct R as (L & _); rewrite L; [reflexivity|].
    rewrite registry_set_length, W2. cbn [List.length Nat.add].
    now destruct (existsb (uuid_eqb u) (registered (live w))).
  - now destruct (Chat.render (app w)).
  - destruct (Chat.render (app w)); try reflexivity.
    destruct (world_begin (Chat.sendMessage_begin now) (Chat.mkPage w mt aw))
      as (B1 & _).
    rewrite B1. cbn [Chat.world].
    destruct (sendMessage_begin_effect now w) as (_ & L & O & _).
    now rewrite L, O.
  - destruct (nth_error aw i) as [[| |now author body]|]; try reflexivity.
    destruct (sendMessage_resume_effect r now author body w) as (L & O & _).
    unfold Chat.resume. cbn [Chat.world]. now rewrite L, O.
  - destruct w; reflexivity.
  - destruct w; reflexivity.
Qed.

(** The mount effect and the typing of a name, when some endpoint accepts
    the connection. *)
Lemma session_opening (o : oracle) (k : nat) (c : config)
      (t : list ChatMessage) (name : jsstring) :
  nth_error connectionConfigs k = Some c ->
  (forall j, (j < k)%nat -> cause (o j) <> None) ->
  cause (o k) = None ->
  exists cs co,
    Chat.run [Chat.Mount o; Chat.HistorySettles 0 SelectResolves;
              Chat.TypeUsername name] (Chat.load t)
    = Chat.mkPage
        (mkWorld t [] [] cs true co
           (Chat.mkState (slice (- 50) (sort_by_timestamp t)) [] name
              true false false None))
        true [].
Proof.
  intros Hk Hfail Hok.
  destruct (@initConnection_begin_connected o k c (Chat.fresh t) Hk Hfail Hok
              eq_refl eq_refl) as (R & L & O & T & C & Ap).
  cbn zeta in *.
  unfold Chat.run, fold_left, Chat.load.
  cbn [Chat.step Chat.mounted Chat.world Chat.awaiting].
  unfold Chat.begin. cbn [Chat.world Chat.mounted Chat.awaiting].
  destruct (Chat.initConnection_begin o (Chat.fresh t)) as [r w1].
  cbn [fst snd] in *. subst r.
  destruct w1 as [t1 l1 or1 cs1 con1 co1 s1].
  cbn in L, O, T, C, Ap. subst.
  exists (cs1 ++ [])%list, co1.
  cbn -[slice sort_by_timestamp]. rewrite app_nil_r. reflexivity.
Qed.

(** Records created by other clients while no live query is registered
    change the table only. *)
Lemma remote_unobserved (ps : list (nat * ChatMessage)) :
  forall (t : list ChatMessage) (cs : list call) (con : bool)
         (co : list console_entry) (s : Chat.State) (mt : bool)
         (aw : list Chat.awaited),
    Chat.run (map remote ps) (Chat.mkPage (mkWorld t [] [] cs con co s) mt aw)
    = Chat.mkPage (mkWorld (inserted ps t) [] [] cs con co s) mt aw.
Proof.
  induction ps as [|p ps IH]; intros t cs con co s mt aw; [reflexivity|].
  cbn [map Chat.run fold_left]. fold (Chat.run (map remote ps)).
  exact (IH (insert_at (fst p) (snd p) t) cs con co s mt aw).
Qed.

(** What is created while the component's live query is the only one is
    appended to the displayed messages as it comes. *)
Lemma creations_observed (u : uuid) (name : jsstring) (post : list creation) :
  forall (t msgs : list ChatMessage) (cs : list call) (co : list console_entry)
         (body : jsstring),
    let p := Chat.mkPage
               (mkWorld t [(u, live_listener Chat.onMessage)] [] cs true co
                  (Chat.mkState msgs body name true true false (Some u)))
               true [] in
    let w' := Chat.world (Chat.run (flat_map events_of post) p) in
    table w' = inserted (flat_map (placed name) post) t
    /\ Chat.messages (app w')
       = (msgs ++ map snd (flat_map (placed name) post))%list
    /\ Chat.isJoined (app w') = true
    /\ live w' = [(u, live_listener Chat.onMessage)]
    /\ orphaned w' = [].
Proof.
  induction post as [|c post IH]; intros t msgs cs co body; cbn zeta.
  - cbn. now rewrite app_nil_r.
  - cbn [flat_map]. rewrite run_app.
    destruct c as [pos m | body' rid pos as_array now].
    + assert (E : Chat.run (events_of (ByOther pos m))
                    (Chat.mkPage
                       (mkWorld t [(u, live_listener Chat.onMessage)] [] cs
                          true co
                          (Chat.mkState msgs body name true true false (Some u)))
                       true [])
                  = Chat.mkPage
                      (mkWorld (insert_at pos m t)
                         [(u, live_listener Chat.onMessage)] [] cs true co
                         (Chat.mkState (msgs ++ [m]) body name true true false
                            (Some u)))
                      true [])
        by reflexivity.
      rewrite E.
      destruct (IH (insert_at pos m t) (msgs ++ [m])%list cs co body)
        as (IH1 & IH2 & IH3 & IH4 & IH5).
      cbn zeta in IH1, IH2, IH3, IH4, IH5. rewrite IH1, IH2, IH3, IH4, IH5.
      cbn [placed map app snd fst]. rewrite <- app_assoc.
      unfold inserted. rewrite fold_left_app. repeat split.
    + destruct (truthy (trim body')) eqn:Htr.
      * assert (E : Chat.run (events_of (ByMe body' rid pos as_array now))
                      (Chat.mkPage
                         (mkWorld t [(u, live_listener Chat.onMessage)] [] cs
                            true co
                            (Chat.mkState msgs body name true true false
                               (Some u)))
                         true [])
                    = Chat.mkPage
                        (mkWorld
                           (insert_at pos
                              (mkChatMessage (Some rid) name (trim body') now) t)
                           [(u, live_listener Chat.onMessage)] []
                           (cs ++ [CCreate
                                     (mkChatMessage None name (trim body') now)])
                           true co
                           (Chat.mkState
                              (msgs ++ [mkChatMessage (Some rid) name
                                          (trim body') now])
                              [] name true true false (Some u)))
                        true []).
        { unfold Chat.run, events_of, fold_left.
          cbn [Chat.step Chat.world Chat.mounted Chat.awaiting app Chat.render
                 Chat.loading Chat.isConnected Chat.isJoined negb].
          unfold Chat.on_world, Chat.exec, Chat.begin, Chat.sendMessage_begin,
            sendMessage_call, call_when_connected, Chat.update, bind, gets,
            try_catch, called, modify, ret.
          cbn -[trim truthy insert_at]. rewrite Htr.
          cbn -[trim insert_at]. reflexivity. }
        rewrite E.
        match goal with
        | |- context [Chat.run (flat_map events_of post)
                        (Chat.mkPage
                           (mkWorld ?t' _ _ ?cs' _ _
                              (Chat.mkState ?m' ?b' _ _ _ _ _)) _ _)] =>
            destruct (IH t' m' cs' co b') as (IH1 & IH2 & IH3 & IH4 & IH5)
        end.
        cbn zeta in IH1, IH2, IH3, IH4, IH5. rewrite IH1, IH2, IH3, IH4, IH5.
        assert (Hp : placed name (ByMe body' rid pos as_array now)
                     = [(pos, mkChatMessage (Some rid) name (trim body') now)])
          by (unfold placed; rewrite Htr; reflexivity).
        rewrite Hp. cbn [map app snd fst]. rewrite <- app_assoc.
        unfold inserted. rewrite fold_left_app. repeat split.
      * assert (E : Chat.run (events_of (ByMe body' rid pos as_array now))
                      (Chat.mkPage
                         (mkWorld t [(u, live_listener Chat.onMessage)] [] cs
                            true co
                            (Chat.mkState msgs body name true true false
                               (Some u)))
                         true [])
                    = Chat.mkPage
                        (mkWorld t [(u, live_listener Chat.onMessage)] [] cs
                           true co
                           (Chat.mkState msgs body' name true true false
                              (Some u)))
                        true []).
        { unfold Chat.run, events_of, fold_left.
          cbn [Chat.step Chat.world Chat.mounted Chat.awaiting app Chat.render
                 Chat.loading Chat.isConnected Chat.isJoined negb].
          unfold Chat.on_world, Chat.exec, Chat.begin, Chat.sendMessage_begin,
            Chat.update, bind, gets, modify, ret.
          cbn -[trim truthy]. rewrite Htr. reflexivity. }
        rewrite E.
        destruct (IH t msgs cs co body') as (IH1 & IH2 & IH3 & IH4 & IH5).
        cbn zeta in IH1, IH2, IH3, IH4, IH5. rewrite IH1, IH2, IH3, IH4, IH5.
        assert (Hp : placed name (ByMe body' rid pos as_array now) = [])
          by (unfold placed; rewrite Htr; reflexivity).
        rewrite Hp. repeat split.
Qed.

(** A session in which the join form is submitted once. *)
Lemma single_join_session (o : oracle) (k : nat) (c : config)
      (t : list ChatMessage) (name : jsstring)
      (pre during : list (nat * ChatMessage)) (u : uuid)
      (post : list creation) :
  nth_error connectionConfigs k = Some c ->
  (forall j, (j < k)%nat -> cause (o j) <> None) ->
  cause (o k) = None ->
  trim name <> [] ->
  let w := Chat.world (Chat.run (session o name pre during u post)
                         (Chat.load t)) in
  Chat.isJoined (app w) = true
  /\ subscriptions w = 1%nat
  /\ Chat.messages (app w)
     = (slice (- 50) (sort_by_timestamp t)
          ++ map snd (flat_map (placed name) post))%list
  /\ table w = inserted (pre ++ during ++ flat_map (placed name) post) t.
Proof.
  intros Hk Hfail Hok Hname. cbn zeta.
  unfold session.
  change (Chat.Mount o :: Chat.HistorySettles 0 SelectResolves
            :: Chat.TypeUsername name
            :: map remote pre
            ++ Chat.SubmitJoin
            :: map remote during
            ++ Chat.LiveSettles 0 (LiveResolves u) :: flat_map events_of post)%list
    with ([Chat.Mount o; Chat.HistorySettles 0 SelectResolves;
           Chat.TypeUsername name]
            ++ map remote pre
            ++ [Chat.SubmitJoin]
            ++ map remote during
            ++ [Chat.LiveSettles 0 (LiveResolves u)]
            ++ flat_map events_of post)%list.
  rewrite run_app.
  destruct (@session_opening o k c t name Hk Hfail Hok) as (cs & co & ->).
  rewrite run_app, remote_unobserved, run_app.
  assert (Htr : truthy (trim name) = true).
  { destruct (trim name); [congruence | reflexivity]. }
  match goal with
  | |- context [Chat.run [Chat.SubmitJoin] ?p] =>
      assert (E : Chat.run [Chat.SubmitJoin] p
                  = Chat.mkPage
                      (mkWorld (inserted pre t) [] [] (cs ++ [CLive]) true co
                         (Chat.mkState (slice (- 50) (sort_by_timestamp t))
                            [] name true false false None))
                      true [Chat.AwaitLive])
  end.
  { unfold Chat.run, fold_left.
    cbn [Chat.step Chat.world Chat.mounted Chat.awaiting app Chat.render
           Chat.loading Chat.isConnected Chat.isJoined negb].
    unfold Chat.begin, Chat.joinChat_begin, subscribeToMessages_call,
      call_when_connected, bind, gets, try_catch, called, modify, ret.
    cbn -[trim truthy slice sort_by_timestamp]. rewrite Htr. reflexivity. }
  rewrite E, run_app, remote_unobserved, run_app.
  match goal with
  | |- context [Chat.run [Chat.LiveSettles 0 (LiveResolves u)] ?p] =>
      assert (E' : Chat.run [Chat.LiveSettles 0 (LiveResolves u)] p
                   = Chat.mkPage
                       (mkWorld (inserted during (inserted pre t))
                          [(u, live_listener Chat.onMessage)] []
                          (cs ++ [CLive]) true co
                          (Chat.mkState (slice (- 50) (sort_by_timestamp t))
                             [] name true true false (Some u)))
                       true [])
        by reflexivity
  end.
  rewrite E'.
  destruct (creations_observed u name post (inserted during (inserted pre t))
              (slice (- 50) (sort_by_timestamp t)) (cs ++ [CLive]) co [])
    as (Qt & Qm & Qj & Ql & Qo).
  cbn zeta in Qt, Qm, Qj, Ql, Qo.
  split; [exact Qj|].
  split; [unfold subscriptions; now rewrite Ql, Qo|].
  split; [exact Qm|].
  rewrite Qt. unfold inserted. now rewrite !fold_left_app.
Qed.

(** C1, as stated, fails: a message created between the snapshot read at
    connection time and the registration of the live query at join time is
    never displayed.  Here bob's message is stored in the table but is
    missing from what the joined client shows. *)
Lemma join_gap_loses_a_message :
  let w := Chat.world
             (Chat.run
                (session Examples.all_resolve (lit "dave")
                   [(1%nat, Examples.bob_yo)] [] Examples.q1
                   [ByOther 2 Examples.carol_hey])
                (Chat.load [Examples.alice_hi])) in
  table w = [Examples.alice_hi; Examples.bob_yo; Examples.carol_hey]
  /\ Chat.isJoined (app w) = true
  /\ Chat.messages (app w) = [Examples.alice_hi; Examples.carol_hey]
  /\ ~ In Examples.bob_yo (Chat.messages (app w)).
Proof.
  vm_compute. repeat split.
  intros [H | [H | []]]; discriminate.
Qed.

(** The join form stays on screen while the live query of a first
    submission is awaited.  Submitted a second time, it registers a second
    live query, and from then on every created record is displayed twice;
    the handle kept is that of the query answered last. *)
Lemma second_join_submit_doubles_the_display :
  let p := Chat.run
             [Chat.Mount Examples.all_resolve;
              Chat.HistorySettles 0 SelectResolves;
              Chat.TypeUsername (lit "dave");
              Chat.SubmitJoin; Chat.SubmitJoin;
              Chat.LiveSettles 0 (LiveResolves Examples.q1);
              Chat.LiveSettles 0 (LiveResolves (lit "0191f0c2-live-query-2"));
              Chat.RemoteCreate 1 Examples.bob_yo]
             (Chat.load [Examples.alice_hi]) in
  let w := Chat.world p in
  subscriptions w = 2%nat
  /\ table w = [Examples.alice_hi; Examples.bob_yo]
  /\ Chat.messages (app w)
     = [Examples.alice_hi; Examples.bob_yo; Examples.bob_yo]
  /\ Chat.subscriptionRef (app w) = Some (lit "0191f0c2-live-query-2").
Proof. vm_compute. repeat split. Qed.

(** C1, amended.  The snapshot and the subscription are two separate steps,
    with no cursor and nothing atomic about them, and the handlers of the
    page give way to other events at each of their awaits.  In every state
    the page can reach, by any events in any order:
    - while the component is not joined, and while the history is awaited,
      no live query is registered;
    - the displayed list changes only when the history arrives (it becomes
      the newest 50 records of the table at that moment, oldest first, or
      the empty list when the select is rejected) and when a record is
      created or a CREATE notification arrives: the record is appended once
      per live query the page has registered (under the notified uuid, for
      a notification), so not at all when there is none;
    - the number of live queries changes only when an awaited [live] is
      answered with a uuid, which registers one more unless that uuid is
      registered already.
    In a session that submits the join form once, exactly one live query is
    registered, and the joined client displays the snapshot read at
    connection time followed by the records created after the registration,
    each once, in the order they were created; the records created in
    between are stored but not displayed. *)
Theorem joined_client_shows_snapshot_then_live :
  (forall (t : list ChatMessage) (es : list Chat.event),
      let p := Chat.run es (Chat.load t) in
      let w := Chat.world p in
      let shown := Chat.messages (app w) in
      (Chat.isJoined (app w) = false -> subscriptions w = 0%nat)
      /\ (In Chat.AwaitSelect (Chat.awaiting p) -> subscriptions w = 0%nat)
      /\ (forall e,
             Chat.messages (app (Chat.world (Chat.step e p)))
             = match e with
               | Chat.HistorySettles i sel =>
                   match nth_error (Chat.awaiting p) i with
                   | Some Chat.AwaitSelect => history_read sel (table w)
                   | _ => shown
                   end
               | Chat.CreateSettles i (CreateStores rid _ _) =>
                   match nth_error (Chat.awaiting p) i with
                   | Some (Chat.AwaitCreate now author body) =>
                       (shown
                          ++ repeat (mkChatMessage (Some rid) author body now)
                               (subscriptions w))%list
                   | _ => shown
                   end
               | Chat.RemoteCreate _ m =>
                   (shown ++ repeat m (subscriptions w))%list
               | Chat.Notification u CREATE (Some m) =>
                   (shown ++ repeat m (subscriptions_under u w))%list
               | _ => shown
               end)
      /\ (forall e,
             subscriptions (Chat.world (Chat.step e p))
             = match e with
               | Chat.LiveSettles i (LiveResolves u) =>
                   match nth_error (Chat.awaiting p) i with
                   | Some Chat.AwaitLive =>
                       if existsb (uuid_eqb u) (registered (live w))
                       then subscriptions w
                       else S (subscriptions w)
                   | _ => subscriptions w
                   end
               | _ => subscriptions w
               end))
  /\ (forall (o : oracle) (k : nat) (c : config) (t : list ChatMessage)
             (name : jsstring) (pre during : list (nat * ChatMessage))
             (u : uuid) (post : list creation),
         nth_error connectionConfigs k = Some c ->
         (forall j, (j < k)%nat -> cause (o j) <> None) ->
         cause (o k) = None ->
         trim name <> [] ->
         let w := Chat.world (Chat.run (session o name pre during u post)
                                (Chat.load t)) in
         Chat.isJoined (app w) = true
         /\ subscriptions w = 1%nat
         /\ Chat.messages (app w)
            = (slice (- 50) (sort_by_timestamp t)
                 ++ map snd (flat_map (placed name) post))%list
         /\ table w
            = inserted (pre ++ during ++ flat_map (placed name) post) t).
Proof.
  split.
  - intros t es. cbn zeta.
    pose proof (run_well_formed es (load_well_formed t)) as W.
    pose proof W as (W1 & W2 & W3 & W4 & W5 & W6 & W7).
    split; [|split; [|split]].
    + intros J. unfold subscriptions. now rewrite W2, (W4 J).
    + intros Hin. destruct (W7 (W6 Hin)) as (J & _).
      unfold subscriptions. now rewrite W2, (W4 J).
    + intros e. exact (step_display e W).
    + intros e. exact (step_subscriptions e W).
  - intros o k c t name pre during u post. apply single_join_session.
Qed.

Lemma joined_client_shows_snapshot_then_live_witness :
  Chat.messages
    (app (Chat.world
            (Chat.run
               (session ConnectExamples.third_works (lit "dave")
                  [(0%nat, Examples.carol_hey)]
                  [(0%nat, mkChatMessage (Some (lit "messages:e5"))
                             (lit "erin") (lit "yo") 3500)]
                  Examples.q1
                  [ByOther 0 Examples.alice_hi;
                   ByMe (lit " hello ") (lit "messages:d4") 0 false 4000;
                   ByMe (lit "  ") (lit "messages:d5") 0 false 5000])
               (Chat.load [Examples.bob_yo]))))
  = [Examples.bob_yo; Examples.alice_hi;
     mkChatMessage (Some (lit "messages:d4")) (lit "dave") (lit "hello") 4000].
Proof.
  pose proof (proj2 joined_client_shows_snapshot_then_live
                ConnectExamples.third_works 2%nat
                (mkConfig (lit "ws://127.0.0.1:8000/rpc") (lit "WebSocket"))
                [Examples.bob_yo] (lit "dave")
                [(0%nat, Examples.carol_hey)]
                [(0%nat, mkChatMessage (Some (lit "messages:e5"))
                           (lit "erin") (lit "yo") 3500)]
                Examples.q1
                [ByOther 0 Examples.alice_hi;
                 ByMe (lit " hello ") (lit "messages:d4") 0 false 4000;
                 ByMe (lit "  ") (lit "messages:d5") 0 false 5000]
                eq_refl) as H.
  cbn zeta in H.
  destruct H as (_ & _ & H & _).
  - intros j Hj. destruct j as [|[|j]]; [discriminate | discriminate | lia].
  - reflexivity.
  - discriminate.
  - exact H.
Defined.

End Session.

(* ================================================================== *)
(** * Further facts *)
(* ================================================================== *)

Section Further.
Import SurrealDBService.

(** [connect] raises the [connected] flag before the test query and the
    schema set-up; when one of these fails and no later endpoint works,
    [connect] throws with the flag still raised. *)
Lemma connect_can_throw_with_the_flag_raised :
  let o : oracle :=
    fun i st =>
      match i, st with
      | 0%nat, AtSchema => Some Examples.boom
      | 0%nat, _ => None
      | _, AtConnect => Some Examples.boom
      | _, _ => None
      end in
  let out := connect o (Examples.service_down []) in
  (exists e, fst out = Throw e) /\ connected (snd out) = true.
Proof.
  cbn zeta. split; [eexists; vm_compute; reflexivity | vm_compute; reflexivity].
Qed.

(** ** The other copy of the service *)

(** There the schema set-up swallows every error, *)
Lemma part001_initializeSchema_never_throws (St : Type) (r : option exn)
      (w : Driver.World St) :
  fst (Part001.initializeSchema r w) = Ok tt.
Proof.
  unfold Part001.initializeSchema, try_catch, db_query, bind, called, settle,
    modify, ret, throw, console_error.
  cbn. destruct r as [e|]; cbn; [|reflexivity].
  match goal with |- context [if ?b then _ else _] => destruct b end;
    reflexivity.
Qed.

(** so an attempt fails only at connect, signin or use. *)
Lemma part001_attempt_outcome (St : Type) (r : replies) (c : config)
      (w : Driver.World St) :
  fst (Part001.attempt r c w)
  = match r AtConnect, r AtSignin, r AtUse with
    | Some e, _, _ => Throw e
    | None, Some e, _ => Throw e
    | None, None, Some e => Throw e
    | None, None, None => Ok tt
    end.
Proof.
  unfold Part001.attempt, Part001.initializeSchema, db_new, db_connect,
    db_signin, db_use, db_query, try_catch, bind, called, settle, modify,
    ret, throw, console_error.
  cbn.
  destruct (r AtConnect); cbn; [reflexivity|].
  destruct (r AtSignin); cbn; [reflexivity|].
  destruct (r AtUse); cbn; [reflexivity|].
  destruct (r AtSchema) as [e|]; cbn; [|reflexivity].
  match goal with |- context [if ?b then _ else _] => destruct b end;
    reflexivity.
Qed.

(** Its loop is the same: the first endpoint that accepts connect, signin
    and use ends it. *)
Lemma part001_connect_first_endpoint :
  let o : oracle :=
    fun i st =>
      match i, st with
      | 0%nat, AtConnect => Some Examples.boom
      | _, AtSchema => Some (JsValue (lit "The table 'messages' already exists"))
      | _, _ => None
      end in
  let out := Part001.connect o (Examples.service_down []) in
  fst out = Ok tt
  /\ calls (snd out)
     = [CNew; CConnect (lit "ws://localhost:8000/rpc"); CClose;
        CNew; CConnect (lit "http://localhost:8000/rpc"); CSignin; CUse;
        CQuery DEFINE_SCHEMA]
  /\ console (snd out)
     = [ConnectionFailed (lit "ws://localhost:8000/rpc") (lit "WebSocket") (lit "boom");
        ErrorName (lit "Error"); ErrorStack].
Proof.
  cbn zeta. repeat split; vm_compute; reflexivity.
Qed.

End Further.

(* ================================================================== *)
(** * Further properties of the service *)
(* ================================================================== *)

Section ServiceFurther.
Import SurrealDBService.

(** X1.  A limit below 1 is no cap: with limit 0 [getMessages] returns every
    stored message, and with a negative limit [-n] it drops the [n] oldest
    and returns the rest, oldest first. *)
Theorem getMessages_limit_below_one_is_no_cap :
  forall (St : Type) (limit : Z) (w : Driver.World St),
    connected w = true ->
    limit <= 0 ->
    fst (getMessages SelectResolves limit w)
    = Ok (skipn (Z.to_nat (- limit)) (sort_by_timestamp (table w))).
Proof.
  intros St limit w Hw Hl.
  rewrite getMessages_resolved by exact Hw. f_equal.
  unfold slice.
  replace (- limit <? 0) with false by (symmetry; apply Z.ltb_ge; lia).
  set (l := sort_by_timestamp (table w)).
  destruct (Z_le_gt_dec (- limit) (Z.of_nat (List.length l))) as [Hle | Hgt].
  - now rewrite Z.min_l by lia.
  - rewrite Z.min_r by lia. rewrite Nat2Z.id.
    rewrite skipn_all. symmetry. apply skipn_all2. lia.
Qed.

Lemma getMessages_limit_below_one_is_no_cap_witness :
  fst (getMessages SelectResolves 0
         (Examples.service
            [Examples.carol_hey; Examples.alice_hi; Examples.bob_yo]))
  = Ok [Examples.alice_hi; Examples.bob_yo; Examples.carol_hey]
  /\ fst (getMessages SelectResolves (-2)
            (Examples.service
               [Examples.carol_hey; Examples.alice_hi; Examples.bob_yo]))
     = Ok [Examples.carol_hey].
Proof.
  split.
  - apply (@getMessages_limit_below_one_is_no_cap unit 0
             (Examples.service
                [Examples.carol_hey; Examples.alice_hi; Examples.bob_yo]));
      [reflexivity | lia].
  - apply (@getMessages_limit_below_one_is_no_cap unit (-2)
             (Examples.service
                [Examples.carol_hey; Examples.alice_hi; Examples.bob_yo]));
      [reflexivity | lia].
Defined.

(** X2.  After a [disconnect] whose close resolves the service is marked
    not connected: [sendMessage], [getMessages] and [subscribeToMessages]
    refuse with [Error('Database not connected')] without calling the driver
    or changing anything, and another [disconnect] does nothing at all. *)
Theorem service_refuses_after_disconnect :
  forall (St : Type) (w : Driver.World St) (cr : create_reply) (now : Z)
         (author body : jsstring) (sr : select_reply) (limit : Z)
         (lr : live_reply) (callback : ChatMessage -> St -> St)
         (r : option exn),
    let w' := snd (disconnect None w) in
    let refused := new_Error (lit "Database not connected") in
    connected w' = false
    /\ sendMessage cr now author body w' = (Throw refused, w')
    /\ getMessages sr limit w' = (Throw refused, w')
    /\ subscribeToMessages lr callback w' = (Throw refused, w')
    /\ disconnect r w' = (Ok tt, w').
Proof.
  intros St w cr now author body sr limit lr callback r. cbn zeta.
  assert (H : connected (snd (disconnect None w)) = false).
  { unfold disconnect, bind, gets, db_close, called, modify, ret. cbn.
    destruct (connected w) eqn:E; cbn; [reflexivity | exact E]. }
  set (w' := snd (disconnect None w)) in *.
  split; [exact H|].
  unfold sendMessage, getMessages, subscribeToMessages, disconnect, bind, gets,
    not_connected, throw, ret.
  cbn. rewrite H. cbn. repeat split.
Qed.

(** X3.  When the close is rejected, [disconnect] throws that error and the
    service stays marked connected, so a later [disconnect] tries the close
    again; once it resolves the service is not connected and has no live
    query. *)
Theorem failed_disconnect_can_be_retried :
  forall (St : Type) (e : exn) (w : Driver.World St),
    connected w = true ->
    let first := disconnect (Some e) w in
    let second := disconnect None (snd first) in
    fst first = Throw e
    /\ connected (snd first) = true
    /\ live (snd first) = live w
    /\ fst second = Ok tt
    /\ connected (snd second) = false
    /\ live (snd second) = []
    /\ calls (snd second) = (calls w ++ [CClose; CClose])%list.
Proof.
  intros St e w Hw. cbn zeta.
  unfold disconnect, bind, gets, db_close, called, modify, ret, throw. cbn.
  rewrite Hw. cbn. rewrite Hw. cbn. rewrite <- app_assoc. repeat split.
Qed.

Lemma failed_disconnect_can_be_retried_witness :
  let w := Examples.joined (lit "dave") [] in
  fst (disconnect (Some Examples.boom) w) = Throw Examples.boom
  /\ connected (snd (disconnect (Some Examples.boom) w)) = true.
Proof.
  pose proof (@failed_disconnect_can_be_retried Chat.State Examples.boom
                (Examples.joined (lit "dave") []) eq_refl) as H.
  cbn zeta in H. destruct H as (H1 & H2 & _).
  split; [exact H1 | exact H2].
Defined.

(** X4.  Once [subscribeToMessages] has resolved with a fresh uuid, it
    returns that uuid, and a [CREATE] notification for it invokes the
    callback exactly once with the created record, while a notification with
    another action, or without payload, invokes nothing. *)
Theorem subscription_delivers_each_create_once :
  forall (St : Type) (u : uuid) (callback : ChatMessage -> St -> St)
         (w : Driver.World St) (m : ChatMessage) (a : action),
    connected w = true ->
    ~ In u (registered (live w)) ->
    ~ In u (registered (orphaned w)) ->
    a <> CREATE ->
    let out := subscribeToMessages (LiveResolves u) callback w in
    fst out = Ok u
    /\ app (snd out) = app w
    /\ app (notify u CREATE (Some m) (snd out)) = callback m (app w)
    /\ app (notify u a (Some m) (snd out)) = app w
    /\ app (notify u CREATE None (snd out)) = app w.
Proof.
  intros St u callback w m a Hw Hl Ho Ha. cbn zeta.
  unfold subscribeToMessages, bind, gets, try_catch, db_live, called, modify,
    ret, notify.
  cbn -[deliver registry_set]. rewrite Hw. cbn -[deliver registry_set].
  rewrite !(@deliver_unregistered St u _ _ (orphaned w) _ Ho).
  rewrite !deliver_registry_set by exact Hl.
  repeat split.
  destruct a; cbn; congruence.
Qed.

Lemma subscription_delivers_each_create_once_witness :
  app (notify Examples.q1 CREATE (Some Examples.alice_hi)
         (snd (subscribeToMessages (LiveResolves Examples.q1)
                 FurtherExamples.record_message
                 (FurtherExamples.recording_service []))))
  = [Examples.alice_hi].
Proof.
  pose proof (@subscription_delivers_each_create_once (list ChatMessage)
                Examples.q1 FurtherExamples.record_message
                (FurtherExamples.recording_service []) Examples.alice_hi UPDATE
                eq_refl) as H.
  cbn zeta in H.
  destruct H as (_ & _ & H & _).
  - intros [].
  - intros [].
  - discriminate.
  - exact H.
Defined.

(** X5.  Subscribing under a fresh uuid and then unsubscribing it, the kill
    resolving, leaves the live queries exactly as they were, and the
    application state untouched. *)
Theorem subscribe_then_unsubscribe_restores_registry :
  forall (St : Type) (u : uuid) (callback : ChatMessage -> St -> St)
         (w : Driver.World St),
    connected w = true ->
    ~ In u (registered (live w)) ->
    let w1 := snd (subscribeToMessages (LiveResolves u) callback w) in
    let out := unsubscribe None u w1 in
    fst out = Ok tt
    /\ live (snd out) = live w
    /\ app (snd out) = app w
    /\ table (snd out) = table w
    /\ calls (snd out) = (calls w ++ [CLive; CKill u])%list.
Proof.
  intros St u callback w Hw Hl. cbn zeta.
  unfold subscribeToMessages, unsubscribe, bind, gets, try_catch, db_live,
    db_kill, called, modify, ret.
  cbn -[registry_remove registry_set]. rewrite Hw.
  cbn -[registry_remove registry_set]. rewrite <- app_assoc.
  repeat split. now apply registry_remove_set.
Qed.

Lemma subscribe_then_unsubscribe_restores_registry_witness :
  live (snd (unsubscribe None Examples.q1
               (snd (subscribeToMessages (LiveResolves Examples.q1)
                       FurtherExamples.record_message
                       (FurtherExamples.recording_service [])))))
  = [].
Proof.
  pose proof (@subscribe_then_unsubscribe_restores_registry (list ChatMessage)
                Examples.q1 FurtherExamples.record_message
                (FurtherExamples.recording_service []) eq_refl) as H.
  cbn zeta in H.
  destruct H as (_ & H & _).
  - intros [].
  - exact H.
Defined.

(** X6.  A rejection by the driver is logged once on the error console and
    rethrown unchanged by [sendMessage] and [subscribeToMessages]; nothing is
    stored or registered, and the application state is untouched. *)
Theorem driver_rejections_are_logged_and_rethrown :
  forall (St : Type) (e : exn) (now : Z) (author body : jsstring)
         (callback : ChatMessage -> St -> St) (w : Driver.World St),
    connected w = true ->
    let sent := sendMessage (CreateRejects e) now author body w in
    let subscribed := subscribeToMessages (LiveRejects e) callback w in
    fst sent = Throw e
    /\ console (snd sent) = (console w ++ [FailedToSendMessage (errorMessage e)])%list
    /\ table (snd sent) = table w
    /\ app (snd sent) = app w
    /\ fst subscribed = Throw e
    /\ console (snd subscribed)
       = (console w ++ [FailedToSubscribe (errorMessage e)])%list
    /\ live (snd subscribed) = live w
    /\ app (snd subscribed) = app w.
Proof.
  intros St e now author body callback w Hw. cbn zeta.
  unfold sendMessage, subscribeToMessages, bind, gets, try_catch, db_create,
    db_live, called, console_error, modify, ret, throw.
  cbn. rewrite Hw. cbn. repeat split.
Qed.

Lemma driver_rejections_are_logged_and_rethrown_witness :
  fst (sendMessage (CreateRejects Examples.boom) 1000 (lit "dave") (lit "hi")
         (Examples.service []))
  = Throw Examples.boom.
Proof.
  apply (@driver_rejections_are_logged_and_rethrown unit Examples.boom 1000
           (lit "dave") (lit "hi") (fun _ s => s) (Examples.service [])).
  reflexivity.
Defined.

End ServiceFurther.

(* ================================================================== *)
(** * Further properties of [connect] *)
(* ================================================================== *)

Section ConnectFurther.
Import SurrealDBService.

Variable St : Type.
Implicit Types (w : Driver.World St) (r : replies) (c : config) (o : oracle).

Ltac run_attempt' :=
  unfold attempt, attempt_failed, all_attempts_failed, initializeSchema,
    db_new, db_connect, db_signin, db_use, db_query, db_close, called,
    console_error, settle, bind, try_catch, gets, modify, ret, throw,
    raises_flag;
  cbn.

Lemma cause_none_raises_flag r : cause r = None -> raises_flag r = true.
Proof.
  unfold cause, raises_flag.
  destruct (r AtConnect); [discriminate|].
  destruct (r AtSignin); [discriminate|].
  destruct (r AtUse); [discriminate|]. reflexivity.
Qed.

Lemma attempt_connected r c w :
  connected (snd (attempt r c w)) = connected w || raises_flag r.
Proof.
  run_attempt'.
  destruct (r AtConnect); cbn; [now rewrite orb_false_r|].
  destruct (r AtSignin); cbn; [now rewrite orb_false_r|].
  destruct (r AtUse); cbn; [now rewrite orb_false_r|].
  destruct (r AtInfo); cbn; [now rewrite orb_true_r|].
  destruct (r AtSchema); cbn; now rewrite orb_true_r.
Qed.

Lemma attempt_failed_connected r c (error : exn) w :
  connected (snd (attempt_failed r c error w)) = connected w.
Proof.
  run_attempt'.
  destruct error; cbn; destruct (r AtClose); reflexivity.
Qed.

Lemma connect_from_connected o configs :
  forall i errors w,
    connected (snd (connect_from o i configs errors w))
    = connected w
      || existsb (fun j => raises_flag (o j)) (seq i (List.length configs)).
Proof.
  induction configs as [|c rest IH]; intros i errors w.
  - cbn. now rewrite orb_false_r.
  - cbn [List.length seq existsb].
    destruct (cause (o i)) as [e|] eqn:Hc.
    + rewrite (@connect_from_step_fail St o i c rest errors w e Hc).
      rewrite IH, attempt_failed_connected, attempt_connected.
      now rewrite orb_assoc.
    + rewrite (@connect_from_step_ok St o i c rest errors w Hc). cbn [snd].
      rewrite attempt_connected, (cause_none_raises_flag _ Hc).
      now rewrite !orb_true_r.
Qed.

Lemma connect_from_ok_iff o configs :
  forall i errors w,
    fst (connect_from o i configs errors w) = Ok tt
    <-> exists j, (j < List.length configs)%nat /\ cause (o (i + j)%nat) = None.
Proof.
  induction configs as [|c rest IH]; intros i errors w.
  - cbn. split; [discriminate|]. intros (j & Hj & _). lia.
  - destruct (cause (o i)) as [e|] eqn:Hc.
    + rewrite (@connect_from_step_fail St o i c rest errors w e Hc).
      rewrite IH. split.
      * intros (j & Hj & H). exists (S j). cbn. split; [lia|].
        now replace (i + S j)%nat with (S i + j)%nat by lia.
      * intros (j & Hj & H). destruct j as [|j].
        { rewrite Nat.add_0_r in H. congruence. }
        exists j. cbn in Hj. split; [lia|].
        now replace (S i + j)%nat with (i + S j)%nat by lia.
    + rewrite (@connect_from_step_ok St o i c rest errors w Hc). cbn [fst].
      split; [|reflexivity]. intros _. exists 0%nat. cbn. split; [lia|].
      now rewrite Nat.add_0_r.
Qed.

Lemma attempt_same_but_close o o' i c w :
  same_but_close o o' -> attempt (o i) c w = attempt (o' i) c w.
Proof.
  intros H. unfold attempt, initializeSchema.
  rewrite !(H i) by discriminate. reflexivity.
Qed.

Lemma attempt_failed_close_irrelevant r r' c (error : exn) w :
  live w = [] -> attempt_failed r c error w = attempt_failed r' c error w.
Proof.
  intros Hl. destruct w as [t l orp cs con co s]. cbn in Hl. subst.
  run_attempt'.
  destruct error; cbn; destruct (r AtClose), (r' AtClose); reflexivity.
Qed.

Lemma connect_from_same_but_close o o' configs :
  same_but_close o o' ->
  forall i errors w,
    connect_from o i configs errors w = connect_from o' i configs errors w.
Proof.
  intros H. induction configs as [|c rest IH]; intros i errors w;
    [reflexivity|].
  cbn [connect_from].
  rewrite <- (attempt_same_but_close i c w H).
  pose proof (attempt_world (o i) c w) as (_ & _ & _ & _ & Hl & _).
  destruct (attempt (o i) c w) as [[[]|e] w']; [reflexivity|].
  cbn [snd] in Hl. unfold bind.
  rewrite (attempt_failed_close_irrelevant (o i) (o' i) c e w' Hl).
  destruct (attempt_failed (o' i) c e w') as [[[]|e'] w'']; [apply IH | reflexivity].
Qed.

End ConnectFurther.

Section ConnectFurtherTheorems.
Import SurrealDBService.

(** X7.  [connect] returns normally exactly when at least one of the six
    endpoints accepts the whole sequence (connect, signin, use, test query,
    schema set-up); otherwise it throws. *)
Theorem connect_succeeds_iff_an_endpoint_works :
  forall (St : Type) (o : oracle) (w : Driver.World St),
    (fst (connect o w) = Ok tt
     <-> exists k, (k < 6)%nat /\ cause (o k) = None)
    /\ (fst (connect o w) <> Ok tt -> exists e, fst (connect o w) = Throw e).
Proof.
  intros St o w. split.
  - apply (@connect_from_ok_iff St o connectionConfigs 0 [] w).
  - intros H. destruct (fst (connect o w)) as [[]|e]; [congruence|].
    now exists e.
Qed.

(** X8.  [connect] raises the [connected] flag as soon as an endpoint has
    accepted connect, signin and use, before the test query and the schema
    set-up, and never lowers it: afterwards the service is marked connected
    exactly when it was before or some endpoint accepts those three calls,
    whether [connect] returns or throws. *)
Theorem connect_marks_connected_before_it_succeeds :
  forall (St : Type) (o : oracle) (w : Driver.World St),
    connected (snd (connect o w))
    = connected w || existsb (fun j => raises_flag (o j)) (seq 0 6).
Proof.
  intros St o w. apply (@connect_from_connected St o connectionConfigs 0 [] w).
Qed.

(** X9.  What the driver answers to [close] after a failed attempt is
    irrelevant: two runs of [connect] that differ only in those answers end
    with the same outcome and in the same state. *)
Theorem connect_ignores_the_outcome_of_close :
  forall (St : Type) (o o' : oracle) (w : Driver.World St),
    same_but_close o o' ->
    connect o w = connect o' w.
Proof.
  intros St o o' w H. now apply connect_from_same_but_close.
Qed.

Lemma connect_ignores_the_outcome_of_close_witness :
  connect ConnectExamples.third_works (Examples.service_down [])
  = connect FurtherExamples.third_works_close_fails (Examples.service_down []).
Proof.
  apply connect_ignores_the_outcome_of_close.
  intros i st Hst. destruct st; try reflexivity. congruence.
Defined.

End ConnectFurtherTheorems.

(* ================================================================== *)
(** * Further properties of the other copy of the service *)
(* ================================================================== *)

Section Part001Further.
Import SurrealDBService.

Variable St : Type.
Implicit Types (w : Driver.World St) (r : replies) (c : config) (o : oracle).

Ltac run_attempt001 :=
  unfold Part001.attempt, Part001.initializeSchema, attempt_failed,
    db_new, db_connect, db_signin, db_use, db_query, db_close, called,
    console_error, settle, bind, try_catch, gets, modify, ret, throw,
    cause001, attempt_calls001;
  cbn.

Ltac schema_case :=
  match goal with
  | |- context [if ?b then _ else _] => destruct b
  end.

Lemma part001_attempt_result r c w :
  fst (Part001.attempt r c w)
  = match cause001 r with None => Ok tt | Some e => Throw e end.
Proof.
  run_attempt001.
  destruct (r AtConnect); cbn; [reflexivity|].
  destruct (r AtSignin); cbn; [reflexivity|].
  destruct (r AtUse); cbn; [reflexivity|].
  destruct (r AtSchema); cbn; [schema_case|]; reflexivity.
Qed.

Lemma part001_attempt_world r c w :
  let w' := snd (Part001.attempt r c w) in
  calls w' = (calls w ++ attempt_calls001 r c)%list
  /\ table w' = table w
  /\ app w' = app w
  /\ (cause001 r = None -> connected w' = true).
Proof.
  run_attempt001.
  destruct (r AtConnect); cbn;
    [rewrite <- !app_assoc; repeat split; discriminate|].
  destruct (r AtSignin); cbn;
    [rewrite <- !app_assoc; repeat split; discriminate|].
  destruct (r AtUse); cbn;
    [rewrite <- !app_assoc; repeat split; discriminate|].
  destruct (r AtSchema); cbn; [schema_case|]; cbn;
    rewrite <- !app_assoc; repeat split.
Qed.

Lemma part001_connect_from_step_ok o i c rest errors w :
  cause001 (o i) = None ->
  Part001.connect_from o i (c :: rest) errors w
  = (Ok tt, snd (Part001.attempt (o i) c w)).
Proof.
  intros H. cbn [Part001.connect_from].
  pose proof (part001_attempt_result (o i) c w) as Ho. rewrite H in Ho.
  destruct (Part001.attempt (o i) c w) as [[[]|e] w']; cbn in *; congruence.
Qed.

Lemma part001_connect_from_step_fail o i c rest errors w (e : exn) :
  cause001 (o i) = Some e ->
  Part001.connect_from o i (c :: rest) errors w
  = Part001.connect_from o (S i) rest (errors ++ [error_line c (errorMessage e)])
      (snd (attempt_failed (o i) c e (snd (Part001.attempt (o i) c w)))).
Proof.
  intros H. cbn [Part001.connect_from].
  pose proof (part001_attempt_result (o i) c w) as Ho. rewrite H in Ho.
  destruct (Part001.attempt (o i) c w) as [[[]|e'] w'] eqn:E; cbn in Ho;
    [discriminate|].
  injection Ho as ->. cbn [snd].
  unfold bind at 1.
  pose proof (attempt_failed_world (o i) c e w') as [Hok _].
  destruct (attempt_failed (o i) c e w') as [[[]|e''] w'']; cbn in *;
    [reflexivity | discriminate].
Qed.

Lemma part001_connect_from_first_success o configs :
  forall i errors w k c,
    nth_error configs k = Some c ->
    (forall j, (j < k)%nat -> cause001 (o (i + j)%nat) <> None) ->
    cause001 (o (i + k)%nat) = None ->
    let out := Part001.connect_from o i configs errors w in
    fst out = Ok tt
    /\ connected (snd out) = true
    /\ table (snd out) = table w
    /\ app (snd out) = app w
    /\ calls (snd out)
       = (calls w ++ failed_attempts001 o i (firstn k configs)
            ++ [CNew; CConnect (url c); CSignin; CUse; CQuery DEFINE_SCHEMA])%list.
Proof.
  induction configs as [|c0 rest IH]; intros i errors w k c Hk Hfail Hok;
    [destruct k; discriminate|].
  destruct k as [|k]; cbn zeta.
  - cbn in Hk. injection Hk as ->. rewrite Nat.add_0_r in Hok.
    rewrite (@part001_connect_from_step_ok o i c rest errors w Hok).
    cbn [fst snd].
    pose proof (part001_attempt_world (o i) c w) as (Hcalls & Ht & Ha & Hcon).
    split; [reflexivity|]. split; [now apply Hcon|].
    split; [exact Ht|]. split; [exact Ha|].
    rewrite Hcalls. cbn [firstn failed_attempts001 app].
    f_equal. unfold attempt_calls001.
    unfold cause001 in Hok.
    destruct (o i AtConnect); [discriminate|].
    destruct (o i AtSignin); [discriminate|].
    destruct (o i AtUse); [discriminate|]. reflexivity.
  - cbn in Hk.
    destruct (cause001 (o i)) as [e|] eqn:Hc.
    2:{ exfalso. apply (Hfail 0%nat); [lia|]. now rewrite Nat.add_0_r. }
    rewrite (@part001_connect_from_step_fail o i c0 rest errors w e Hc).
    specialize (IH (S i) (errors ++ [error_line c0 (errorMessage e)])%list
                   (snd (attempt_failed (o i) c0 e
                           (snd (Part001.attempt (o i) c0 w))))
                   k c Hk).
    cbn zeta in IH. destruct IH as (IH1 & IH2 & IH3 & IH4 & IH5).
    + intros j Hj. replace (S i + j)%nat with (i + S j)%nat by lia.
      apply Hfail. lia.
    + replace (S i + k)%nat with (i + S k)%nat by lia. exact Hok.
    + pose proof (attempt_failed_world (o i) c0 e
                    (snd (Part001.attempt (o i) c0 w)))
        as (_ & Hcl & Ht' & Ha' & _).
      pose proof (part001_attempt_world (o i) c0 w) as (Hcalls & Ht & Ha & _).
      split; [exact IH1|]. split; [exact IH2|].
      split; [congruence|]. split; [congruence|].
      rewrite IH5, Hcl, Hcalls. cbn [firstn failed_attempts001].
      rewrite <- !app_assoc. reflexivity.
Qed.

End Part001Further.

Section Part001Theorems.
Import SurrealDBService.

(** X10.  In the other copy of the service the schema set-up cannot fail an
    attempt: if the entry at position [k] is the first that accepts connect,
    signin and use, [connect] returns normally with the service connected,
    whatever the schema query is answered; its driver calls are the failed
    attempts before [k], each followed by [close], then new handle, connect,
    signin, use and the schema query on entry [k] (no test query). *)
Theorem part001_connect_is_a_linear_retry :
  forall (St : Type) (o : oracle) (w : Driver.World St) (k : nat) (c : config),
    nth_error connectionConfigs k = Some c ->
    (forall j, (j < k)%nat -> cause001 (o j) <> None) ->
    cause001 (o k) = None ->
    let out := Part001.connect o w in
    fst out = Ok tt
    /\ connected (snd out) = true
    /\ table (snd out) = table w
    /\ app (snd out) = app w
    /\ calls (snd out)
       = (calls w ++ failed_attempts001 o 0 (firstn k connectionConfigs)
            ++ [CNew; CConnect (url c); CSignin; CUse; CQuery DEFINE_SCHEMA])%list.
Proof.
  intros St o w k c Hk Hfail Hok.
  exact (@part001_connect_from_first_success St o connectionConfigs 0 [] w k c
           Hk Hfail Hok).
Qed.

Lemma part001_connect_is_a_linear_retry_witness :
  let out := Part001.connect FurtherExamples.second_works_schema_exists
               (Examples.service_down []) in
  fst out = Ok tt
  /\ connected (snd out) = true
  /\ calls (snd out)
     = [CNew; CConnect (lit "ws://localhost:8000/rpc"); CClose;
        CNew; CConnect (lit "http://localhost:8000/rpc"); CSignin; CUse;
        CQuery DEFINE_SCHEMA].
Proof.
  pose proof (@part001_connect_is_a_linear_retry unit
                FurtherExamples.second_works_schema_exists
                (Examples.service_down []) 1%nat
                (mkConfig (lit "http://localhost:8000/rpc") (lit "HTTP"))
                eq_refl) as H.
  cbn zeta in H.
  destruct H as (H1 & H2 & _ & _ & H3).
  - intros j Hj. destruct j as [|j]; [discriminate | lia].
  - reflexivity.
  - split; [exact H1|]. split; [exact H2|]. exact H3.
Defined.

(** X11.  In the other copy, [initializeSchema] never throws.  When the
    schema query is rejected it returns normally, and it writes a warning
    with the error's message to the console exactly when that message does
    not contain "already exists" (the second test, for "Table already
    exists", can never decide anything). *)
Theorem part001_initializeSchema_swallows_errors :
  forall (St : Type) (e : exn) (w : Driver.World St),
    let out := Part001.initializeSchema (Some e) w in
    fst out = Ok tt
    /\ fst (Part001.initializeSchema None w) = Ok tt
    /\ calls (snd out) = (calls w ++ [CQuery DEFINE_SCHEMA])%list
    /\ console (snd out)
       = (console w
            ++ if includes (errorMessage e) (lit "already exists") then []
               else [SchemaWarning (errorMessage e)])%list.
Proof.
  intros St e w. cbn zeta.
  unfold Part001.initializeSchema, try_catch, db_query, bind, called, settle,
    modify, ret, throw, console_error.
  cbn -[includes lit].
  destruct (includes (errorMessage e) (lit "already exists")) eqn:E1.
  - cbn. rewrite app_nil_r. repeat split.
  - destruct (includes (errorMessage e) (lit "Table already exists")) eqn:E2.
    + exfalso.
      change (lit "Table already exists")
        with (lit "Table " ++ lit "already exists")%list in E2.
      apply includes_suffix in E2. congruence.
    + cbn. repeat split.
Qed.

End Part001Theorems.

(* ================================================================== *)
(** * Further properties of the component *)
(* ================================================================== *)

Section ChatFurther.
Import SurrealDBService.

(** [connect] makes no live query and drops none without closing its
    handle: every listener left was there before. *)
Lemma connect_from_registries (P : uuid * listener Chat.State -> Prop)
      (o : oracle) (configs : list config) :
  forall i errors (w : Chat.World),
    Forall P (live w) -> Forall P (orphaned w) ->
    let w' := snd (connect_from o i configs errors w) in
    Forall P (live w') /\ Forall P (orphaned w').
Proof.
  induction configs as [|c rest IH]; intros i errors w Hl Ho; cbn zeta.
  - cbn. split; assumption.
  - pose proof (attempt_world (o i) c w) as (_ & _ & _ & _ & Hl1 & Ho1 & _).
    assert (Ho1' : Forall P (orphaned (snd (attempt (o i) c w)))).
    { rewrite Ho1. apply Forall_app. split; assumption. }
    destruct (cause (o i)) as [e|] eqn:Hc.
    + rewrite (@connect_from_step_fail Chat.State o i c rest errors w e Hc).
      pose proof (attempt_failed_world (o i) c e (snd (attempt (o i) c w)))
        as (_ & _ & _ & _ & Ho2 & Hl2 & _).
      apply IH.
      * rewrite (Hl2 Hl1). constructor.
      * rewrite Ho2. exact Ho1'.
    + rewrite (@connect_from_step_ok Chat.State o i c rest errors w Hc).
      cbn [snd]. rewrite Hl1. split; [constructor | exact Ho1'].
Qed.

(** What the mount effect leaves alone. *)
Lemma initConnection_keeps_identity (P : uuid * listener Chat.State -> Prop)
      (o : oracle) (sel : select_reply) (w : Chat.World) :
  let w' := Chat.exec (Chat.initConnection o sel) w in
  Chat.newMessage (app w') = Chat.newMessage (app w)
  /\ Chat.username (app w') = Chat.username (app w)
  /\ Chat.isJoined (app w') = Chat.isJoined (app w)
  /\ Chat.subscriptionRef (app w') = Chat.subscriptionRef (app w)
  /\ Chat.loading (app w') = false
  /\ (Forall P (live w) -> Forall P (orphaned w) ->
      Forall P (live w') /\ Forall P (orphaned w')).
Proof.
  cbn zeta.
  unfold Chat.exec, Chat.initConnection, try_finally, try_catch, Chat.update,
    bind, modify.
  cbn -[connect getMessages].
  match goal with
  | |- context [connect o ?w1] =>
      destruct (@connect_from_frame Chat.State o connectionConfigs 0 [] w1)
        as (Ht & Ha & _);
      pose proof (@connect_from_registries P o connectionConfigs 0 [] w1) as Hr;
      fold (@connect Chat.State o) in Ht, Ha, Hr;
      destruct (connect o w1) as [res w2]
  end.
  cbn [fst snd] in *.
  destruct w as [t l orp cs con co s].
  destruct s as [ms nm un ic ij ld sr].
  destruct w2 as [t2 l2 or2 cs2 con2 co2 s2].
  cbn in Ht, Ha, Hr. subst.
  destruct res as [[]|e].
  - unfold getMessages, bind, gets, try_catch, db_select, called, modify, ret,
      throw, console_error.
    cbn. destruct con2; cbn; [destruct sel; cbn|]; repeat split;
      apply Hr; assumption.
  - unfold bind, console_error, modify. cbn. repeat split;
      apply Hr; assumption.
Qed.

(** X12.  No handler of the component ever throws: the mount effect, the
    join and the send catch every error of the service, whatever the driver
    answers and whatever state they start from; and the mount effect always
    ends with the spinner off. *)
Theorem handlers_never_throw :
  forall (o : oracle) (sel : select_reply) (lr : live_reply)
         (cr : create_reply) (now : Z) (w : Chat.World),
    fst (Chat.initConnection o sel w) = Ok tt
    /\ Chat.loading (app (snd (Chat.initConnection o sel w))) = false
    /\ fst (Chat.joinChat lr w) = Ok tt
    /\ fst (Chat.sendMessage cr now w) = Ok tt.
Proof.
  intros o sel lr cr now w. split; [|split; [|split]].
  - unfold Chat.initConnection, try_finally, try_catch.
    match goal with
    | |- context [match ?m w with _ => _ end] =>
        destruct (m w) as [[[]|e] w']
    end; reflexivity.
  - exact (proj1 (proj2 (proj2 (proj2 (proj2
             (initConnection_keeps_identity (fun _ => True) o sel w)))))).
  - unfold Chat.joinChat, subscribeToMessages, Chat.update, bind, gets,
      try_catch, db_live, called, console_error, modify, ret, throw.
    cbn -[trim truthy].
    destruct (negb (truthy (trim (Chat.username (app w))))
              || negb (Chat.isConnected (app w))); [reflexivity|].
    destruct (connected w); cbn; [destruct lr|]; reflexivity.
  - unfold Chat.sendMessage, sendMessage, Chat.update, bind, gets,
      try_catch, db_create, called, console_error, modify, ret, throw.
    cbn -[trim truthy].
    destruct (negb (truthy (trim (Chat.newMessage (app w))))
              || negb (Chat.isJoined (app w))
              || negb (Chat.isConnected (app w))); [reflexivity|].
    destruct (connected w); cbn -[trim]; [destruct cr|]; reflexivity.
Qed.


(** X13.  When every endpoint fails, the mount effect ends on the
    connection-error screen: the component is marked not connected, the
    spinner is off, the displayed messages and everything else are as they
    were, no history is read, and the error [connect] threw is written to
    the console. *)
Theorem initConnection_failure_shows_error_screen :
  forall (o : oracle) (causes : nat -> exn) (sel : select_reply) (w : Chat.World),
    (forall j, (j < 6)%nat -> cause (o j) = Some (causes j)) ->
    let w' := Chat.exec (Chat.initConnection o sel) w in
    app w' = Chat.setLoading false (Chat.setIsConnected false (app w))
    /\ Chat.render (app w') = Chat.ConnectionErrorScreen
    /\ table w' = table w
    /\ calls w' = (calls w ++ failed_attempts o 0 connectionConfigs)%list
    /\ exists logged,
         console w'
         = (console w ++ logged
              ++ [ConnectionError
                    (all_failed_prefix
                       ++ error_line
                            (mkConfig (lit "http://localhost:8000") (lit "HTTP-Basic"))
                            (errorMessage (causes 5%nat)))])%list.
Proof.
  intros o causes sel w Hfail. cbn zeta.
  unfold Chat.exec, Chat.initConnection, try_finally, try_catch, Chat.update,
    bind, modify.
  cbn -[connect getMessages].
  match goal with
  | |- context [connect o ?w1] =>
      destruct (@connect_from_all_fail Chat.State o causes connectionConfigs
                  0 [] w1 Hfail) as (H1 & H2 & logged & H3);
      destruct (@connect_from_frame Chat.State o connectionConfigs 0 [] w1)
        as (Ht & Ha & _);
      fold (@connect Chat.State o) in H1, H2, H3, Ht, Ha;
      destruct (connect o w1) as [res w2]
  end.
  cbn [fst snd] in H1, H2, H3, Ht, Ha. subst res.
  destruct w as [t l orp cs con co s].
  destruct s as [ms nm un ic ij ld sr].
  destruct w2 as [t2 l2 or2 cs2 con2 co2 s2].
  cbn in Ht, Ha, H2, H3. subst.
  unfold console_error, modify. cbn.
  repeat split.
  exists (logged ++ [AllAttemptsFailed;
                     DetailedErrors (error_lines causes 0 connectionConfigs);
                     PossibleCauses])%list.
  rewrite <- !app_assoc. reflexivity.
Qed.

Lemma initConnection_failure_shows_error_screen_witness :
  Chat.render
    (app (Chat.exec (Chat.initConnection ConnectExamples.refused_then_timeout
                       SelectResolves)
            (Chat.fresh [Examples.alice_hi])))
  = Chat.ConnectionErrorScreen.
Proof.
  pose proof (@initConnection_failure_shows_error_screen
                ConnectExamples.refused_then_timeout
                (fun i => JsError (lit "Error")
                            (if Nat.eqb i 5 then lit "timeout"
                             else lit "connection refused"))
                SelectResolves (Chat.fresh [Examples.alice_hi])) as H.
  cbn zeta in H.
  destruct H as (_ & H & _).
  - intros j Hj. reflexivity.
  - exact H.
Defined.

(** X14.  When an endpoint works, the mount effect marks the component
    connected, turns the spinner off and replaces the displayed messages by
    the history it reads: the newest 50 stored messages, oldest first, when
    the select resolves with an array, and the empty list when the select is
    rejected or resolves with something else.  A failed history read shows
    an empty history, never the error screen. *)
Theorem initConnection_success_loads_history :
  forall (o : oracle) (k : nat) (c : config) (sel : select_reply)
         (w : Chat.World),
    nth_error connectionConfigs k = Some c ->
    (forall j, (j < k)%nat -> cause (o j) <> None) ->
    cause (o k) = None ->
    let w' := Chat.exec (Chat.initConnection o sel) w in
    let history :=
      match sel with
      | SelectResolves => slice (- 50) (sort_by_timestamp (table w))
      | _ => []
      end in
    app w'
    = Chat.setLoading false
        (Chat.setMessages (fun _ => history) (Chat.setIsConnected true (app w)))
    /\ connected w' = true
    /\ table w' = table w.
Proof.
  intros o k c sel w Hk Hfail Hok. cbn zeta.
  unfold Chat.exec, Chat.initConnection, try_finally, try_catch, Chat.update,
    bind, modify.
  cbn -[connect getMessages].
  match goal with
  | |- context [connect o ?w1] =>
      destruct (@connect_from_first_success Chat.State o connectionConfigs
                  0 [] w1 k c Hk Hfail Hok) as (H1 & H2 & _);
      destruct (@connect_from_frame Chat.State o connectionConfigs 0 [] w1)
        as (Ht & Ha & _);
      fold (@connect Chat.State o) in H1, H2, Ht, Ha;
      destruct (connect o w1) as [res w2]
  end.
  cbn [fst snd] in H1, H2, Ht, Ha. subst res.
  destruct w as [t l orp cs con co s].
  destruct s as [ms nm un ic ij ld sr].
  destruct w2 as [t2 l2 or2 cs2 con2 co2 s2].
  cbn in Ht, Ha, H2. subst.
  unfold getMessages, bind, gets, try_catch, db_select, called, modify, ret,
    throw, console_error.
  cbn -[slice sort_by_timestamp]. destruct sel; cbn -[slice sort_by_timestamp];
    repeat split.
Qed.

Lemma initConnection_success_loads_history_witness :
  Chat.messages
    (app (Chat.exec (Chat.initConnection ConnectExamples.third_works
                       (SelectRejects Examples.boom))
            (Examples.joined (lit "dave") [])))
  = [].
Proof.
  pose proof (@initConnection_success_loads_history
                ConnectExamples.third_works 2%nat
                (mkConfig (lit "ws://127.0.0.1:8000/rpc") (lit "WebSocket"))
                (SelectRejects Examples.boom)
                (Examples.joined (lit "dave") []) eq_refl) as H.
  cbn zeta in H.
  destruct H as (H & _).
  - intros j Hj. destruct j as [|[|j]]; [discriminate | discriminate | lia].
  - reflexivity.
  - rewrite H. reflexivity.
Defined.

(** X15.  A join with a display name that is not blank, on a connected
    component and service, whose live query the driver accepts: the
    component's listener is registered under the uuid the driver returned,
    that uuid is kept in [subscriptionRef], and the component is joined.
    Nothing else changes; the name is kept as typed. *)
Theorem joinChat_registers_and_joins :
  forall (u : uuid) (w : Chat.World),
    trim (Chat.username (app w)) <> [] ->
    Chat.isConnected (app w) = true ->
    connected w = true ->
    Chat.joinChat (LiveResolves u) w
    = (Ok tt,
       set_app (Chat.setIsJoined true
                  (Chat.setSubscriptionRef (Some u) (app w)))
         (set_live (registry_set u (live_listener Chat.onMessage) (live w))
            (set_calls (calls w ++ [CLive]) w))).
Proof.
  intros u w Hn Hc Hs.
  apply truthy_true_iff in Hn.
  unfold Chat.joinChat, subscribeToMessages, Chat.update, bind, gets,
    try_catch, db_live, called, modify, ret.
  cbn -[trim truthy registry_set]. rewrite Hn, Hc.
  cbn -[trim truthy registry_set]. rewrite Hs. reflexivity.
Qed.

Lemma joinChat_registers_and_joins_witness :
  Chat.isJoined
    (app (snd (Chat.joinChat (LiveResolves Examples.q1)
                 (Examples.at_join_form (lit " dave ")))))
  = true
  /\ Chat.username
       (app (snd (Chat.joinChat (LiveResolves Examples.q1)
                    (Examples.at_join_form (lit " dave ")))))
     = lit " dave ".
Proof.
  rewrite (@joinChat_registers_and_joins Examples.q1
             (Examples.at_join_form (lit " dave ")));
    [split; reflexivity | discriminate | reflexivity | reflexivity].
Defined.

(** X16.  A join that fails leaves the component on the join form, with
    nothing registered, and only logs.  When the driver rejects the live
    query the error is logged twice, once by the service and once by the
    component; when the service is not connected the driver is not called
    and the refusal is logged once. *)
Theorem joinChat_failure_stays_on_the_form :
  forall (e : exn) (lr : live_reply) (w v : Chat.World),
    trim (Chat.username (app w)) <> [] ->
    Chat.isConnected (app w) = true ->
    connected w = true ->
    trim (Chat.username (app v)) <> [] ->
    Chat.isConnected (app v) = true ->
    connected v = false ->
    Chat.joinChat (LiveRejects e) w
    = (Ok tt,
       set_console (console w ++ [FailedToSubscribe (errorMessage e);
                                  FailedToJoinChat (errorMessage e)])
         (set_calls (calls w ++ [CLive]) w))
    /\ Chat.joinChat lr v
       = (Ok tt,
          set_console (console v ++ [FailedToJoinChat (lit "Database not connected")]) v).
Proof.
  intros e lr w v Hn Hc Hs Hn' Hc' Hs'.
  apply truthy_true_iff in Hn, Hn'.
  unfold Chat.joinChat, subscribeToMessages, Chat.update, bind, gets,
    try_catch, db_live, called, console_error, modify, ret, throw.
  cbn -[trim truthy]. rewrite Hn, Hc, Hn', Hc'.
  cbn -[trim truthy]. rewrite Hs, Hs'. cbn.
  rewrite <- app_assoc. split; reflexivity.
Qed.

Lemma joinChat_failure_stays_on_the_form_witness :
  Chat.render
    (app (snd (Chat.joinChat (LiveRejects Examples.boom)
                 (Examples.at_join_form (lit "dave")))))
  = Chat.JoinForm.
Proof.
  pose proof (@joinChat_failure_stays_on_the_form Examples.boom
                (LiveResolves Examples.q1)
                (Examples.at_join_form (lit "dave"))
                (set_connected false (Examples.at_join_form (lit "dave")))) as H.
  destruct H as (H & _);
    [discriminate | reflexivity | reflexivity
     | discriminate | reflexivity | reflexivity |].
  rewrite H. reflexivity.
Defined.


(** X17.  The only driver call [sendMessage] of the component can make is
    one [create], and what it sends is the body with the white space at both
    ends trimmed off, never empty, under the display name exactly as it was
    typed (not trimmed), with no id and the current time. *)
Theorem sendMessage_sends_trimmed_body_under_typed_name :
  forall (cr : create_reply) (now : Z) (w : Chat.World),
    let body := trim (Chat.newMessage (app w)) in
    exists sent,
      calls (snd (Chat.sendMessage cr now w)) = (calls w ++ sent)%list
      /\ (List.length sent <= 1)%nat
      /\ forall c, In c sent ->
           c = CCreate (mkChatMessage None (Chat.username (app w)) body now)
           /\ body <> []
           /\ trimmed body.
Proof.
  intros cr now w. cbn zeta.
  unfold Chat.sendMessage, sendMessage, Chat.update, bind, gets,
    try_catch, db_create, called, console_error, modify, ret, throw.
  cbn -[trim truthy trimmed].
  destruct (truthy (trim (Chat.newMessage (app w)))) eqn:Hb;
    cbn -[trim truthy trimmed].
  2:{ exists []. rewrite app_nil_r.
    split; [reflexivity | split; [cbn; lia | intros c []]]. }
  destruct (negb (Chat.isJoined (app w)) || negb (Chat.isConnected (app w)));
    cbn -[trim truthy trimmed].
  { exists []. rewrite app_nil_r.
    split; [reflexivity | split; [cbn; lia | intros c []]]. }
  destruct (connected w); cbn -[trim truthy trimmed].
  2:{ exists []. rewrite app_nil_r.
    split; [reflexivity | split; [cbn; lia | intros c []]]. }
  exists [CCreate (mkChatMessage None (Chat.username (app w))
                     (trim (Chat.newMessage (app w))) now)].
  split; [destruct cr; reflexivity|].
  split; [cbn; lia|].
  intros c [<- | []].
  split; [reflexivity|].
  split; [now apply truthy_true_iff | apply trim_trimmed].
Qed.

(** X18.  The typed text is cleared only when the send succeeds.  When the
    database accepts the create, the record is stored, every registered
    listener is notified of it and the input is emptied; when it rejects the
    create, nothing is stored, the typed text and the rest of the state stay
    as they were, and the error is logged twice (by the service and by the
    component). *)
Theorem sendMessage_clears_the_input_only_on_success :
  forall (rid : jsstring) (pos : nat) (as_array : bool) (e : exn) (now : Z)
         (w : Chat.World),
    trim (Chat.newMessage (app w)) <> [] ->
    Chat.isJoined (app w) = true ->
    Chat.isConnected (app w) = true ->
    connected w = true ->
    let stored := mkChatMessage (Some rid) (Chat.username (app w))
                    (trim (Chat.newMessage (app w))) now in
    let ok := snd (Chat.sendMessage (CreateStores rid pos as_array) now w) in
    let ko := snd (Chat.sendMessage (CreateRejects e) now w) in
    table ok = insert_at pos stored (table w)
    /\ app ok
       = Chat.setNewMessage []
           (broadcast CREATE (Some stored) (live w)
              (broadcast CREATE (Some stored) (orphaned w) (app w)))
    /\ table ko = table w
    /\ app ko = app w
    /\ console ko
       = (console w ++ [FailedToSendMessage (errorMessage e);
                        FailedToSendMessage (errorMessage e)])%list.
Proof.
  intros rid pos as_array e now w Hb Hj Hc Hs.
  apply truthy_true_iff in Hb. cbn zeta.
  unfold Chat.sendMessage, sendMessage, Chat.update, bind, gets,
    try_catch, db_create, called, console_error, modify, ret, throw.
  cbn -[trim truthy insert_at broadcast]. rewrite Hb, Hj, Hc.
  cbn -[trim truthy insert_at broadcast]. rewrite Hs.
  cbn -[trim truthy insert_at broadcast]. rewrite <- app_assoc.
  repeat split.
Qed.

Lemma sendMessage_clears_the_input_only_on_success_witness :
  let w := Examples.joined (lit " dave ") (lit "  hello ") in
  Chat.newMessage
    (app (snd (Chat.sendMessage (CreateRejects Examples.boom) 4000 w)))
  = lit "  hello "
  /\ app (snd (Chat.sendMessage (CreateStores (lit "messages:d4") 0 false) 4000 w))
     = Chat.mkState
         [mkChatMessage (Some (lit "messages:d4")) (lit " dave ") (lit "hello") 4000]
         [] (lit " dave ") true true false (Some Examples.q1).
Proof.
  pose proof (@sendMessage_clears_the_input_only_on_success
                (lit "messages:d4") 0%nat false Examples.boom 4000
                (Examples.joined (lit " dave ") (lit "  hello "))) as H.
  cbn zeta in H.
  destruct H as (_ & H1 & _ & H2 & _);
    [discriminate | reflexivity | reflexivity | reflexivity |].
  cbn zeta. split.
  - rewrite H2. reflexivity.
  - rewrite H1. reflexivity.
Defined.



End ChatFurther.

(* ================================================================== *)
(** * Every state the page can reach *)
(* ================================================================== *)

Section Reachable.
Import SurrealDBService.

(** Once joined, an event leaves the component joined and its display name
    as it is. *)
Lemma step_keeps_joined (e : Chat.event) (p : Chat.Page) :
  well_formed p ->
  Chat.isJoined (app (Chat.world p)) = true ->
  Chat.isJoined (app (Chat.world (Chat.step e p))) = true
  /\ Chat.username (app (Chat.world (Chat.step e p)))
     = Chat.username (app (Chat.world p)).
Proof.
  intros (W1 & W2 & W3 & W4 & W5 & W6 & W7) Hj.
  destruct p as [w mt aw]. cbn [Chat.world Chat.mounted Chat.awaiting] in *.
  destruct e; cbn [Chat.step Chat.world Chat.mounted Chat.awaiting].
  - destruct mt; [split; [exact Hj | reflexivity]|].
    destruct (W5 eq_refl) as (J & _). congruence.
  - destruct (nth_error aw i) as [[| |]|]; try (split; [exact Hj | reflexivity]).
    destruct (initConnection_resume_effect sel w) as (_ & _ & _ & _ & Ap).
    unfold Chat.resume. cbn [Chat.world]. rewrite Ap. cbn.
    split; [exact Hj | reflexivity].
  - destruct (Chat.render (app w)) eqn:Hr; try (split; [exact Hj | reflexivity]).
    apply render_join_form in Hr. destruct Hr as (J & _). congruence.
  - destruct (Chat.render (app w)) eqn:Hr; try (split; [exact Hj | reflexivity]).
    apply render_join_form in Hr. destruct Hr as (J & _). congruence.
  - destruct (nth_error aw i) as [[| |]|]; try (split; [exact Hj | reflexivity]).
    destruct (joinChat_resume_effect r w) as (_ & _ & _ & R).
    unfold Chat.resume. cbn [Chat.world].
    destruct r; destruct R as (_ & ->); cbn; split;
      try exact Hj; reflexivity.
  - destruct (Chat.render (app w)); split; try exact Hj; reflexivity.
  - destruct (Chat.render (app w)); try (split; [exact Hj | reflexivity]).
    destruct (world_begin (Chat.sendMessage_begin now) (Chat.mkPage w mt aw))
      as (B1 & _).
    rewrite B1. cbn [Chat.world].
    destruct (sendMessage_begin_effect now w) as (_ & _ & _ & _ & _ & Ap).
    rewrite Ap. split; [exact Hj | reflexivity].
  - destruct (nth_error aw i) as [[| |now author body]|];
      try (split; [exact Hj | reflexivity]).
    destruct (sendMessage_resume_effect r now author body w) as (_ & _ & _ & R).
    unfold Chat.resume. cbn [Chat.world].
    destruct r as [e | rid pos arr].
    + destruct R as (_ & ->). split; [exact Hj | reflexivity].
    + destruct R as (_ & ->). cbn zeta. rewrite W2.
      change (broadcast CREATE
                (Some (mkChatMessage (Some rid) author body now)) [] (app w))
        with (app w).
      destruct (broadcast_effect CREATE
                  (Some (mkChatMessage (Some rid) author body now)) W1 (app w))
        as (I & _ & _).
      apply identity_of_fields in I. destruct I as (I1 & _ & I3 & _).
      cbn. rewrite I1, I3. split; [exact Hj | reflexivity].
  - unfold Chat.on_world, server_create.
    destruct w as [t l orp cs con co s].
    cbn [live orphaned app] in W1, W2, Hj. subst orp.
    cbn -[broadcast insert_at].
    change (broadcast CREATE (Some m) [] s) with s.
    destruct (broadcast_effect CREATE (Some m) W1 s) as (I & _ & _).
    apply identity_of_fields in I. destruct I as (I1 & _ & I3 & _).
    rewrite I1, I3. split; [exact Hj | reflexivity].
  - unfold Chat.on_world, notify.
    destruct w as [t l orp cs con co s].
    cbn [live orphaned app] in W1, W2, Hj. subst orp.
    cbn -[deliver].
    change (deliver u a payload [] s) with s.
    destruct (deliver_effect u a payload W1 s) as (I & _ & _).
    apply identity_of_fields in I. destruct I as (I1 & _ & I3 & _).
    rewrite I1, I3. split; [exact Hj | reflexivity].
Qed.

Lemma run_keeps_joined (es : list Chat.event) :
  forall p : Chat.Page,
    well_formed p ->
    Chat.isJoined (app (Chat.world p)) = true ->
    Chat.isJoined (app (Chat.world (Chat.run es p))) = true
    /\ Chat.username (app (Chat.world (Chat.run es p)))
       = Chat.username (app (Chat.world p)).
Proof.
  induction es as [|e es IH]; intros p W Hj; [split; [exact Hj | reflexivity]|].
  cbn [Chat.run fold_left]. fold (Chat.run es (Chat.step e p)).
  destruct (step_keeps_joined e W Hj) as (S1 & S2).
  destruct (IH (Chat.step e p) (step_well_formed e W) S1) as (R1 & R2).
  split; [exact R1 | congruence].
Qed.

(** X20.  In every state the page can reach, a live notification whose
    action is not [CREATE], or that carries no record, changes nothing:
    every live query ever registered is the component's own, and its
    listener lets only created records through. *)
Theorem notifications_other_than_create_change_nothing :
  forall (es : list Chat.event) (t : list ChatMessage) (u : uuid) (a : action)
         (payload : option ChatMessage),
    a <> CREATE \/ payload = None ->
    Chat.step (Chat.Notification u a payload) (Chat.run es (Chat.load t))
    = Chat.run es (Chat.load t).
Proof.
  intros es t u a payload Hq.
  destruct (run_well_formed es (load_well_formed t)) as (Hl & Ho & _).
  destruct (Chat.run es (Chat.load t)) as [w mt aw].
  cbn [Chat.world] in Hl, Ho.
  cbn [Chat.step]. unfold Chat.on_world, notify. cbn [Chat.world Chat.mounted Chat.awaiting].
  rewrite Ho.
  change (deliver u a payload [] (app w)) with (app w).
  rewrite (deliver_silent u Hl Hq), set_app_same. reflexivity.
Qed.

Lemma notifications_other_than_create_change_nothing_witness :
  let p := Chat.run
             (session Examples.all_resolve (lit "dave") [] [] Examples.q1
                [ByOther 0 Examples.alice_hi])
             (Chat.load []) in
  Chat.step (Chat.Notification Examples.q1 DELETE (Some Examples.alice_hi)) p = p.
Proof.
  cbn zeta.
  apply notifications_other_than_create_change_nothing.
  left. discriminate.
Defined.

(** X21.  In every state the page can reach, whatever the order in which
    its events and the driver's answers come, the component is joined
    exactly when it holds a subscription handle, and every live query
    registered is one of its own; while it is not joined no live query is
    registered at all. *)
Theorem joined_exactly_when_subscription_held :
  forall (es : list Chat.event) (t : list ChatMessage),
    let w := Chat.world (Chat.run es (Chat.load t)) in
    (Chat.isJoined (app w) = true <-> Chat.subscriptionRef (app w) <> None)
    /\ Forall ours (live w)
    /\ orphaned w = []
    /\ (Chat.isJoined (app w) = false -> live w = []).
Proof.
  intros es t. cbn zeta.
  destruct (run_well_formed es (load_well_formed t))
    as (Hl & Ho & Hj & Hn & _).
  repeat split; try assumption; apply Hj.
Qed.

(** X22.  The component has no way back from a join: once joined it stays
    joined, under the same display name, and it goes on holding a
    subscription handle, whatever comes next (typing, submitting, answers of
    the driver, records created, notifications).  The handle itself can
    change: a join submitted twice before the first answer came leaves the
    handle of the live query answered last. *)
Theorem join_is_permanent :
  forall (before after : list Chat.event) (t : list ChatMessage),
    Chat.isJoined (app (Chat.world (Chat.run before (Chat.load t)))) = true ->
    let joined := app (Chat.world (Chat.run before (Chat.load t))) in
    let later := app (Chat.world (Chat.run (before ++ after) (Chat.load t))) in
    Chat.isJoined later = true
    /\ Chat.username later = Chat.username joined
    /\ Chat.subscriptionRef later <> None.
Proof.
  intros before after t Hj. cbn zeta.
  pose proof (run_well_formed (before ++ after) (load_well_formed t))
    as (_ & _ & W3 & _).
  rewrite run_app in *.
  destruct (run_keeps_joined after
              (run_well_formed before (load_well_formed t)) Hj)
    as (Ij & Iu).
  split; [exact Ij|]. split; [exact Iu|]. now apply W3.
Qed.

Lemma join_is_permanent_witness :
  Chat.username
    (app (Chat.world
            (Chat.run
               (session Examples.all_resolve (lit "dave") [] [] Examples.q1 []
                  ++ [Chat.TypeUsername (lit "eve"); Chat.SubmitJoin;
                      Chat.LiveSettles 0 (LiveResolves (lit "another"))])
               (Chat.load []))))
  = lit "dave".
Proof.
  pose proof (@join_is_permanent
                (session Examples.all_resolve (lit "dave") [] [] Examples.q1 [])
                [Chat.TypeUsername (lit "eve"); Chat.SubmitJoin;
                 Chat.LiveSettles 0 (LiveResolves (lit "another"))]
                [] eq_refl) as H.
  cbn zeta in H. destruct H as (_ & H & _).
  rewrite H. reflexivity.
Defined.

End Reachable.

(* ================================================================== *)
(** * Further properties of reading and of the other copy's [connect] *)
(* ================================================================== *)

Section MoreFurther.
Import SurrealDBService.

(** X23.  With a limit that is at least the number of stored messages (as
    the default 50 is for a table of up to 50 messages), [getMessages]
    loses and repeats nothing: it returns every stored message exactly once,
    oldest first. *)
Theorem getMessages_within_limit_returns_everything :
  forall (St : Type) (limit : Z) (w : Driver.World St),
    connected w = true ->
    Z.of_nat (List.length (table w)) <= limit ->
    exists l,
      fst (getMessages SelectResolves limit w) = Ok l
      /\ Permutation (table w) l
      /\ StronglySorted by_timestamp l
      /\ List.length l = List.length (table w).
Proof.
  intros St limit w Hw Hl.
  exists (sort_by_timestamp (table w)).
  split.
  - rewrite getMessages_resolved by exact Hw. f_equal.
    apply slice_neg_all. now rewrite sort_by_timestamp_length.
  - split; [apply sort_by_timestamp_perm|].
    split; [apply sort_by_timestamp_sorted | apply sort_by_timestamp_length].
Qed.

Lemma getMessages_within_limit_returns_everything_witness :
  exists l,
    fst (getMessages SelectResolves default_limit
           (Examples.service
              [Examples.carol_hey; Examples.alice_hi; Examples.bob_yo]))
    = Ok l
    /\ Permutation [Examples.carol_hey; Examples.alice_hi; Examples.bob_yo] l
    /\ StronglySorted by_timestamp l
    /\ List.length l = 3%nat.
Proof.
  apply (@getMessages_within_limit_returns_everything unit default_limit
           (Examples.service
              [Examples.carol_hey; Examples.alice_hi; Examples.bob_yo])).
  - reflexivity.
  - cbn. unfold default_limit. lia.
Defined.

Lemma part001_connect_from_ok_iff (St : Type) (o : oracle) (configs : list config) :
  forall i errors (w : Driver.World St),
    fst (Part001.connect_from o i configs errors w) = Ok tt
    <-> exists j, (j < List.length configs)%nat /\ cause001 (o (i + j)%nat) = None.
Proof.
  induction configs as [|c rest IH]; intros i errors w.
  - cbn. split; [discriminate|]. intros (j & Hj & _). lia.
  - destruct (cause001 (o i)) as [e|] eqn:Hc.
    + rewrite (@part001_connect_from_step_fail St o i c rest errors w e Hc).
      rewrite IH. split.
      * intros (j & Hj & H). exists (S j). cbn. split; [lia|].
        now replace (i + S j)%nat with (S i + j)%nat by lia.
      * intros (j & Hj & H). destruct j as [|j].
        { rewrite Nat.add_0_r in H. congruence. }
        exists j. cbn in Hj. split; [lia|].
        now replace (S i + j)%nat with (i + S j)%nat by lia.
    + rewrite (@part001_connect_from_step_ok St o i c rest errors w Hc).
      cbn [fst].
      split; [|reflexivity]. intros _. exists 0%nat. cbn. split; [lia|].
      now rewrite Nat.add_0_r.
Qed.

(** X24.  In the other copy, [connect] returns normally exactly when at
    least one of the six endpoints accepts connect, signin and use; what the
    schema query is answered never matters. *)
Theorem part001_connect_succeeds_iff_an_endpoint_connects :
  forall (St : Type) (o : oracle) (w : Driver.World St),
    fst (Part001.connect o w) = Ok tt
    <-> exists k, (k < 6)%nat
                  /\ o k AtConnect = None /\ o k AtSignin = None
                  /\ o k AtUse = None.
Proof.
  intros St o w.
  unfold Part001.connect. rewrite part001_connect_from_ok_iff.
  split; intros (k & Hk & H); exists k; (split; [exact Hk|]);
    cbn [Nat.add] in *; unfold cause001 in *.
  - destruct (o k AtConnect); [discriminate|].
    destruct (o k AtSignin); [discriminate|].
    destruct (o k AtUse); [discriminate|]. repeat split.
  - destruct H as (-> & -> & ->). reflexivity.
Qed.

End MoreFurther.
